(** * mpak CLI: the run command's cache and execution engine

  A shallow embedding of [src/commands/packages/run.ts], of
  [src/utils/config-manager.ts] and of the [set] and [clear] commands of
  [src/commands/config.ts], with the properties of the specification
  stated against it.

  Conventions of the embedding:
  - a JavaScript string is a [string], its code units those of the 8-bit
    range;
  - an object made by an object literal or by [JSON.parse] and used as a
    dictionary ([Record<string, string>]) is the [gmap string string] of
    its own properties, read and written with [Obj.get] and [Obj.set],
    which know what every object inherits from [Object.prototype]; a value
    that is not a string is carried as the text that [String] gives for it;
    where the iteration order of [Object.entries] matters the object is the
    list of its entries;
  - [undefined] and [null] are [None];
  - paths are joined as [path.posix] does;
  - [process.env] is a [gmap string string] looked up by the exact name, as
    on a POSIX system;
  - the configuration that the [ConfigManager] holds is a value of its
    TypeScript type, a map from package names to maps of strings, and a
    package is looked up in it among its own entries: this is what the code
    does when the file conforms to the schema (a file with an array in the
    place of a map is accepted by [validateConfig] and read here as the map
    of its entries) and the package name is not one of a member of
    [Object.prototype];
  - the manifest, the cache metadata and the answers of the registry are
    values of their TypeScript types; the registry client, the file system
    and the child process are the fields of a [Host], and what the code does
    to them is recorded as [Event]s;
  - a function that writes to the terminal, talks to the registry, exits
    the process or throws is a computation in the monad [M] below, which
    records the effects in order. *)

From Stdlib Require Import ZArith Ascii.
From stdpp Require Import gmap strings list fin_maps pretty.

Local Open Scope Z_scope.

(** ** The string primitives of JavaScript that the code calls *)

Module JS.

(** [c] occurs in [s]. *)
Fixpoint includes (c : ascii) (s : string) : bool :=
  match s with
  | "" => false
  | String a s' => if decide (a = c) then true else includes c s'
  end.

(** [s.lastIndexOf(c)] for a one-character search string: the index of the
    last occurrence, [-1] when there is none. *)
Fixpoint lastIndexOf_from (c : ascii) (s : string) : option nat :=
  match s with
  | "" => None
  | String a s' =>
      match lastIndexOf_from c s' with
      | Some i => Some (S i)
      | None => if decide (a = c) then Some 0%nat else None
      end
  end.

Definition lastIndexOf (c : ascii) (s : string) : Z :=
  match lastIndexOf_from c s with
  | Some i => Z.of_nat i
  | None => -1
  end.

(** [s.substring(start, end)] and [s.substring(start)]: arguments below
    zero count as zero, arguments beyond the length as the length, and the
    two-argument form swaps its arguments when [start > end]. *)
Fixpoint drop (n : nat) (s : string) : string :=
  match n, s with
  | O, _ => s
  | S n', String _ s' => drop n' s'
  | S _, "" => ""
  end.

Fixpoint take (n : nat) (s : string) : string :=
  match n, s with
  | S n', String a s' => String a (take n' s')
  | _, _ => ""
  end.

Definition substring2 (s : string) (start end_ : Z) : string :=
  let lo := Z.to_nat (Z.min start end_) in
  let hi := Z.to_nat (Z.max start end_) in
  take (hi - lo) (drop lo s).

Definition substring1 (s : string) (start : Z) : string :=
  drop (Z.to_nat start) s.

(** [s.startsWith(p)] *)
Fixpoint startsWith (s p : string) {struct p} : bool :=
  match p, s with
  | "", _ => true
  | String a p', String b s' => if decide (a = b) then startsWith s' p' else false
  | String _ _, "" => false
  end.

(** [s.replace(c, r)] for a one-character search string [c] and a
    replacement [r] without [$]: only the first occurrence is replaced. *)
Fixpoint replace (c : ascii) (r : string) (s : string) : string :=
  match s with
  | "" => ""
  | String a s' => if decide (a = c) then r +:+ s' else String a (replace c r s')
  end.

(** [s.toUpperCase()]: the letters a to z and the small letters of Latin-1
    (the code units 224 to 254, the division sign 247 apart) go to their
    capitals, and the sharp s (223) to [SS]. The capitals of the micro sign
    (181) and of the y with diaeresis (255) lie beyond the code units of the
    model: a string with one of the two is outside what [toUpperCase]
    covers, see [upper_in_range]. *)
Definition upper (a : ascii) : string :=
  let n := nat_of_ascii a in
  if ((97 <=? n) && (n <=? 122))%nat then String (ascii_of_nat (n - 32)) ""
  else if ((224 <=? n) && (n <=? 254) && negb (n =? 247))%nat
       then String (ascii_of_nat (n - 32)) ""
  else if (n =? 223)%nat then "SS"
  else String a "".

Fixpoint toUpperCase (s : string) : string :=
  match s with
  | "" => ""
  | String a s' => upper a +:+ toUpperCase s'
  end.

Fixpoint upper_in_range (s : string) : bool :=
  match s with
  | "" => true
  | String a s' =>
      negb ((nat_of_ascii a =? 181)%nat || (nat_of_ascii a =? 255)%nat)
      && upper_in_range s'
  end.

(** [s.toLowerCase()]: the letters A to Z and the capitals of Latin-1 (the
    code units 192 to 222, the multiplication sign 215 apart) go to their
    small letters. *)
Definition lower (a : ascii) : ascii :=
  let n := nat_of_ascii a in
  if ((65 <=? n) && (n <=? 90))%nat then ascii_of_nat (n + 32)
  else if ((192 <=? n) && (n <=? 222) && negb (n =? 215))%nat then ascii_of_nat (n + 32)
  else a.

Fixpoint toLowerCase (s : string) : string :=
  match s with
  | "" => ""
  | String a s' => String (lower a) (toLowerCase s')
  end.

(** The line feed of ["\n"]. *)
Definition nl : string := String "010" "".

(** [parts.join(sep)] *)
Fixpoint join (sep : string) (parts : list string) : string :=
  match parts with
  | [] => ""
  | [p] => p
  | p :: ps => p +:+ sep +:+ join sep ps
  end.

(** [s.indexOf(c)] for a one-character search string: the index of the
    first occurrence, [-1] when there is none. *)
Fixpoint indexOf_from (c : ascii) (s : string) : option nat :=
  match s with
  | "" => None
  | String a s' => if decide (a = c) then Some 0%nat else S <$> indexOf_from c s'
  end.

Definition indexOf (c : ascii) (s : string) : Z :=
  match indexOf_from c s with
  | Some i => Z.of_nat i
  | None => -1
  end.

(** [s.repeat(count)] for a count that is not negative. *)
Fixpoint repeat (s : string) (count : nat) : string :=
  match count with
  | O => ""
  | S count' => s +:+ repeat s count'
  end.

(** The double quote. *)
Definition dq : string := String (ascii_of_nat 34) "".

End JS.

(** ** [path.join] of Node, POSIX flavour

  [join] glues its non-empty arguments with [/] and normalises the result:
  empty and [.] segments disappear, a [..] segment removes the segment
  before it. *)

Module Path.

Fixpoint split (s : string) : list string :=
  match s with
  | "" => [""]
  | String a s' =>
      if decide (a = "/"%char) then "" :: split s'
      else match split s' with
           | p :: ps => String a p :: ps
           | [] => [String a ""]
           end
  end.

(** One segment in [normalizeString]; [res] is the stack of segments kept so
    far, the last one first. *)
Definition step (allowAboveRoot : bool) (res : list string) (seg : string)
  : list string :=
  if decide (seg = "" ∨ seg = ".") then res
  else if decide (seg = "..") then
    match res with
    | top :: below =>
        if decide (top = "..") then (if allowAboveRoot then ".." :: res else res)
        else below
    | [] => if allowAboveRoot then [".."] else []
    end
  else seg :: res.

Definition normalizeString (path : string) (allowAboveRoot : bool) : string :=
  JS.join "/" (rev (foldl (step allowAboveRoot) [] (split path))).

Fixpoint endsWithSlash (s : string) : bool :=
  match s with
  | "" => false
  | String a "" => bool_decide (a = "/"%char)
  | String _ s' => endsWithSlash s'
  end.

Definition normalize (path : string) : string :=
  if decide (path = "") then "."
  else
    let isAbsolute := JS.startsWith path "/" in
    let trailingSeparator := endsWithSlash path in
    let p := normalizeString path (negb isAbsolute) in
    if decide (p = "") then
      (if isAbsolute then "/" else if trailingSeparator then "./" else ".")
    else
      let p := if trailingSeparator then p +:+ "/" else p in
      if isAbsolute then "/" +:+ p else p.

Definition join (args : list string) : string :=
  match filter (λ a, a ≠ "") args with
  | [] => "."
  | parts => normalize (JS.join "/" parts)
  end.

Fixpoint drop_while (p : ascii → bool) (s : string) : string :=
  match s with
  | "" => ""
  | String a s' => if p a then drop_while p s' else s
  end.

(** [dirname]: the path up to the last [/] that precedes the last segment,
    trailing separators aside. *)
Definition dirname (path : string) : string :=
  match path with
  | "" => "."
  | String first body =>
      let hasRoot := bool_decide (first = "/"%char) in
      let is_slash a := bool_decide (a = "/"%char) in
      let back := drop_while (λ a, negb (is_slash a))
                    (drop_while is_slash (String.rev body)) in
      match back with
      | "" => if hasRoot then "/" else "."
      | String _ before =>
          if hasRoot && bool_decide (before = "") then "//"
          else String first (String.rev before)
      end
  end.

(** A path segment that normalisation keeps as it is. *)
Definition plain_segment (seg : string) : Prop :=
  seg ≠ "" ∧ seg ≠ "." ∧ seg ≠ ".." ∧ JS.includes "/" seg = false.

End Path.


(** ** Objects and what they inherit

    Reading [obj[key]] looks for an own property first and then along the
    prototype chain, which for an object literal and for a parsed JSON
    object is [Object.prototype]. Its members are functions, and the
    accessor [__proto__], which reads as [Object.prototype] itself and
    ignores an assignment of a string. *)

Module Obj.

Definition prototype_functions : list string :=
  ["hasOwnProperty"; "isPrototypeOf"; "propertyIsEnumerable"; "toLocaleString";
   "toString"; "valueOf"; "__defineGetter__"; "__defineSetter__";
   "__lookupGetter__"; "__lookupSetter__"].

(** The member of [Object.prototype] of that name, as the text that
    [String] gives for it in Node. *)
Definition prototype (key : string) : option string :=
  if decide (key = "__proto__") then Some "[object Object]"
  else if decide (key = "constructor") then Some "function Object() { [native code] }"
  else if decide (key ∈ prototype_functions)
       then Some ("function " +:+ key +:+ "() { [native code] }")
  else None.

(** [obj[key]] *)
Definition get (obj : gmap string string) (key : string) : option string :=
  match obj !! key with
  | Some value => Some value
  | None => prototype key
  end.

(** [obj[key] = value]: the setter of [__proto__] takes the assignment
    unless the object has a property of that name of its own, and does
    nothing with a string. *)
Definition set (obj : gmap string string) (key value : string) : gmap string string :=
  if decide (key = "__proto__" ∧ obj !! key = None) then obj else <[key := value]> obj.

End Obj.

(** ** [String.prototype.replace] with a global regular expression

    The scan goes left to right: where the pattern matches, the replacement
    is emitted and the scan continues after the match; elsewhere one
    character is copied. A matcher returns the matched text, its capture
    group and the text after the match; a replacer also sees the text before
    and after the match, which the [$] patterns of a replacement string
    refer to. *)

Module RegExp.

Section Replace.
Context {G : Type}.
Variable matcher : string → option (string * G * string).
Variable replacer : string → G → string → string → string.

Fixpoint replace_go (fuel : nat) (before s : string) : string :=
  match fuel with
  | O => s
  | S fuel' =>
      match matcher s with
      | Some (text, g, rest) =>
          replacer text g before rest +:+ replace_go fuel' (before +:+ text) rest
      | None =>
          match s with
          | "" => ""
          | String a s' => String a (replace_go fuel' (before +:+ String a "") s')
          end
      end
  end.

(** The scan of [s] when [before] precedes it in the whole string. *)
Definition replace_from (before s : string) : string :=
  replace_go (S (String.length s)) before s.

Definition replace (s : string) : string := replace_from "" s.

End Replace.

(** [s] without the prefix [p], when it has it. *)
Fixpoint strip_prefix (p s : string) {struct p} : option string :=
  match p, s with
  | "", _ => Some s
  | String a p', String b s' => if decide (a = b) then strip_prefix p' s' else None
  | String _ _, "" => None
  end.

(** The longest prefix of [s] without the character [c], and what follows. *)
Fixpoint span_not (c : ascii) (s : string) : string * string :=
  match s with
  | "" => ("", "")
  | String a s' =>
      if decide (a = c) then ("", s)
      else let '(k, r) := span_not c s' in (String a k, r)
  end.

(** [/\$\{__dirname\}/] *)
Definition dirname_marker : string := "${__dirname}".

Definition match_dirname (s : string) : option (string * unit * string) :=
  match strip_prefix dirname_marker s with
  | Some rest => Some (dirname_marker, (), rest)
  | None => None
  end.

(** [/\$\{user_config\.([^}]+)\}/]: the capture group is the key. *)
Definition user_config_open : string := "${user_config.".

Definition user_config_ref (key : string) : string :=
  user_config_open +:+ key +:+ "}".

Definition match_user_config (s : string) : option (string * string * string) :=
  match strip_prefix user_config_open s with
  | Some s1 =>
      match span_not "}" s1 with
      | (String a k, String _ rest) => Some (user_config_ref (String a k), String a k, rest)
      | _ => None
      end
  | None => None
  end.

(** A replacement given as a string: [$$] is a dollar sign, [$&] the matched
    text, [$`] the text before the match and [$'] the text after it; the
    patterns here have no numbered or named group, so any other [$] stands
    for itself. *)
Fixpoint expand (repl : string) (text before after : string) : string :=
  match repl with
  | "" => ""
  | String "$" (String "$" r) => String "$" (expand r text before after)
  | String "$" (String "&" r) => text +:+ expand r text before after
  | String "$" (String "`" r) => before +:+ expand r text before after
  | String "$" (String "'" r) => after +:+ expand r text before after
  | String a r => String a (expand r text before after)
  end.

End RegExp.

(** * [src/commands/packages/run.ts] *)

(** ** The data model *)

Record PackageSpec := {
  spec_name : string;
  spec_version : option string;
}.

Record RunOptions := { update : option bool }.

Record McpConfig := {
  command : option string;
  args : option (list string);
  env : option (gmap string string);
}.

(** [string | number | boolean]; a number is carried as the text that
    [String(n)] gives for it. *)
Inductive ConfigDefault :=
  | DefaultString (s : string)
  | DefaultNumber (text : string)
  | DefaultBoolean (b : bool).

Inductive FieldType := TypeString | TypeNumber | TypeBoolean.

Record UserConfigField := {
  field_type : FieldType;
  title : option string;
  description : option string;
  sensitive : option bool;
  required : option bool;
  default : option ConfigDefault;
}.

Record Server := {
  type : string;
  entry_point : string;
  mcp_config : McpConfig;
}.

(** [user_config] is the list of its entries, in the order of
    [Object.entries]. *)
Record McpbManifest := {
  manifest_version : string;
  manifest_name : string;
  manifest_version_ : string;
  manifest_description : string;
  user_config : option (list (string * UserConfigField));
  server : Server;
}.

Record Platform := { os : string; arch : string }.

Record CacheMetadata := {
  version : string;
  pulledAt : string;
  platform : Platform;
}.

(** What the registry client answers (its code is not part of this
    development; it is a collaborator of [handleRun]). *)
Record Bundle := {
  bundle_version : string;
  bundle_platform : Platform;
}.

Record DownloadInfo := {
  url : string;
  bundle : Bundle;
}.

(** Truthiness of the values the code tests. *)
Definition truthy_string (s : option string) : bool :=
  match s with
  | Some s => bool_decide (s ≠ "")
  | None => false
  end.

Definition truthy_bool (b : option bool) : bool := from_option id false b.

(** [String(value)] *)
Definition String_ (d : ConfigDefault) : string :=
  match d with
  | DefaultString s => s
  | DefaultNumber text => text
  | DefaultBoolean true => "true"
  | DefaultBoolean false => "false"
  end.

(** ** The pure helpers *)

Definition parsePackageSpec (spec : string) : PackageSpec :=
  let lastAtIndex := JS.lastIndexOf "@" spec in
  if lastAtIndex <=? 0 then {| spec_name := spec; spec_version := None |}
  else
    let name := JS.substring2 spec 0 lastAtIndex in
    let version := JS.substring1 spec (lastAtIndex + 1) in
    if negb (JS.startsWith name "@") then {| spec_name := spec; spec_version := None |}
    else {| spec_name := name; spec_version := Some version |}.

(** [homedir] is what [os.homedir()] returns. *)
Definition getCacheDir (homedir : string) (packageName : string) : string :=
  let cacheBase := Path.join [homedir; ".mpak"; "cache"] in
  let safeName := JS.replace "/" "-" (JS.replace "@" "" packageName) in
  Path.join [cacheBase; safeName].

Definition resolveArgs (args : list string) (cacheDir : string) : list string :=
  (λ arg, RegExp.replace RegExp.match_dirname
            (λ text _ before after, RegExp.expand cacheDir text before after) arg)
    <$> args.

Definition substituteUserConfig (value : string)
    (userConfigValues : gmap string string) : string :=
  RegExp.replace RegExp.match_user_config
    (λ match_ key _ _, from_option id match_ (Obj.get userConfigValues key)) value.

Definition substituteEnvVars (env : option (gmap string string))
    (userConfigValues : gmap string string) : gmap string string :=
  match env with
  | None => ∅
  | Some env =>
      map_fold (λ key value result,
                  Obj.set result key (substituteUserConfig value userConfigValues))
        ∅ env
  end.

(** * [src/utils/config-manager.ts] *)

(** ** Parsed JSON *)

(** What [JSON.parse] returns. A number is carried as its text; the members
    of an object are its entries in the order of [Object.entries], each key
    once. *)
#[local] Set Warnings "-register-all".

Inductive json :=
  | JNull
  | JBool (b : bool)
  | JNumber (text : string)
  | JString (s : string)
  | JArray (items : list json)
  | JObject (members : list (string * json)).

(** [typeof v]; [None] is [undefined]. *)
Definition typeof (v : option json) : string :=
  match v with
  | None => "undefined"
  | Some (JNull | JArray _ | JObject _) => "object"
  | Some (JBool _) => "boolean"
  | Some (JNumber _) => "number"
  | Some (JString _) => "string"
  end.

(** [Object.entries(v)] for a value whose [typeof] is ["object"]: the members
    of an object, the elements of an array under their indices. *)
Definition Object_entries (v : json) : list (string * json) :=
  match v with
  | JObject members => members
  | JArray items => imap (λ i item, (pretty i, item)) items
  | _ => []
  end.

Definition Object_keys (v : json) : list string := (Object_entries v).*1.

(** [v[key]], [undefined] when [v] has no such property. *)
Definition get_property (v : json) (key : string) : option json :=
  match v with
  | JArray items =>
      if decide (key = "length") then Some (JNumber (pretty (length items)))
      else (list_to_map (Object_entries v) : gmap string json) !! key
  | _ => (list_to_map (Object_entries v) : gmap string json) !! key
  end.

(** A loop whose body may throw: the first error ends it. *)
Fixpoint for_of {A E : Type} (body : A → option E) (l : list A) : option E :=
  match l with
  | [] => None
  | x :: l' =>
      match body x with
      | Some e => Some e
      | None => for_of body l'
      end
  end.

Module ConfigManager.

Definition CONFIG_VERSION : string := "1.0.0".

(** [PackageConfig] is [gmap string string]; [MpakConfig] is the validated
    data at its declared type. *)
Record MpakConfig := {
  config_version : string;
  lastUpdated : string;
  registryUrl : option string;
  packages : option (gmap string (gmap string string));
}.

Record ConfigCorruptedError := {
  message : string;
  configPath : string;
  cause : option string;
}.

Definition as_string (v : option json) : string :=
  match v with
  | Some (JString s) => s
  | _ => ""
  end.

Definition as_PackageConfig (v : json) : gmap string string :=
  list_to_map (prod_map id (λ value, as_string (Some value)) <$> Object_entries v).

(** [data as MpakConfig] *)
Definition as_MpakConfig (data : json) : MpakConfig :=
  {| config_version := as_string (get_property data "version");
     lastUpdated := as_string (get_property data "lastUpdated");
     registryUrl :=
       match get_property data "registryUrl" with
       | Some (JString s) => Some s
       | _ => None
       end;
     packages :=
       (λ pkgs, list_to_map (prod_map id as_PackageConfig <$> Object_entries pkgs))
         <$> get_property data "packages" |}.

Definition knownFields : list string :=
  ["version"; "lastUpdated"; "registryUrl"; "packages"].

Definition is_null (v : option json) : bool :=
  match v with
  | Some JNull => true
  | _ => false
  end.

Definition is_undefined (v : option json) : bool :=
  match v with
  | None => true
  | Some _ => false
  end.

(** [typeof v === 'object' && v !== null] *)
Definition is_object (v : option json) : bool :=
  bool_decide (typeof v = "object") && negb (is_null v).

Definition validateConfig (data : json) (configPath : string)
  : ConfigCorruptedError + MpakConfig :=
  let corrupted msg :=
    inl {| message := msg; configPath := configPath; cause := None |} in
  if negb (is_object (Some data)) then corrupted "Config file must be a JSON object"
  else
    let obj := data in
    if negb (bool_decide (typeof (get_property obj "version") = "string")) then
      corrupted "Config missing required field: version (string)"
    else if negb (bool_decide (typeof (get_property obj "lastUpdated") = "string")) then
      corrupted "Config missing required field: lastUpdated (string)"
    else if negb (is_undefined (get_property obj "registryUrl"))
            && negb (bool_decide (typeof (get_property obj "registryUrl") = "string")) then
      corrupted "Config field registryUrl must be a string"
    else
      let packages_error :=
        match get_property obj "packages" with
        | None => None
        | Some pkgs =>
            if negb (is_object (Some pkgs)) then
              Some "Config field packages must be an object"
            else
              for_of (λ '(pkgName, pkgConfig),
                if negb (is_object (Some pkgConfig)) then
                  Some ("Config packages." +:+ pkgName +:+ " must be an object")
                else
                  for_of (λ '(key, value),
                    if negb (bool_decide (typeof (Some value) = "string")) then
                      Some ("Config packages." +:+ pkgName +:+ "." +:+ key
                              +:+ " must be a string")
                    else None)
                    (Object_entries pkgConfig))
                (Object_entries pkgs)
        end in
      match packages_error with
      | Some msg => corrupted msg
      | None =>
          match for_of (λ key,
                  if negb (bool_decide (key ∈ knownFields)) then
                    Some ("Config contains unknown field: " +:+ key)
                  else None)
                  (Object_keys obj) with
          | Some msg => corrupted msg
          | None => inr (as_MpakConfig data)
          end
      end.

(** What is on disk at [~/.mpak/config.json], as [existsSync],
    [readFileSync] and [JSON.parse] see it. *)
Inductive ConfigFile :=
  | Missing
  | Unreadable (err : string)
  | NotJSON (err : string)
  | Parsed (data : json).

(** A [ConfigManager] object together with the file it manages. *)
Record t := {
  configFile : string;
  disk : ConfigFile;
  config : option MpakConfig;
}.

Definition new (homedir : string) (disk : ConfigFile) : t :=
  let configDir := Path.join [homedir; ".mpak"] in
  {| configFile := Path.join [configDir; "config.json"];
     disk := disk;
     config := None |}.

(** [JSON.stringify(config)], parsed back. *)
Definition to_json (c : MpakConfig) : json :=
  JObject
    ([("version", JString (config_version c)); ("lastUpdated", JString (lastUpdated c))]
     ++ match registryUrl c with
        | Some u => [("registryUrl", JString u)]
        | None => []
        end
     ++ match packages c with
        | Some pkgs =>
            [("packages",
              JObject (prod_map id (λ pkg, JObject (prod_map id JString <$> map_to_list pkg))
                         <$> map_to_list pkgs))]
        | None => []
        end).

(** [now] is what [new Date().toISOString()] returns. *)
Definition saveConfig (now : string) (cm : t) : t :=
  match config cm with
  | None => cm
  | Some c =>
      let c' := {| config_version := config_version c; lastUpdated := now;
                   registryUrl := registryUrl c; packages := packages c |} in
      {| configFile := configFile cm; disk := Parsed (to_json c'); config := Some c' |}
  end.

Definition loadConfig (now : string) (cm : t) : (ConfigCorruptedError + MpakConfig) * t :=
  match config cm with
  | Some c => (inr c, cm)
  | None =>
      match disk cm with
      | Missing =>
          let c := {| config_version := CONFIG_VERSION; lastUpdated := now;
                      registryUrl := None; packages := None |} in
          let cm' := saveConfig now
                       {| configFile := configFile cm; disk := disk cm; config := Some c |} in
          (inr (from_option id c (config cm')), cm')
      | Unreadable err =>
          (inl {| message := "Failed to read config file: " +:+ err;
                  configPath := configFile cm; cause := Some err |}, cm)
      | NotJSON err =>
          (inl {| message := "Config file contains invalid JSON: " +:+ err;
                  configPath := configFile cm; cause := Some err |}, cm)
      | Parsed data =>
          match validateConfig data (configFile cm) with
          | inl e => (inl e, cm)
          | inr c =>
              (inr c, {| configFile := configFile cm; disk := disk cm; config := Some c |})
          end
      end
  end.

Definition getPackageConfig (now : string) (cm : t) (packageName : string)
  : (ConfigCorruptedError + option (gmap string string)) * t :=
  match loadConfig now cm with
  | (inl e, cm') => (inl e, cm')
  | (inr c, cm') => (inr (packages c ≫= (.!! packageName)), cm')
  end.

Definition setPackageConfigValue (now : string) (cm : t)
    (packageName key value : string) : (ConfigCorruptedError + unit) * t :=
  match loadConfig now cm with
  | (inl e, cm') => (inl e, cm')
  | (inr c, cm') =>
      let pkgs := from_option id ∅ (packages c) in
      let pkg := from_option id ∅ (pkgs !! packageName) in
      let c' := {| config_version := config_version c; lastUpdated := lastUpdated c;
                   registryUrl := registryUrl c;
                   packages := Some (<[packageName := Obj.set pkg key value]> pkgs) |} in
      (inr (), saveConfig now
                 {| configFile := configFile cm'; disk := disk cm'; config := Some c' |})
  end.

(** The methods below are those of the class that [run.ts] does not call. *)

Definition setRegistryUrl (now : string) (cm : t) (url : string)
  : (ConfigCorruptedError + unit) * t :=
  match loadConfig now cm with
  | (inl e, cm') => (inl e, cm')
  | (inr c, cm') =>
      let c' := {| config_version := config_version c; lastUpdated := lastUpdated c;
                   registryUrl := Some url; packages := packages c |} in
      (inr (), saveConfig now
                 {| configFile := configFile cm'; disk := disk cm'; config := Some c' |})
  end.

(** [process_env] is [process.env]. *)
Definition getRegistryUrl (now : string) (process_env : gmap string string) (cm : t)
  : (ConfigCorruptedError + string) * t :=
  match loadConfig now cm with
  | (inl e, cm') => (inl e, cm')
  | (inr c, cm') =>
      (inr (if truthy_string (registryUrl c) then from_option id "" (registryUrl c)
            else if truthy_string (process_env !! "MPAK_REGISTRY_URL")
                 then from_option id "" (process_env !! "MPAK_REGISTRY_URL")
                 else "https://api.mpak.dev"),
       cm')
  end.

Definition getPackageConfigValue (now : string) (cm : t) (packageName key : string)
  : (ConfigCorruptedError + option string) * t :=
  match getPackageConfig now cm packageName with
  | (inl e, cm') => (inl e, cm')
  | (inr packageConfig, cm') => (inr (packageConfig ≫= (λ pkg, Obj.get pkg key)), cm')
  end.

Definition clearPackageConfig (now : string) (cm : t) (packageName : string)
  : (ConfigCorruptedError + bool) * t :=
  match loadConfig now cm with
  | (inl e, cm') => (inl e, cm')
  | (inr c, cm') =>
      match packages c ≫= (.!! packageName) with
      | Some _ =>
          let c' := {| config_version := config_version c; lastUpdated := lastUpdated c;
                       registryUrl := registryUrl c;
                       packages := delete packageName <$> packages c |} in
          (inr true, saveConfig now
                       {| configFile := configFile cm'; disk := disk cm';
                          config := Some c' |})
      | None => (inr false, cm')
      end
  end.

Definition clearPackageConfigValue (now : string) (cm : t) (packageName key : string)
  : (ConfigCorruptedError + bool) * t :=
  match loadConfig now cm with
  | (inl e, cm') => (inl e, cm')
  | (inr c, cm') =>
      match (packages c ≫= (.!! packageName)) ≫= (λ pkg, Obj.get pkg key) with
      | Some _ =>
          let pkgs := from_option id ∅ (packages c) in
          let pkg := delete key (from_option id ∅ (pkgs !! packageName)) in
          let pkgs' :=
            if decide (length (map_to_list pkg).*1 = 0%nat)
            then delete packageName pkgs
            else <[packageName := pkg]> pkgs in
          let c' := {| config_version := config_version c; lastUpdated := lastUpdated c;
                       registryUrl := registryUrl c; packages := Some pkgs' |} in
          (inr true, saveConfig now
                       {| configFile := configFile cm'; disk := disk cm';
                          config := Some c' |})
      | None => (inr false, cm')
      end
  end.

(** The names come in the order of the entries of the map. *)
Definition listPackagesWithConfig (now : string) (cm : t)
  : (ConfigCorruptedError + list string) * t :=
  match loadConfig now cm with
  | (inl e, cm') => (inl e, cm')
  | (inr c, cm') => (inr (map_to_list (from_option id ∅ (packages c))).*1, cm')
  end.

End ConfigManager.

(** The earlier revision of the file, kept in the repository under
    [src/utils/config-manager.ts]: no schema, and a file that cannot be read
    or parsed is replaced by a fresh configuration. *)
Module ConfigManager0.

Record t := {
  disk : ConfigManager.ConfigFile;
  config : option json;
}.

Definition fresh (now : string) : json :=
  JObject [("version", JString "1.0.0"); ("lastUpdated", JString now)].

Definition set_lastUpdated (now : string) (c : json) : json :=
  match c with
  | JObject members =>
      if decide ("lastUpdated" ∈ members.*1) then
        JObject ((λ '(k, v), if decide (k = "lastUpdated") then (k, JString now) else (k, v))
                   <$> members)
      else JObject (members ++ [("lastUpdated", JString now)])
  | _ => c
  end.

Definition saveConfig (now : string) (cm : t) : t :=
  match config cm with
  | None => cm
  | Some c =>
      let c' := set_lastUpdated now c in
      {| disk := ConfigManager.Parsed c'; config := Some c' |}
  end.

Definition loadConfig (now : string) (cm : t) : json * t :=
  match config cm with
  | Some c => (c, cm)
  | None =>
      match disk cm with
      | ConfigManager.Parsed data => (data, {| disk := disk cm; config := Some data |})
      | _ =>
          let cm' := saveConfig now {| disk := disk cm; config := Some (fresh now) |} in
          (from_option id (fresh now) (config cm'), cm')
      end
  end.

End ConfigManager0.

(** * [src/commands/packages/run.ts], the effectful part *)

(** ** What the run sees of its host *)

(** The file [.mpak-meta.json] of a cache directory. *)
Inductive MetaFile :=
  | NoMetaFile
  | BadMetaFile
  | GoodMetaFile (meta : CacheMetadata).

(** How the spawned child ends. *)
Inductive ChildEnd :=
  | ChildExit (code : option Z)
  | ChildError (message : string)
  | ChildRunning.

(** The answers of the operating system, of the clock and of the registry
    client; [inl] and [Some] in the answers of the registry client and of
    [unzip] carry the message of the error thrown. *)
Record Host := {
  homedir : string;
  process_env : gmap string string;
  stdin_isTTY : bool;
  Date_now : string;
  Date_toISOString : string;
  detectPlatform : Platform;
  meta_file : string → MetaFile;
  existsSync_dir : string → bool;
  getDownloadInfo : string → option string → Platform → string + DownloadInfo;
  downloadBundle : string → string → option string;
  unzip : string → string → option string;
  bundle_manifest : string → option McpbManifest;
  python3_works : bool;
  child_end : ChildEnd;
}.

Inductive Event :=
  | Stderr (text : string)
  | GetDownloadInfo (name : string) (version : option string) (platform : Platform)
  | DownloadBundle (url tempPath : string)
  | MkdirSync (path : string)
  | RmSync (path : string)
  | Unzip (zipPath destDir : string)
  | WriteCacheMetadata (cacheDir : string) (metadata : CacheMetadata)
  | ChmodSync (path : string)
  | SpawnSync (command : string) (args : list string)
  | Question (prompt : string)
  | Spawn (command : string) (args : list string) (env : gmap string string)
      (cwd : string).

(** What changes during a run: the effects so far, the lines still to be
    read from the terminal, the [ConfigManager] with its file, and the
    [manifest.json] of the cache directory. *)
Record World := {
  trace : list Event;
  stdin : list string;
  manager : ConfigManager.t;
  manifest_file : option McpbManifest;
}.

Inductive Outcome (A : Type) :=
  | Returned (a : A)
  | Exited (code : Z)
  | Thrown (message : string)
  | Waiting.

Arguments Returned {A} a.
Arguments Exited {A} code.
Arguments Thrown {A} message.
Arguments Waiting {A}.

Definition M (A : Type) : Type := World → Outcome A * World.

Definition ret {A : Type} (a : A) : M A := λ w, (Returned a, w).

Definition bind {A B : Type} (c : M A) (k : A → M B) : M B :=
  λ w, match c w with
       | (Returned a, w') => k a w'
       | (Exited code, w') => (Exited code, w')
       | (Thrown message, w') => (Thrown message, w')
       | (Waiting, w') => (Waiting, w')
       end.

Notation "'let*' x ':=' c 'in' k" := (bind c (λ x, k))
  (at level 10, x pattern, c at level 100, k at level 200).

Definition emit (e : Event) : M unit :=
  λ w, (Returned (),
        {| trace := trace w ++ [e]; stdin := stdin w; manager := manager w;
           manifest_file := manifest_file w |}).

(** [process.exit(code)] *)
Definition exit {A : Type} (code : Z) : M A := λ w, (Exited code, w).

(** [throw new Error(message)] *)
Definition throw {A : Type} (message : string) : M A := λ w, (Thrown message, w).

(** [rl.question(prompt, ...)]: the prompt is written and the next line of
    the terminal is the answer. *)
Definition question (prompt : string) : M string :=
  bind (emit (Question prompt))
    (λ _ w, match stdin w with
            | [] => (Waiting, w)
            | line :: lines =>
                (Returned line,
                 {| trace := trace w; stdin := lines; manager := manager w;
                    manifest_file := manifest_file w |})
            end).

(** A method of the [ConfigManager] of the run. *)
Definition with_manager {A : Type}
    (method : ConfigManager.t → (ConfigManager.ConfigCorruptedError + A) * ConfigManager.t)
  : M A :=
  λ w, let '(r, cm) := method (manager w) in
       let w' := {| trace := trace w; stdin := stdin w; manager := cm;
                    manifest_file := manifest_file w |} in
       match r with
       | inl e => (Thrown (ConfigManager.message e), w')
       | inr a => (Returned a, w')
       end.

(** [new ConfigManager()]: a manager that has not loaded the file yet. *)
Definition new_ConfigManager (h : Host) : M unit :=
  λ w, (Returned (),
        {| trace := trace w; stdin := stdin w;
           manager := ConfigManager.new (homedir h) (ConfigManager.disk (manager w));
           manifest_file := manifest_file w |}).

Definition set_manifest_file (m : option McpbManifest) : M unit :=
  λ w, (Returned (),
        {| trace := trace w; stdin := stdin w; manager := manager w;
           manifest_file := m |}).

Definition get_manifest_file : M (option McpbManifest) :=
  λ w, (Returned (manifest_file w), w).

(** ** Cache metadata and manifest *)

Definition getCacheMetadata (h : Host) (cacheDir : string) : option CacheMetadata :=
  match meta_file h (Path.join [cacheDir; ".mpak-meta.json"]) with
  | GoodMetaFile meta => Some meta
  | _ => None
  end.

Definition writeCacheMetadata (cacheDir : string) (metadata : CacheMetadata) : M unit :=
  emit (WriteCacheMetadata cacheDir metadata).

Definition extractZip (h : Host) (zipPath destDir : string) : M unit :=
  let* _ := emit (MkdirSync destDir) in
  let* _ := emit (Unzip zipPath destDir) in
  match unzip h zipPath destDir with
  | Some message => throw ("Failed to extract bundle: " +:+ message)
  | None => ret ()
  end.

Definition readManifest (cacheDir : string) : M McpbManifest :=
  let manifestPath := Path.join [cacheDir; "manifest.json"] in
  let* file := get_manifest_file in
  match file with
  | None => throw ("Manifest not found in bundle: " +:+ manifestPath)
  | Some manifest => ret manifest
  end.

(** ** User configuration *)

Definition promptForValue (field : UserConfigField) (key : string) : M string :=
  let label := if truthy_string (title field) then from_option id "" (title field) else key in
  let hint :=
    if truthy_string (description field)
    then " (" +:+ from_option id "" (description field) +:+ ")" else "" in
  let defaultHint :=
    match default field with
    | Some d => " [" +:+ String_ d +:+ "]"
    | None => ""
    end in
  let prompt := "=> " +:+ label +:+ hint +:+ defaultHint +:+ ": " in
  let* _ := if truthy_bool (sensitive field)
            then emit (Stderr ("=> (sensitive input)" +:+ JS.nl)) else ret () in
  let* answer := question prompt in
  match default field with
  | Some d => if negb (truthy_string (Some answer)) then ret (String_ d) else ret answer
  | None => ret answer
  end.

Definition isInteractive (h : Host) : bool := stdin_isTTY h.

Definition envVarName (key : string) : string := "MPAK_CONFIG_" +:+ JS.toUpperCase key.

(** The body of the loop over [Object.entries(userConfig)]: the resolved
    values and the required fields without a value, so far. *)
Definition resolve_entry (storedConfig process_env : gmap string string)
    (acc : gmap string string * list (string * UserConfigField))
    (entry : string * UserConfigField)
  : gmap string string * list (string * UserConfigField) :=
  let '(result, missingRequired) := acc in
  let '(key, field) := entry in
  let storedValue := Obj.get storedConfig key in
  let envValue := process_env !! envVarName key in
  match storedValue, envValue, default field with
  | Some v, _, _ => (Obj.set result key v, missingRequired)
  | None, Some v, _ => (Obj.set result key v, missingRequired)
  | None, None, Some d => (Obj.set result key (String_ d), missingRequired)
  | None, None, None =>
      if truthy_bool (required field) then (result, missingRequired ++ [(key, field)])
      else (result, missingRequired)
  end.

Definition resolve_entries (storedConfig process_env : gmap string string)
    (userConfig : list (string * UserConfigField))
  : gmap string string * list (string * UserConfigField) :=
  foldl (resolve_entry storedConfig process_env) (∅, []) userConfig.

(** The loop that asks for the missing required values. *)
Fixpoint prompt_missing (h : Host) (packageName : string)
    (missingRequired : list (string * UserConfigField))
    (result : gmap string string) : M (gmap string string) :=
  match missingRequired with
  | [] => ret result
  | (key, field) :: rest =>
      let label := if truthy_string (title field) then from_option id "" (title field) else key in
      let* value := promptForValue field key in
      if negb (truthy_string (Some value)) && truthy_bool (required field) then
        let* _ := emit (Stderr ("=> Error: " +:+ label +:+ " is required" +:+ JS.nl)) in
        exit 1
      else
        let result := Obj.set result key value in
        let* _ :=
          if truthy_string (Some value) then
            let* answer := question ("=> Save " +:+ label +:+ " for future runs? [Y/n]: ") in
            if bool_decide (JS.toLowerCase answer ≠ "n") then
              let* _ := with_manager (λ cm,
                          ConfigManager.setPackageConfigValue (Date_toISOString h) cm
                            packageName key value) in
              emit (Stderr ("=> Saved to ~/.mpak/config.json" +:+ JS.nl))
            else ret ()
          else ret () in
        prompt_missing h packageName rest result
  end.

(** [configManager] is the manager of the run, in the [World]. *)
Definition gatherUserConfigValues (h : Host) (packageName : string)
    (userConfig : list (string * UserConfigField)) : M (gmap string string) :=
  let* stored := with_manager (λ cm,
                   ConfigManager.getPackageConfig (Date_toISOString h) cm packageName) in
  let storedConfig := from_option id ∅ stored in
  let '(result, missingRequired) :=
    resolve_entries storedConfig (process_env h) userConfig in
  match missingRequired with
  | [] => ret result
  | _ :: _ =>
      let* _ :=
        if negb (isInteractive h) then
          let missingKeys := JS.join ", " missingRequired.*1 in
          let* _ := emit (Stderr ("=> Error: Missing required config: " +:+ missingKeys
                                    +:+ JS.nl)) in
          let* _ := emit (Stderr ("=> Run 'mpak config set " +:+ packageName
                                    +:+ " <key>=<value>' to set values" +:+ JS.nl)) in
          let* _ := emit (Stderr ("=> Or set environment variables: "
                                    +:+ JS.join ", " (envVarName <$> missingRequired.*1)
                                    +:+ JS.nl)) in
          exit 1
        else ret () in
      let* _ := emit (Stderr ("=> Package requires configuration:" +:+ JS.nl)) in
      prompt_missing h packageName missingRequired result
  end.

Definition findPythonCommand (h : Host) : M string :=
  let* _ := emit (SpawnSync "python3" ["--version"]) in
  if python3_works h then ret "python3" else ret "python".

(** ** The run *)

(** [{ ...a, ...b }] *)
Definition spread (a b : gmap string string) : gmap string string := b ∪ a.

(** The first decision on the cache: is a pull needed, given the metadata of
    the cache, the flag and the version asked for. *)
Definition needsPull (cachedMeta : option CacheMetadata) (options : RunOptions)
    (requestedVersion : option string) : bool :=
  match cachedMeta with
  | Some meta =>
      if negb (truthy_bool (update options)) then
        if truthy_string requestedVersion
        then bool_decide (Some (version meta) ≠ requestedVersion)
        else false
      else true
  | None => true
  end.

(** The second decision, once the registry has answered. *)
Definition stillNeedsPull (cachedMeta : option CacheMetadata) (options : RunOptions)
    (bundle : Bundle) : bool :=
  match cachedMeta with
  | Some meta =>
      negb (bool_decide (version meta = bundle_version bundle)
            && negb (truthy_bool (update options)))
  | None => true
  end.

(** The body of the inner [if (needsPull)]: download, clear the old cache,
    extract, write the metadata. *)
Definition pull_body (h : Host) (name cacheDir : string) (downloadInfo : DownloadInfo)
  : M unit :=
  let bundle := bundle downloadInfo in
  let tempPath := Path.join [homedir h; ".mpak"; "tmp"; Date_now h +:+ ".mcpb"] in
  let* _ := emit (MkdirSync (Path.dirname tempPath)) in
  let* _ := emit (Stderr ("=> Pulling " +:+ name +:+ "@" +:+ bundle_version bundle
                            +:+ "..." +:+ JS.nl)) in
  let* _ := emit (DownloadBundle (url downloadInfo) tempPath) in
  let* _ := match downloadBundle h (url downloadInfo) tempPath with
            | Some message => throw message
            | None => ret ()
            end in
  let* _ := if existsSync_dir h cacheDir then
              let* _ := emit (RmSync cacheDir) in set_manifest_file None
            else ret () in
  let* _ := emit (MkdirSync cacheDir) in
  let* _ := extractZip h tempPath cacheDir in
  let* old := get_manifest_file in
  let* _ := set_manifest_file
              (match bundle_manifest h (url downloadInfo) with
               | Some m => Some m
               | None => old
               end) in
  let* _ := writeCacheMetadata cacheDir
              {| version := bundle_version bundle;
                 pulledAt := Date_toISOString h;
                 platform := bundle_platform bundle |} in
  let* _ := emit (RmSync tempPath) in
  emit (Stderr ("=> Cached " +:+ name +:+ "@" +:+ bundle_version bundle +:+ JS.nl)).

(** The body of the outer [if (needsPull)]. *)
Definition pull (h : Host) (name : string) (requestedVersion : option string)
    (platform : Platform) (cacheDir : string) (cachedMeta : option CacheMetadata)
    (options : RunOptions) : M unit :=
  let* _ := emit (GetDownloadInfo name requestedVersion platform) in
  match getDownloadInfo h name requestedVersion platform with
  | inl message => throw message
  | inr downloadInfo =>
      if stillNeedsPull cachedMeta options (bundle downloadInfo)
      then pull_body h name cacheDir downloadInfo
      else ret ()
  end.

(** [args] of the [node] and [python] cases. *)
Definition script_args (mcp_config : McpConfig) (cacheDir entry_point : string)
  : list string :=
  match args mcp_config with
  | Some (a :: l) => resolveArgs (a :: l) cacheDir
  | _ => [Path.join [cacheDir; entry_point]]
  end.

(** The [switch (type)]: the command, its arguments and its environment. *)
Definition launch_plan (h : Host) (server : Server) (cacheDir : string)
    (env : gmap string string) : M (string * list string * gmap string string) :=
  let mcp_config := mcp_config server in
  let entry_point := entry_point server in
  if decide (type server = "binary") then
    let command := Path.join [cacheDir; entry_point] in
    let args := resolveArgs (from_option id [] (args mcp_config)) cacheDir in
    let* _ := emit (ChmodSync command) in
    ret (command, args, env)
  else if decide (type server = "node") then
    let command := if truthy_string (command mcp_config)
                   then from_option id "" (command mcp_config) else "node" in
    ret (command, script_args mcp_config cacheDir entry_point, env)
  else if decide (type server = "python") then
    let* command :=
      if decide (command mcp_config = Some "python") then findPythonCommand h
      else if truthy_string (command mcp_config)
           then ret (from_option id "" (command mcp_config))
           else findPythonCommand h in
    let depsDir := Path.join [cacheDir; "deps"] in
    let existingPythonPath := process_env h !! "PYTHONPATH" in
    let pythonPath :=
      if truthy_string existingPythonPath
      then depsDir +:+ ":" +:+ from_option id "" existingPythonPath
      else depsDir in
    ret (command, script_args mcp_config cacheDir entry_point,
         <["PYTHONPATH" := pythonPath]> env)
  else throw ("Unsupported server type: " +:+ type server).

(** The block [// Handle user_config substitution]. *)
Definition resolve_user_config (h : Host) (name : string) (manifest : McpbManifest)
  : M (gmap string string) :=
  match user_config manifest with
  | Some (entry :: entries) =>
      let* _ := new_ConfigManager h in
      gatherUserConfigValues h name (entry :: entries)
  | _ => ret ∅
  end.

(** The handlers of the child's [exit] and [error] events. *)
Definition await_child (h : Host) : M unit :=
  match child_end h with
  | ChildExit code => exit (from_option id 0 code)
  | ChildError message =>
      let* _ := emit (Stderr ("=> Failed to start server: " +:+ message +:+ JS.nl)) in
      exit 1
  | ChildRunning => ret ()
  end.

(** From [// Read manifest and execute] to the end of [handleRun]. *)
Definition execute (h : Host) (name cacheDir : string) : M unit :=
  let* manifest := readManifest cacheDir in
  let* userConfigValues := resolve_user_config h name manifest in
  let substitutedEnv :=
    substituteEnvVars (env (mcp_config (server manifest))) userConfigValues in
  let env := spread (process_env h) substitutedEnv in
  let* (command, args, env) := launch_plan h (server manifest) cacheDir env in
  let* _ := emit (Spawn command args env cacheDir) in
  await_child h.

(** From [let needsPull = true] to the end of [if (needsPull)]. *)
Definition refresh_cache (h : Host) (name : string) (requestedVersion : option string)
    (options : RunOptions) (cacheDir : string) : M unit :=
  let platform := detectPlatform h in
  let cachedMeta := getCacheMetadata h cacheDir in
  if needsPull cachedMeta options requestedVersion
  then pull h name requestedVersion platform cacheDir cachedMeta options
  else ret ().

Definition handleRun (h : Host) (packageSpec : string) (options : RunOptions) : M unit :=
  let spec := parsePackageSpec packageSpec in
  let name := spec_name spec in
  let requestedVersion := spec_version spec in
  let cacheDir := getCacheDir (homedir h) name in
  let* _ := refresh_cache h name requestedVersion options cacheDir in
  execute h name cacheDir.

(** The run from the state the host is in: nothing done yet, [lines] to be
    typed at the terminal, [disk] as the configuration file and [manifest] as
    the [manifest.json] of the cache directory. *)
Definition initial (h : Host) (lines : list string) (disk : ConfigManager.ConfigFile)
    (manifest : option McpbManifest) : World :=
  {| trace := []; stdin := lines;
     manager := ConfigManager.new (homedir h) disk;
     manifest_file := manifest |}.

(** * [src/commands/config.ts] *)

(** What a command writes: a line of [console.log], a text of
    [process.stderr.write]. *)
Inductive Output :=
  | ConsoleLog (line : string)
  | StderrWrite (text : string).

(** What changes while a command runs: what it has written so far, and the
    [ConfigManager] with its file. *)
Record Session := {
  output : list Output;
  configManager : ConfigManager.t;
}.

Definition Cmd (A : Type) : Type := Session → Outcome A * Session.

Definition cmd_ret {A : Type} (a : A) : Cmd A := λ s, (Returned a, s).

Definition cmd_bind {A B : Type} (c : Cmd A) (k : A → Cmd B) : Cmd B :=
  λ s, match c s with
       | (Returned a, s') => k a s'
       | (Exited code, s') => (Exited code, s')
       | (Thrown message, s') => (Thrown message, s')
       | (Waiting, s') => (Waiting, s')
       end.

Notation "'let+' x ':=' c 'in' k" := (cmd_bind c (λ x, k))
  (at level 10, x pattern, c at level 100, k at level 200).

Definition write (o : Output) : Cmd unit :=
  λ s, (Returned (), {| output := output s ++ [o]; configManager := configManager s |}).

(** [process.exit(code)] *)
Definition cmd_exit {A : Type} (code : Z) : Cmd A := λ s, (Exited code, s).

(** [new ConfigManager()] *)
Definition cmd_new_ConfigManager (homedir : string) : Cmd unit :=
  λ s, (Returned (),
        {| output := output s;
           configManager :=
             ConfigManager.new homedir (ConfigManager.disk (configManager s)) |}).

(** A method of [configManager]; a [ConfigCorruptedError] is thrown on. *)
Definition cmd_manager {A : Type}
    (method : ConfigManager.t → (ConfigManager.ConfigCorruptedError + A) * ConfigManager.t)
  : Cmd A :=
  λ s, let '(r, cm) := method (configManager s) in
       let s' := {| output := output s; configManager := cm |} in
       match r with
       | inl e => (Thrown (ConfigManager.message e), s')
       | inr a => (Returned a, s')
       end.

Definition maskValue (value : string) : string :=
  if Z.of_nat (String.length value) <=? 4
  then JS.repeat "*" (String.length value)
  else JS.substring2 value 0 4 +:+ JS.repeat "*" (String.length value - 4).

(** The loop of [handleConfigSet] over the pairs. *)
Fixpoint set_pairs (now packageName : string) (keyValuePairs : list string)
    (setCount : nat) : Cmd nat :=
  match keyValuePairs with
  | [] => cmd_ret setCount
  | pair_ :: rest =>
      let eqIndex := JS.indexOf "=" pair_ in
      if decide (eqIndex = -1) then
        let+ _ := write (StderrWrite ("Error: Invalid format " +:+ JS.dq +:+ pair_ +:+ JS.dq
                                        +:+ ". Expected key=value" +:+ JS.nl)) in
        cmd_exit 1
      else
        let key := JS.substring2 pair_ 0 eqIndex in
        let value := JS.substring1 pair_ (eqIndex + 1) in
        if negb (truthy_string (Some key)) then
          let+ _ := write (StderrWrite ("Error: Empty key in " +:+ JS.dq +:+ pair_ +:+ JS.dq
                                          +:+ JS.nl)) in
          cmd_exit 1
        else
          let+ _ := cmd_manager (λ cm,
                      ConfigManager.setPackageConfigValue now cm packageName key value) in
          set_pairs now packageName rest (S setCount)
  end.

(** [now] is what [new Date().toISOString()] returns and [homedir] what
    [os.homedir()] returns. *)
Definition handleConfigSet (now homedir : string) (packageName : string)
    (keyValuePairs : list string) : Cmd unit :=
  match keyValuePairs with
  | [] =>
      let+ _ := write (StderrWrite ("Error: At least one key=value pair is required"
                                      +:+ JS.nl)) in
      let+ _ := write (StderrWrite
                         ("Usage: mpak config set <package> <key>=<value> [<key>=<value>...]"
                            +:+ JS.nl)) in
      cmd_exit 1
  | _ :: _ =>
      let+ _ := cmd_new_ConfigManager homedir in
      let+ setCount := set_pairs now packageName keyValuePairs 0 in
      write (ConsoleLog ("Set " +:+ pretty setCount +:+ " config value(s) for "
                           +:+ packageName))
  end.

Definition handleConfigClear (now homedir : string) (packageName : string)
    (key : option string) : Cmd unit :=
  let+ _ := cmd_new_ConfigManager homedir in
  if truthy_string key then
    let key := from_option id "" key in
    let+ cleared := cmd_manager (λ cm,
                      ConfigManager.clearPackageConfigValue now cm packageName key) in
    if cleared : bool
    then write (ConsoleLog ("Cleared " +:+ key +:+ " for " +:+ packageName))
    else write (ConsoleLog ("No value found for " +:+ key +:+ " in " +:+ packageName))
  else
    let+ cleared := cmd_manager (λ cm,
                      ConfigManager.clearPackageConfig now cm packageName) in
    if cleared : bool
    then write (ConsoleLog ("Cleared all config for " +:+ packageName))
    else write (ConsoleLog ("No config found for " +:+ packageName)).

(** The command from the state the host is in: nothing written yet, [disk]
    as the configuration file. *)
Definition session (homedir : string) (disk : ConfigManager.ConfigFile) : Session :=
  {| output := []; configManager := ConfigManager.new homedir disk |}.
(** ** Vocabulary of the specification *)

(** The scope and the name of a scoped package name [@scope/name]. *)
Definition name_part (s : string) : Prop :=
  s ≠ "" ∧ JS.includes "@" s = false ∧ JS.includes "/" s = false.

Definition scoped_name (scope nm : string) : string :=
  "@" +:+ scope +:+ "/" +:+ nm.

(** The second name has the scope of the first, a hyphen and more, and the
    first has that and a hyphen before the name of the second: [@a/b-c] and
    [@a-b/c]. *)
Definition hyphen_shift (scope1 nm1 scope2 nm2 : string) : Prop :=
  ∃ x, scope2 = scope1 +:+ "-" +:+ x ∧ nm1 = x +:+ "-" +:+ nm2.

(** A key that a user-config reference can name. *)
Definition valid_key (key : string) : Prop :=
  key ≠ "" ∧ JS.includes "}" key = false.

(** [s] begins with a user-config reference. *)
Definition starts_with_reference (s : string) : Prop :=
  ∃ key rest, valid_key key ∧ s = RegExp.user_config_ref key +:+ rest.

(** [s] contains a placeholder. *)
Definition has_placeholder (s : string) : Prop :=
  ∃ pre rest, s = pre +:+ rest ∧ starts_with_reference rest.

(** No reference begins inside [pre] when [rest] follows it. *)
Definition reference_free_prefix (pre rest : string) : Prop :=
  ∀ p1 p2, pre = p1 +:+ p2 → p2 ≠ "" → ¬ starts_with_reference (p2 +:+ rest).

(** An effect that reaches the registry. *)
Definition contacts_registry (e : Event) : Prop :=
  match e with
  | GetDownloadInfo _ _ _ | DownloadBundle _ _ => True
  | _ => False
  end.

Definition is_spawn (e : Event) : Prop :=
  match e with
  | Spawn _ _ _ _ => True
  | _ => False
  end.

(** Every run of [c] adds to the trace only events that satisfy [P]. *)
Definition emits {A : Type} (P : Event → Prop) (c : M A) : Prop :=
  ∀ w o w', c w = (o, w') → ∃ es, trace w' = trace w ++ es ∧ Forall P es.

(** [w] with [es] added to its trace. *)
Definition after (w : World) (es : list Event) : World :=
  {| trace := trace w ++ es; stdin := stdin w; manager := manager w;
     manifest_file := manifest_file w |}.

(** [w] once a method of the manager has left it as [cm]. *)
Definition managed (w : World) (cm : ConfigManager.t) : World :=
  {| trace := trace w; stdin := stdin w; manager := cm;
     manifest_file := manifest_file w |}.

(** A name that [Object.prototype] has no member for: an object answers for
    it with a property of its own or not at all. *)
Definition own_name (key : string) : Prop := Obj.prototype key = None.

(** The value that the loop of [gatherUserConfigValues] finds for a field:
    what the stored configuration answers for its key, else the variable of
    the ambient environment, else the default. *)
Definition resolved_value (storedConfig process_env : gmap string string)
    (key : string) (field : UserConfigField) : option string :=
  match Obj.get storedConfig key with
  | Some v => Some v
  | None =>
      match process_env !! envVarName key with
      | Some v => Some v
      | None => String_ <$> default field
      end
  end.

(** The upper case of every declared key is within the code units of the
    model. *)
Definition keys_in_range (userConfig : list (string * UserConfigField)) : Prop :=
  Forall (λ entry, JS.upper_in_range entry.1 = true) userConfig.

(** A required field for which the loop finds no value. *)
Definition unresolved_required (storedConfig process_env : gmap string string)
    (entry : string * UserConfigField) : bool :=
  bool_decide (resolved_value storedConfig process_env entry.1 entry.2 = None)
  && truthy_bool (required entry.2).

(** What a non-interactive run writes about the missing keys. *)
Definition missing_config_report (packageName : string) (missingKeys : list string)
  : list Event :=
  [Stderr ("=> Error: Missing required config: " +:+ JS.join ", " missingKeys +:+ JS.nl);
   Stderr ("=> Run 'mpak config set " +:+ packageName +:+ " <key>=<value>' to set values"
             +:+ JS.nl);
   Stderr ("=> Or set environment variables: "
             +:+ JS.join ", " (envVarName <$> missingKeys) +:+ JS.nl)].

(** The events of a pull that goes through. *)
Definition pull_events (h : Host) (name : string) (requestedVersion : option string)
    (cacheDir : string) (info : DownloadInfo) : list Event :=
  let tempPath := Path.join [homedir h; ".mpak"; "tmp"; Date_now h +:+ ".mcpb"] in
  [GetDownloadInfo name requestedVersion (detectPlatform h);
   MkdirSync (Path.dirname tempPath);
   Stderr ("=> Pulling " +:+ name +:+ "@" +:+ bundle_version (bundle info)
             +:+ "..." +:+ JS.nl);
   DownloadBundle (url info) tempPath]
  ++ (if existsSync_dir h cacheDir then [RmSync cacheDir] else [])
  ++ [MkdirSync cacheDir; MkdirSync cacheDir; Unzip tempPath cacheDir;
      WriteCacheMetadata cacheDir
        {| version := bundle_version (bundle info);
           pulledAt := Date_toISOString h;
           platform := bundle_platform (bundle info) |};
      RmSync tempPath;
      Stderr ("=> Cached " +:+ name +:+ "@" +:+ bundle_version (bundle info) +:+ JS.nl)].

(** ** A host, a manifest and a world for the examples *)

Definition example_platform : Platform := {| os := "linux"; arch := "x64" |}.

Definition example_field (required : bool) (default : option ConfigDefault)
  : UserConfigField :=
  {| field_type := TypeString; title := None; description := None;
     sensitive := None; required := Some required; default := default |}.

(** A node server whose environment names one configuration key and one
    fixed value. *)
Definition example_manifest (user_config : option (list (string * UserConfigField)))
  : McpbManifest :=
  {| manifest_version := "0.3";
     manifest_name := "@acme/tool";
     manifest_version_ := "1.0.0";
     manifest_description := "";
     user_config := user_config;
     server :=
       {| type := "node";
          entry_point := "index.js";
          mcp_config :=
            {| command := Some "node";
               args := Some ["${__dirname}/index.js"];
               env := Some {[ "API_KEY" := "${user_config.api_key}";
                              "LOG_LEVEL" := "info" ]} |} |} |}.

(** The cache holds version 1.0.0 and the registry resolves every request to
    [resolved]. *)
Definition example_host (process_env : gmap string string) (resolved : string) : Host :=
  {| homedir := "/home/user";
     process_env := process_env;
     stdin_isTTY := false;
     Date_now := "1700000000000";
     Date_toISOString := "2024-01-01T00:00:00.000Z";
     detectPlatform := example_platform;
     meta_file := λ _, GoodMetaFile {| version := "1.0.0";
                                        pulledAt := "2023-12-31T00:00:00.000Z";
                                        platform := example_platform |};
     existsSync_dir := λ _, true;
     getDownloadInfo := λ name _ _,
       inr {| url := "https://registry.example/" +:+ name;
              bundle := {| bundle_version := resolved;
                           bundle_platform := example_platform |} |};
     downloadBundle := λ _ _, None;
     unzip := λ _ _, None;
     bundle_manifest := λ _, Some (example_manifest None);
     python3_works := true;
     child_end := ChildRunning |}.

Definition example_world (h : Host)
    (user_config : option (list (string * UserConfigField))) : World :=
  initial h [] ConfigManager.Missing (Some (example_manifest user_config)).

(** A world whose manager has loaded [pkgs] as the stored configuration. *)
Definition example_stored_world (pkgs : gmap string (gmap string string)) : World :=
  {| trace := []; stdin := [];
     manager :=
       {| ConfigManager.configFile := "/home/user/.mpak/config.json";
          ConfigManager.disk := ConfigManager.Missing;
          ConfigManager.config :=
            Some {| ConfigManager.config_version := "1.0.0";
                    ConfigManager.lastUpdated := "2024-01-01T00:00:00.000Z";
                    ConfigManager.registryUrl := None;
                    ConfigManager.packages := Some pkgs |} |};
     manifest_file := None |}.

(** Three declared fields: a required one with a default, and two optional
    ones, the second without a default. *)
Definition example_fields : list (string * UserConfigField) :=
  [("api_key", example_field true (Some (DefaultString "from-default")));
   ("region", example_field false (Some (DefaultString "default-region")));
   ("proxy", example_field false None)].

(** The environment of the child a run has spawned, if any. *)
Definition spawned_env (w : World) : option (gmap string string) :=
  list_find (λ e, match e with Spawn _ _ _ _ => true | _ => false end = true) (trace w)
    ≫= λ '(_, e), match e with Spawn _ _ env _ => Some env | _ => None end.

(** ** The schema of the configuration file *)

Definition is_string (v : json) : bool :=
  match v with
  | JString _ => true
  | _ => false
  end.

(** A JSON object whose values are all strings. *)
Definition string_map (v : json) : bool :=
  match v with
  | JObject members => forallb (λ kv, is_string kv.2) members
  | _ => false
  end.

(** A JSON object whose values are all such objects. *)
Definition package_map (v : json) : bool :=
  match v with
  | JObject members => forallb (λ kv, string_map kv.2) members
  | _ => false
  end.

(** The schema of the specification: a JSON object with the strings
    [version] and [lastUpdated], possibly a string [registryUrl], possibly
    [packages] mapping names to maps of strings, and no other field. *)
Definition conforms (data : json) : bool :=
  match data with
  | JObject members =>
      from_option is_string false (get_property data "version")
      && from_option is_string false (get_property data "lastUpdated")
      && from_option is_string true (get_property data "registryUrl")
      && from_option package_map true (get_property data "packages")
      && forallb (λ key, bool_decide (key ∈ ConfigManager.knownFields)) members.*1
  | _ => false
  end.

(** What [validateConfig] lets through: as [conforms], but where the schema
    asks for an object under [packages] any value with [typeof] ["object"]
    other than [null] will do, an array included. *)
Definition loose_string_map (v : json) : bool :=
  ConfigManager.is_object (Some v) && forallb (λ kv, is_string kv.2) (Object_entries v).

Definition loose_package_map (v : json) : bool :=
  ConfigManager.is_object (Some v)
  && forallb (λ kv, loose_string_map kv.2) (Object_entries v).

Definition accepted (data : json) : bool :=
  ConfigManager.is_object (Some data)
  && from_option is_string false (get_property data "version")
  && from_option is_string false (get_property data "lastUpdated")
  && from_option is_string true (get_property data "registryUrl")
  && from_option loose_package_map true (get_property data "packages")
  && forallb (λ key, bool_decide (key ∈ ConfigManager.knownFields)) (Object_keys data).

(** A configuration file that the typed configuration is faithful to: its
    data, when [validateConfig] accepts them, conform to the schema. *)
Definition schema_file (disk : ConfigManager.ConfigFile) : Prop :=
  match disk with
  | ConfigManager.Parsed data => accepted data = true → conforms data = true
  | _ => True
  end.

(** A configuration file whose [packages] is an array. *)
Definition example_array_config : json :=
  JObject [("version", JString "1.0.0");
           ("lastUpdated", JString "2024-01-01T00:00:00Z");
           ("packages", JArray [])].

(** The effects of a run from [w] to [w']. *)
Definition new_events (w w' : World) : list Event :=
  drop (length (trace w)) (trace w').

(** ** Vocabulary of the configuration store *)

(** The value stored for a key of a package. *)
Definition stored_value (c : ConfigManager.MpakConfig) (packageName key : string)
  : option string :=
  (ConfigManager.packages c ≫= (.!! packageName)) ≫= (.!! key).

(** The manager loads its configuration, and [c] is what it loads. *)
Definition loads (now : string) (cm : ConfigManager.t) (c : ConfigManager.MpakConfig)
  : Prop :=
  (ConfigManager.loadConfig now cm).1 = inr c.

(** What a manager started later on the file that [cm] leaves finds for a
    key of a package. *)
Definition found_after_restart (now homedir : string) (cm : ConfigManager.t)
    (packageName key : string) : ConfigManager.ConfigCorruptedError + option string :=
  (ConfigManager.getPackageConfigValue now
     (ConfigManager.new homedir (ConfigManager.disk cm)) packageName key).1.

(** No package has an empty map of values. *)
Definition no_empty_package (c : ConfigManager.MpakConfig) : Prop :=
  ∀ pkgs packageName pkg,
    ConfigManager.packages c = Some pkgs → pkgs !! packageName = Some pkg → pkg ≠ ∅.

(** [c] with the time of a save. *)
Definition stamped (now : string) (c : ConfigManager.MpakConfig)
  : ConfigManager.MpakConfig :=
  {| ConfigManager.config_version := ConfigManager.config_version c;
     ConfigManager.lastUpdated := now;
     ConfigManager.registryUrl := ConfigManager.registryUrl c;
     ConfigManager.packages := ConfigManager.packages c |}.

(** ** Vocabulary of the [config] commands *)

(** The argument [key=value] of [mpak config set]. *)
Definition key_value (kv : string * string) : string := kv.1 +:+ "=" +:+ kv.2.

(** A key that [key=value] gives back: not empty, and without [=]. *)
Definition well_formed_key (key : string) : Prop :=
  key ≠ "" ∧ JS.includes "=" key = false.

(** An argument that is no [key=value]: it has no [=], or nothing before
    its first [=]. *)
Definition malformed_pair (pair_ : string) : Prop :=
  JS.includes "=" pair_ = false ∨ JS.startsWith pair_ "=" = true.

(** The values of a package once the pairs are stored in order. *)
Definition values_after_set (old : gmap string string) (kvs : list (string * string))
  : gmap string string :=
  foldl (λ m kv, <[kv.1 := kv.2]> m) old kvs.

(** The configuration once a value is stored in it at the time [now]. *)
Definition with_value (now packageName : string) (c : ConfigManager.MpakConfig)
    (kv : string * string) : ConfigManager.MpakConfig :=
  let pkgs := from_option id ∅ (ConfigManager.packages c) in
  {| ConfigManager.config_version := ConfigManager.config_version c;
     ConfigManager.lastUpdated := now;
     ConfigManager.registryUrl := ConfigManager.registryUrl c;
     ConfigManager.packages :=
       Some (<[packageName := <[kv.1 := kv.2]> (from_option id ∅ (pkgs !! packageName))]>
               pkgs) |}.

(** What [mpak config set] writes for an argument that is no [key=value]. *)
Definition malformed_pair_report (pair_ : string) : string :=
  if JS.includes "=" pair_
  then "Error: Empty key in " +:+ JS.dq +:+ pair_ +:+ JS.dq +:+ JS.nl
  else "Error: Invalid format " +:+ JS.dq +:+ pair_ +:+ JS.dq
         +:+ ". Expected key=value" +:+ JS.nl.

(** [mpak config clear] with [key] clears the value of [key']. *)
Definition clears (key : option string) (key' : string) : bool :=
  if truthy_string key then bool_decide (key = Some key') else true.

(** A manager whose file holds the configuration that it holds in memory. *)
Definition saved (configFile : string) (c : ConfigManager.MpakConfig) : ConfigManager.t :=
  {| ConfigManager.configFile := configFile;
     ConfigManager.disk := ConfigManager.Parsed (ConfigManager.to_json c);
     ConfigManager.config := Some c |}.

(** The manager of [mpak config set] once the pairs are stored. *)
Definition manager_after_set (now packageName : string) (cm : ConfigManager.t) (c : ConfigManager.MpakConfig)
    (kvs : list (string * string)) : ConfigManager.t :=
  match kvs with
  | [] => cm
  | _ :: _ => saved (ConfigManager.configFile cm) (foldl (with_value now packageName) c kvs)
  end.


(** What [mpak config clear] answers. *)
Definition clear_report (packageName : string) (key : option string)
    (c : ConfigManager.MpakConfig) : string :=
  if truthy_string key then
    let key := from_option id "" key in
    if bool_decide (is_Some (stored_value c packageName key))
    then "Cleared " +:+ key +:+ " for " +:+ packageName
    else "No value found for " +:+ key +:+ " in " +:+ packageName
  else
    if bool_decide (is_Some (ConfigManager.packages c ≫= (.!! packageName)))
    then "Cleared all config for " +:+ packageName
    else "No config found for " +:+ packageName.

(** ** Vocabulary of the pull *)

(** Where a run downloads the bundle to. *)
Definition temp_path (h : Host) : string :=
  Path.join [homedir h; ".mpak"; "tmp"; Date_now h +:+ ".mcpb"].

(** The events of a pull up to the download. *)
Definition download_events (h : Host) (name : string) (requestedVersion : option string)
    (info : DownloadInfo) : list Event :=
  [GetDownloadInfo name requestedVersion (detectPlatform h);
   MkdirSync (Path.dirname (temp_path h));
   Stderr ("=> Pulling " +:+ name +:+ "@" +:+ bundle_version (bundle info)
             +:+ "..." +:+ JS.nl);
   DownloadBundle (url info) (temp_path h)].

(** The events of a pull from the download to the extraction. *)
Definition extract_events (h : Host) (cacheDir : string) : list Event :=
  (if existsSync_dir h cacheDir then [RmSync cacheDir] else [])
  ++ [MkdirSync cacheDir; MkdirSync cacheDir; Unzip (temp_path h) cacheDir].

(** [h] with another file of metadata, another answer of the registry and
    other results of the download and of [unzip]. *)
Definition host_with (h : Host) (meta : MetaFile) (registry : string + DownloadInfo)
    (download extraction : option string) : Host :=
  {| homedir := homedir h;
     process_env := process_env h;
     stdin_isTTY := stdin_isTTY h;
     Date_now := Date_now h;
     Date_toISOString := Date_toISOString h;
     detectPlatform := detectPlatform h;
     meta_file := λ _, meta;
     existsSync_dir := existsSync_dir h;
     getDownloadInfo := λ _ _ _, registry;
     downloadBundle := λ _ _, download;
     unzip := λ _ _, extraction;
     bundle_manifest := bundle_manifest h;
     python3_works := python3_works h;
     child_end := child_end h |}.

(** An answer of the registry. *)
Definition example_info (resolved : string) : DownloadInfo :=
  {| url := "https://registry.example/@acme/tool";
     bundle := {| bundle_version := resolved; bundle_platform := example_platform |} |}.

(** ** Vocabulary of the launch *)

(** How a run ends once the child is spawned, and what it still writes. *)
Definition child_outcome (h : Host) : Outcome () * list Event :=
  match child_end h with
  | ChildExit code => (Exited (from_option id 0 code), [])
  | ChildError message =>
      (Exited 1, [Stderr ("=> Failed to start server: " +:+ message +:+ JS.nl)])
  | ChildRunning => (Returned (), [])
  end.

(** The [PYTHONPATH] of a python server: the [deps] directory of the cache,
    and the ambient [PYTHONPATH] after it when it is not empty. *)
Definition python_path (h : Host) (cacheDir : string) : string :=
  let depsDir := Path.join [cacheDir; "deps"] in
  match process_env h !! "PYTHONPATH" with
  | Some existing => if decide (existing = "") then depsDir else depsDir +:+ ":" +:+ existing
  | None => depsDir
  end.

(** A server type that [handleRun] knows. *)
Definition supported_type (type : string) : Prop :=
  type = "binary" ∨ type = "node" ∨ type = "python".

(** ** Vocabulary of the prompts *)

(** What the prompts call a field: its title, or its key. *)
Definition field_label (key : string) (field : UserConfigField) : string :=
  if truthy_string (title field) then from_option id "" (title field) else key.

(** What a field without a default is asked with: a note for a sensitive
    field, then the question. *)
Definition prompt_events (key : string) (field : UserConfigField) : list Event :=
  (if truthy_bool (sensitive field)
   then [Stderr ("=> (sensitive input)" +:+ JS.nl)] else [])
  ++ [Question ("=> " +:+ field_label key field
                  +:+ (if truthy_string (description field)
                       then " (" +:+ from_option id "" (description field) +:+ ")"
                       else "")
                  +:+ ": ")].

(** The answer to the offer to save a value declines it. *)
Definition declines (answer : string) : bool :=
  bool_decide (JS.toLowerCase answer = "n").

(** [h] at a terminal. *)
Definition at_terminal (h : Host) : Host :=
  {| homedir := homedir h;
     process_env := process_env h;
     stdin_isTTY := true;
     Date_now := Date_now h;
     Date_toISOString := Date_toISOString h;
     detectPlatform := detectPlatform h;
     meta_file := meta_file h;
     existsSync_dir := existsSync_dir h;
     getDownloadInfo := getDownloadInfo h;
     downloadBundle := downloadBundle h;
     unzip := unzip h;
     bundle_manifest := bundle_manifest h;
     python3_works := python3_works h;
     child_end := child_end h |}.
(** * Facts about the string primitives *)

Module JSFacts.
Import JS.

Lemma app_nil_l (s : string) : "" +:+ s = s.
Proof. reflexivity. Qed.

Lemma app_cons (c : ascii) (s t : string) :
  String c s +:+ t = String c (s +:+ t).
Proof. reflexivity. Qed.

Lemma app_nil_r (s : string) : s +:+ "" = s.
Proof. induction s as [|c s IH]; [done|]. by rewrite app_cons, IH. Qed.

Lemma app_assoc (s t u : string) : (s +:+ t) +:+ u = s +:+ t +:+ u.
Proof. induction s as [|c s IH]; [done|]. by rewrite !app_cons, IH. Qed.

Lemma app_length (s t : string) :
  String.length (s +:+ t) = (String.length s + String.length t)%nat.
Proof. induction s as [|c s IH]; [done|]. rewrite app_cons. simpl. by rewrite IH. Qed.

Lemma includes_app (c : ascii) (s t : string) :
  includes c (s +:+ t) = includes c s || includes c t.
Proof.
  induction s as [|a s IH]; [done|]. rewrite app_cons. simpl.
  by destruct (decide (a = c)).
Qed.

Lemma take_app_length (s t : string) : take (String.length s) (s +:+ t) = s.
Proof. induction s as [|a s IH]; [by destruct t|]. rewrite app_cons. simpl. by rewrite IH. Qed.

Lemma drop_app_length (s t : string) : drop (String.length s) (s +:+ t) = t.
Proof. induction s as [|a s IH]; [done|]. by rewrite app_cons. Qed.

Lemma lastIndexOf_from_absent (c : ascii) (s : string) :
  includes c s = false → lastIndexOf_from c s = None.
Proof.
  induction s as [|a s IH]; [done|]. simpl.
  destruct (decide (a = c)); [done|]. intros H. by rewrite IH.
Qed.

Lemma lastIndexOf_from_present (c : ascii) (s : string) :
  includes c s = true → is_Some (lastIndexOf_from c s).
Proof.
  induction s as [|a s IH]; [done|]. simpl.
  destruct (lastIndexOf_from c s); [eauto|].
  destruct (decide (a = c)); [eauto|]. intros H. by destruct (IH H).
Qed.

(** The last occurrence of [c] in [s ++ c ++ t] when [t] has none. *)
Lemma lastIndexOf_from_app (c : ascii) (s t : string) :
  includes c t = false →
  lastIndexOf_from c (s +:+ String c t) = Some (String.length s).
Proof.
  intros Ht. induction s as [|a s IH].
  - rewrite app_nil_l. simpl. rewrite (lastIndexOf_from_absent _ _ Ht).
    by rewrite decide_True.
  - rewrite app_cons. simpl. by rewrite IH.
Qed.

Lemma lastIndexOf_from_lt (c : ascii) (s : string) (i : nat) :
  lastIndexOf_from c s = Some i → (i < String.length s)%nat.
Proof.
  revert i. induction s as [|a s IH]; intros i; [done|]. simpl.
  destruct (lastIndexOf_from c s) as [j|].
  - intros [= <-]. specialize (IH j eq_refl). lia.
  - destruct (decide (a = c)); [|done]. intros [= <-]. lia.
Qed.

(** What [lastIndexOf] finds splits the string around the last [c]. *)
Lemma lastIndexOf_from_split (c : ascii) (s : string) (i : nat) :
  lastIndexOf_from c s = Some i →
  s = take i s +:+ String c (drop (S i) s) ∧ includes c (drop (S i) s) = false.
Proof.
  revert i. induction s as [|a s IH]; intros i; [done|]. simpl.
  destruct (lastIndexOf_from c s) as [j|] eqn:E.
  - intros [= <-]. destruct (IH j eq_refl) as [H1 H2]. split; [|done].
    change (String a s = String a (take j s) +:+ String c (drop (S j) s)).
    rewrite app_cons. f_equal. exact H1.
  - destruct (decide (a = c)) as [->|]; [|done]. intros [= <-]. split; [done|].
    simpl. destruct (includes c s) eqn:Hi; [|done].
    destruct (lastIndexOf_from_present _ _ Hi) as [? ?]. congruence.
Qed.

Lemma replace_absent (c : ascii) (r s : string) :
  includes c s = false → replace c r s = s.
Proof.
  induction s as [|a s IH]; [done|]. simpl.
  destruct (decide (a = c)); [done|]. intros H. by rewrite IH.
Qed.

Lemma replace_app (c : ascii) (r s t : string) :
  includes c s = false → replace c r (s +:+ String c t) = s +:+ r +:+ t.
Proof.
  induction s as [|a s IH]; simpl.
  - intros _. rewrite !app_nil_l. simpl. by rewrite decide_True.
  - destruct (decide (a = c)); [done|]. intros H. rewrite !app_cons. simpl.
    by rewrite IH.
Qed.

(** A separator that occurs in neither left part determines the split. *)
Lemma app_sep_inj (c : ascii) (s1 s2 t1 t2 : string) :
  includes c s1 = false → includes c s2 = false →
  s1 +:+ String c t1 = s2 +:+ String c t2 → s1 = s2 ∧ t1 = t2.
Proof.
  revert s2. induction s1 as [|a s1 IH]; intros [|b s2]; simpl.
  - intros _ _. rewrite !app_nil_l. by intros [= ->].
  - rewrite app_nil_l, app_cons. destruct (decide (b = c)); [done|].
    intros _ _ [= ? ?]. congruence.
  - rewrite app_nil_l, app_cons. destruct (decide (a = c)); [done|].
    intros _ _ [= ? ?]. congruence.
  - rewrite !app_cons. destruct (decide (a = c)); [done|].
    destruct (decide (b = c)); [done|]. intros H1 H2 [= -> H].
    destruct (IH _ H1 H2 H) as [-> ->]. done.
Qed.

Lemma app_inv_head (s t u : string) : s +:+ t = s +:+ u → t = u.
Proof.
  induction s as [|a s IH]; [by rewrite !app_nil_l|].
  rewrite !app_cons. intros [= H]. auto.
Qed.

(** Two strings cut at a separator are the same string in three ways: the
    cuts agree, or the separator of one falls in the second part of the
    other. *)
Lemma app_sep_cases (c : ascii) (s1 s2 t1 t2 : string) :
  s1 +:+ String c t1 = s2 +:+ String c t2 →
  (s1 = s2 ∧ t1 = t2)
  ∨ (∃ x, s2 = s1 +:+ String c x ∧ t1 = x +:+ String c t2)
  ∨ (∃ x, s1 = s2 +:+ String c x ∧ t2 = x +:+ String c t1).
Proof.
  revert s2. induction s1 as [|a s1 IH]; intros [|b s2].
  - rewrite !app_nil_l. intros [= ->]. by left.
  - rewrite app_nil_l, app_cons. intros [= <- ->]. right; left. exists s2.
    by rewrite app_nil_l.
  - rewrite app_nil_l, app_cons. intros [= -> <-]. right; right. exists s1.
    by rewrite app_nil_l.
  - rewrite !app_cons. intros [= -> H].
    destruct (IH _ H) as [[-> ->]|[(x & -> & ->)|(x & -> & ->)]].
    + by left.
    + right; left. exists x. by rewrite app_cons.
    + right; right. exists x. by rewrite app_cons.
Qed.

End JSFacts.

(** * Facts about [path.join] *)

Module PathFacts.
Import Path.

Lemma split_nonempty (s : string) : split s ≠ [].
Proof.
  induction s as [|a s IH]; [done|]. simpl.
  destruct (decide (a = "/"%char)); [done|]. by destruct (split s).
Qed.

Lemma split_app (s t : string) :
  split (s +:+ String "/" t) = split s ++ split t.
Proof.
  induction s as [|a s IH]; [done|]. rewrite JSFacts.app_cons. simpl.
  destruct (decide (a = "/"%char)); [by rewrite IH|].
  rewrite IH. destruct (split s) eqn:E; [by apply split_nonempty in E|done].
Qed.

Lemma split_plain (s : string) : JS.includes "/" s = false → split s = [s].
Proof.
  induction s as [|a s IH]; [done|]. simpl.
  destruct (decide (a = "/"%char)); [done|]. intros H. by rewrite IH.
Qed.

Lemma step_plain (allow : bool) (res : list string) (seg : string) :
  plain_segment seg → step allow res seg = seg :: res.
Proof.
  intros (? & ? & ? & _). unfold step.
  rewrite decide_False by tauto. by rewrite decide_False.
Qed.

Lemma join_snoc (ps : list string) (p : string) :
  JS.join "/" (ps ++ [p]) =
    (match ps with [] => "" | _ => JS.join "/" ps +:+ "/" end) +:+ p.
Proof.
  induction ps as [|q ps IH]; [done|].
  destruct ps as [|q' ps]; [simpl; by rewrite JSFacts.app_assoc|].
  change (JS.join "/" ((q :: q' :: ps) ++ [p]))
    with (q +:+ "/" +:+ JS.join "/" ((q' :: ps) ++ [p])).
  rewrite IH.
  change (JS.join "/" (q :: q' :: ps)) with (q +:+ "/" +:+ JS.join "/" (q' :: ps)).
  by rewrite !JSFacts.app_assoc.
Qed.

Lemma endsWithSlash_app (s t : string) :
  t ≠ "" → endsWithSlash (s +:+ t) = endsWithSlash t.
Proof.
  intros Ht. induction s as [|a s IH]; [done|]. rewrite JSFacts.app_cons.
  simpl. destruct (s +:+ t) eqn:E; [|done].
  destruct s; [|done]. by rewrite JSFacts.app_nil_l in E.
Qed.

Lemma endsWithSlash_plain (s : string) :
  JS.includes "/" s = false → endsWithSlash s = false.
Proof.
  induction s as [|a s IH]; [done|]. simpl.
  destruct (decide (a = "/"%char)); [done|]. intros H.
  destruct s; [by rewrite bool_decide_eq_false|]. by apply IH.
Qed.

Lemma app_eq_nil (s t : string) : s +:+ t = "" → s = "" ∧ t = "".
Proof. destruct s; [by rewrite JSFacts.app_nil_l|by rewrite JSFacts.app_cons]. Qed.

Lemma startsWith_app (s t : string) (p : ascii) :
  s ≠ "" → JS.startsWith (s +:+ t) (String p "") = JS.startsWith s (String p "").
Proof.
  destruct s as [|a s]; [done|]. intros _. rewrite JSFacts.app_cons.
  change (JS.startsWith (String a (s +:+ t)) (String p ""))
    with (if decide (p = a) then true else false).
  done.
Qed.

(** Under a fixed non-empty base, [normalize] appends a plain last segment
    to a prefix that depends on the base alone. *)
Lemma normalize_plain_last (base : string) :
  base ≠ "" →
  ∃ pre, ∀ seg, plain_segment seg →
    normalize (base +:+ "/" +:+ seg) = pre +:+ seg.
Proof.
  intros Hb.
  set (stack := foldl (step (negb (JS.startsWith base "/"))) [] (split base)).
  exists ((if JS.startsWith base "/" then "/" else "") +:+
          (match rev stack with [] => "" | _ => JS.join "/" (rev stack) +:+ "/" end)).
  intros seg Hseg. pose proof Hseg as (Hne & _ & _ & Hsl).
  unfold normalize.
  rewrite decide_False by (intros [? _]%app_eq_nil; done).
  rewrite startsWith_app by done.
  change ("/" +:+ seg) with (String "/" seg).
  assert (normalizeString (base +:+ String "/" seg) (negb (JS.startsWith base "/"))
          = (match rev stack with [] => "" | _ => JS.join "/" (rev stack) +:+ "/" end)
              +:+ seg) as ->.
  { unfold normalizeString. rewrite split_app, (split_plain _ Hsl), foldl_app.
    simpl. fold stack. rewrite (step_plain _ _ _ Hseg). simpl.
    apply join_snoc. }
  rewrite decide_False; last first.
  { intros [_ ?]%app_eq_nil. done. }
  rewrite (endsWithSlash_app base (String "/" seg)) by done.
  assert (endsWithSlash (String "/" seg) = false) as ->.
  { destruct seg as [|a seg]; [done|].
    change (endsWithSlash (String a seg) = false). by apply endsWithSlash_plain. }
  destruct (JS.startsWith base "/"); [|done].
  by rewrite JSFacts.app_assoc.
Qed.

Lemma normalize_nonempty (path : string) : normalize path ≠ "".
Proof.
  unfold normalize. destruct (decide (path = "")); [done|].
  destruct (decide (normalizeString _ _ = "")) as [|Hn].
  - by destruct (JS.startsWith path "/"), (endsWithSlash path).
  - destruct (JS.startsWith path "/"); [done|].
    destruct (endsWithSlash path); [|done].
    intros [? _]%app_eq_nil. done.
Qed.

Lemma join_nonempty (args : list string) : join args ≠ "".
Proof.
  unfold join. destruct (filter _ args); [done|]. apply normalize_nonempty.
Qed.

(** Joining a base with a plain segment is injective in the segment. *)
Lemma join_plain_inj (base seg1 seg2 : string) :
  base ≠ "" → plain_segment seg1 → plain_segment seg2 →
  join [base; seg1] = join [base; seg2] → seg1 = seg2.
Proof.
  intros Hb H1 H2. destruct (normalize_plain_last base Hb) as [pre Hpre].
  assert (∀ seg, plain_segment seg → join [base; seg] = pre +:+ seg) as Hj.
  { intros seg Hs. unfold join. rewrite !filter_cons, filter_nil.
    rewrite decide_True by done. rewrite decide_True by apply Hs.
    simpl. by apply Hpre. }
  rewrite (Hj _ H1), (Hj _ H2). apply (inj (String.app pre)).
Qed.

End PathFacts.

(** * Facts about the global replace *)

Module RegExpFacts.
Import RegExp.

Section Replace.
Context {G : Type}.
Variable matcher : string → option (string * G * string).
Variable replacer : string → G → string → string → string.
Hypothesis matcher_shrinks : ∀ s text g rest,
  matcher s = Some (text, g, rest) → (String.length rest < String.length s)%nat.

Lemma replace_go_fuel (n m : nat) (before s : string) :
  (String.length s < n)%nat → (String.length s < m)%nat →
  replace_go matcher replacer n before s = replace_go matcher replacer m before s.
Proof.
  revert m before s. induction n as [|n IH]; intros [|m] before s Hn Hm; try lia.
  simpl. destruct (matcher s) as [[[text g] rest]|] eqn:E.
  - apply matcher_shrinks in E. f_equal. apply IH; lia.
  - destruct s as [|a s]; [done|]. simpl in *. f_equal. apply IH; lia.
Qed.

Lemma replace_from_unfold (before s : string) :
  replace_from matcher replacer before s =
    match matcher s with
    | Some (text, g, rest) =>
        replacer text g before rest
          +:+ replace_from matcher replacer (before +:+ text) rest
    | None =>
        match s with
        | "" => ""
        | String a s' =>
            String a (replace_from matcher replacer (before +:+ String a "") s')
        end
    end.
Proof.
  unfold replace_from at 1. simpl.
  destruct (matcher s) as [[[text g] rest]|] eqn:E.
  - apply matcher_shrinks in E. f_equal. apply replace_go_fuel; lia.
  - by destruct s.
Qed.

Lemma replace_go_before (n : nat) (before before' s : string) :
  (∀ text g b b' rest, replacer text g b rest = replacer text g b' rest) →
  replace_go matcher replacer n before s = replace_go matcher replacer n before' s.
Proof.
  intros Hign. revert before before' s.
  induction n as [|n IH]; intros before before' s; [done|]. simpl.
  destruct (matcher s) as [[[text g] rest]|].
  - rewrite (Hign text g before before'). f_equal. apply IH.
  - destruct s; [done|]. f_equal. apply IH.
Qed.

End Replace.

Lemma strip_prefix_Some (p s r : string) :
  strip_prefix p s = Some r ↔ s = p +:+ r.
Proof.
  revert s. induction p as [|a p IH]; intros s; simpl.
  - rewrite JSFacts.app_nil_l. split; [by intros [= ->]|by intros ->].
  - destruct s as [|b s]; [by rewrite JSFacts.app_cons|].
    rewrite JSFacts.app_cons. destruct (decide (a = b)) as [->|].
    + rewrite IH. split; [by intros ->|by intros [= ->]].
    + split; [done|]. intros [= ? ?]. congruence.
Qed.

Lemma span_not_spec (c : ascii) (s k r : string) :
  span_not c s = (k, r) ↔
  s = k +:+ r ∧ JS.includes c k = false ∧ (r = "" ∨ ∃ r', r = String c r').
Proof.
  revert k r. induction s as [|a s IH]; intros k r; simpl.
  - split.
    + intros [= <- <-]. auto.
    + intros (H & _ & _). symmetry in H. apply PathFacts.app_eq_nil in H as [-> ->]. done.
  - destruct (decide (a = c)) as [->|Hac].
    + split.
      * intros [= <- <-]. rewrite JSFacts.app_nil_l. eauto.
      * intros (H & Hk & Hr). destruct k as [|b k].
        { rewrite JSFacts.app_nil_l in H. by subst. }
        rewrite JSFacts.app_cons in H. injection H as <- _. simpl in Hk.
        by rewrite decide_True in Hk.
    + destruct (span_not c s) as [k' r']. split.
      * intros [= <- <-]. destruct (IH k' r') as [(-> & Hk & Hr) _]; [done|].
        rewrite JSFacts.app_cons. simpl. by rewrite decide_False.
      * intros (H & Hk & Hr). destruct k as [|b k].
        { rewrite JSFacts.app_nil_l in H. subst r.
          destruct Hr as [|[? [= ? ?]]]; done. }
        rewrite JSFacts.app_cons in H. injection H as <- H. simpl in Hk.
        rewrite decide_False in Hk by done.
        assert ((k', r') = (k, r)) as [= -> ->]; [|done].
        by apply IH.
Qed.

End RegExpFacts.

(** * Objects *)

Module ObjFacts.
Import Obj.

Lemma get_own (obj : gmap string string) (key value : string) :
  obj !! key = Some value → get obj key = Some value.
Proof. unfold get. by intros ->. Qed.

Lemma get_own_name (obj : gmap string string) (key : string) :
  own_name key → get obj key = obj !! key.
Proof. unfold own_name, get. intros ->. by destruct (obj !! key). Qed.

Lemma get_inherited (obj : gmap string string) (key : string) :
  obj !! key = None → get obj key = prototype key.
Proof. unfold get. by intros ->. Qed.

Lemma get_None (obj : gmap string string) (key : string) :
  get obj key = None ↔ obj !! key = None ∧ own_name key.
Proof.
  unfold own_name, get. destruct (obj !! key); [|tauto].
  split; [done|]. by intros [? _].
Qed.

Lemma own_name_proto (key : string) : own_name key → key ≠ "__proto__".
Proof. by intros H ->. Qed.

Lemma set_ne (obj : gmap string string) (key value : string) :
  key ≠ "__proto__" → set obj key value = <[key := value]> obj.
Proof. intros Hne. unfold set. rewrite decide_False; [done|]. by intros [? _]. Qed.

Lemma set_proto (obj : gmap string string) (value : string) :
  obj !! "__proto__" = None → set obj "__proto__" value = obj.
Proof. intros Hn. unfold set. by rewrite decide_True. Qed.

Lemma lookup_set_ne (obj : gmap string string) (key value k : string) :
  k ≠ key → set obj key value !! k = obj !! k.
Proof.
  intros Hne. unfold set. case_decide; [done|]. by rewrite lookup_insert_ne.
Qed.

Lemma lookup_set_eq (obj : gmap string string) (key value : string) :
  key ≠ "__proto__" → set obj key value !! key = Some value.
Proof. intros Hne. by rewrite set_ne, lookup_insert_eq. Qed.

(** An object that is only written by assignment gets no [__proto__]
    property of its own. *)
Lemma lookup_set_proto (obj : gmap string string) (key value : string) :
  obj !! "__proto__" = None → set obj key value !! "__proto__" = None.
Proof.
  intros Hn. destruct (decide (key = "__proto__")) as [->|Hne].
  - by rewrite set_proto.
  - by rewrite lookup_set_ne.
Qed.

End ObjFacts.

(** * Placeholder substitution *)

Section Substitution.
Import RegExp.

Lemma user_config_ref_app (key rest : string) :
  user_config_ref key +:+ rest = user_config_open +:+ key +:+ String "}" rest.
Proof. unfold user_config_ref. by rewrite !JSFacts.app_assoc. Qed.

(** The matcher finds exactly the references of the specification. *)
Lemma match_user_config_spec (s text key rest : string) :
  match_user_config s = Some (text, key, rest) ↔
  valid_key key ∧ s = user_config_ref key +:+ rest ∧ text = user_config_ref key.
Proof.
  unfold match_user_config, valid_key. split.
  - destruct (strip_prefix user_config_open s) as [s1|] eqn:E1; [|done].
    apply RegExpFacts.strip_prefix_Some in E1 as ->.
    destruct (span_not "}" s1) as [k r] eqn:E2.
    destruct k as [|a k]; [done|]. destruct r as [|b r]; [done|].
    intros [= <- <- <-].
    apply RegExpFacts.span_not_spec in E2 as (-> & Hk & [|[r' [= -> ->]]]); [done|].
    by rewrite user_config_ref_app.
  - intros ((Hne & Hk) & -> & ->). rewrite user_config_ref_app.
    assert (strip_prefix user_config_open
              (user_config_open +:+ key +:+ String "}" rest)
            = Some (key +:+ String "}" rest)) as ->.
    { by apply RegExpFacts.strip_prefix_Some. }
    assert (span_not "}" (key +:+ String "}" rest) = (key, String "}" rest)) as ->.
    { apply RegExpFacts.span_not_spec. eauto. }
    by destruct key.
Qed.

Lemma match_user_config_shrinks (s text key rest : string) :
  match_user_config s = Some (text, key, rest) →
  (String.length rest < String.length s)%nat.
Proof.
  intros (_ & -> & _)%match_user_config_spec.
  rewrite user_config_ref_app, !JSFacts.app_length. simpl. lia.
Qed.

Lemma match_user_config_None (s : string) :
  match_user_config s = None ↔ ¬ starts_with_reference s.
Proof.
  split.
  - intros Hn (key & rest & Hk & ->).
    assert (match_user_config (user_config_ref key +:+ rest)
            = Some (user_config_ref key, key, rest)) as E
      by (by apply match_user_config_spec).
    congruence.
  - intros Hn. destruct (match_user_config s) as [[[text key] rest]|] eqn:E; [|done].
    apply match_user_config_spec in E as (? & -> & _). destruct Hn.
    by exists key, rest.
Qed.

Lemma substituteUserConfig_nil (m : gmap string string) :
  substituteUserConfig "" m = "".
Proof. reflexivity. Qed.

(** At a reference the value of its key is emitted, or the reference itself
    when the key has none, and the scan goes on after the reference. *)
Lemma substituteUserConfig_ref (key post : string) (m : gmap string string) :
  valid_key key →
  substituteUserConfig (user_config_ref key +:+ post) m =
    from_option id (user_config_ref key) (Obj.get m key) +:+ substituteUserConfig post m.
Proof.
  intros Hk. unfold substituteUserConfig, replace.
  rewrite RegExpFacts.replace_from_unfold by apply match_user_config_shrinks.
  assert (match_user_config (user_config_ref key +:+ post)
          = Some (user_config_ref key, key, post)) as ->
    by (by apply match_user_config_spec).
  f_equal. unfold replace_from. by apply RegExpFacts.replace_go_before.
Qed.

(** Elsewhere one character is copied. *)
Lemma substituteUserConfig_char (a : ascii) (s : string) (m : gmap string string) :
  ¬ starts_with_reference (String a s) →
  substituteUserConfig (String a s) m = String a (substituteUserConfig s m).
Proof.
  intros Hn%match_user_config_None. unfold substituteUserConfig, replace.
  rewrite RegExpFacts.replace_from_unfold by apply match_user_config_shrinks.
  rewrite Hn. f_equal. unfold replace_from. by apply RegExpFacts.replace_go_before.
Qed.

Lemma substituteUserConfig_prefix (pre rest : string) (m : gmap string string) :
  reference_free_prefix pre rest →
  substituteUserConfig (pre +:+ rest) m = pre +:+ substituteUserConfig rest m.
Proof.
  induction pre as [|a pre IH]; intros Hfree; [done|].
  rewrite !JSFacts.app_cons. rewrite substituteUserConfig_char.
  - f_equal. apply IH. intros p1 p2 -> Hp2.
    by apply (Hfree (String a p1) p2).
  - rewrite <- JSFacts.app_cons. by apply (Hfree "" (String a pre)).
Qed.

Lemma substituteUserConfig_no_placeholder (s : string) (m : gmap string string) :
  ¬ has_placeholder s → substituteUserConfig s m = s.
Proof.
  intros Hn. rewrite <- (JSFacts.app_nil_r s) at 1.
  rewrite substituteUserConfig_prefix; [by rewrite substituteUserConfig_nil, JSFacts.app_nil_r|].
  intros p1 p2 -> _ Href. apply Hn. exists p1, p2. split; [done|].
  by rewrite JSFacts.app_nil_r in Href.
Qed.

(** A prefix without a dollar sign starts no reference. *)
Lemma reference_free_prefix_no_dollar (pre rest : string) :
  JS.includes "$" pre = false → reference_free_prefix pre rest.
Proof.
  intros Hd p1 p2 -> Hp2 (key & r & _ & Heq).
  rewrite JSFacts.includes_app in Hd. apply orb_false_elim in Hd as [_ Hd].
  destruct p2 as [|a p2]; [done|].
  rewrite JSFacts.app_cons in Heq. injection Heq as -> _. done.
Qed.

(** The environment map of the manifest, substituted: every entry but one
    under the key [__proto__], which the assignment to the result drops. *)
Lemma substituteEnvVars_fmap (env : gmap string string) (m : gmap string string) :
  substituteEnvVars (Some env) m
    = (λ value, substituteUserConfig value m) <$> delete "__proto__" env.
Proof.
  unfold substituteEnvVars.
  apply (map_fold_weak_ind
           (λ r e, r = (λ value, substituteUserConfig value m) <$> delete "__proto__" e)).
  - by rewrite delete_empty, fmap_empty.
  - intros i x e r Hi ->. destruct (decide (i = "__proto__")) as [->|Hne].
    + rewrite ObjFacts.set_proto by (by rewrite lookup_fmap, lookup_delete_eq).
      by rewrite delete_insert_eq.
    + rewrite ObjFacts.set_ne by done.
      by rewrite delete_insert_ne, fmap_insert.
Qed.

End Substitution.

(** * Package specifications *)

Section PackageSpecs.

Lemma startsWith_char (s : string) (c : ascii) :
  JS.startsWith s (String c "") = true ↔ ∃ s', s = String c s'.
Proof.
  destruct s as [|a s]; [by split; [|intros [? ?]]|].
  change (JS.startsWith (String a s) (String c ""))
    with (if decide (c = a) then true else false).
  destruct (decide (c = a)) as [->|]; split; eauto; [done|].
  intros [? [= ? ?]]. congruence.
Qed.

Lemma startsWith_take (s : string) (c : ascii) (i : nat) :
  (0 < i)%nat →
  JS.startsWith (JS.take i s) (String c "") = JS.startsWith s (String c "").
Proof.
  intros Hi. destruct i as [|i]; [lia|]. by destruct s.
Qed.

(** The split is at the last [@] when the part before it starts with [@]. *)
Lemma parsePackageSpec_split (name version : string) :
  JS.startsWith name "@" = true → JS.includes "@" version = false →
  parsePackageSpec (name +:+ "@" +:+ version)
    = {| spec_name := name; spec_version := Some version |}.
Proof.
  intros Hn Hv.
  assert (0 < String.length name)%nat as Hlen.
  { apply startsWith_char in Hn as [n' ->]. simpl. lia. }
  unfold parsePackageSpec, JS.lastIndexOf.
  change ("@" +:+ version) with (String "@" version).
  rewrite (JSFacts.lastIndexOf_from_app _ _ _ Hv).
  assert ((Z.of_nat (String.length name) <=? 0) = false) as -> by (apply Z.leb_gt; lia).
  unfold JS.substring2, JS.substring1.
  rewrite Z.min_l, Z.max_r by lia. rewrite Nat2Z.id.
  change (Z.to_nat 0) with 0%nat. rewrite Nat.sub_0_r.
  change (JS.drop 0 ?s) with s.
  replace (Z.to_nat (Z.of_nat (String.length name) + 1))
    with (String.length (name +:+ "@")) by (rewrite JSFacts.app_length; simpl; lia).
  rewrite JSFacts.take_app_length, Hn. simpl negb. cbv iota.
  do 2 f_equal.
  change (String "@" version) with ("@" +:+ version).
  rewrite <- JSFacts.app_assoc. apply JSFacts.drop_app_length.
Qed.

(** Without an [@] after the first character, or without a leading [@], the
    whole input is the name. *)
Lemma parsePackageSpec_whole (spec : string) :
  spec_version (parsePackageSpec spec) = None ↔
  JS.lastIndexOf "@" spec ≤ 0 ∨ JS.startsWith spec "@" = false.
Proof.
  unfold parsePackageSpec, JS.lastIndexOf.
  destruct (JS.lastIndexOf_from "@" spec) as [i|] eqn:E.
  - destruct (Z.leb_spec (Z.of_nat i) 0) as [Hle|Hgt]; [simpl; split; auto|].
    unfold JS.substring2. rewrite Z.min_l, Z.max_r by lia.
    rewrite Nat2Z.id. change (Z.to_nat 0) with 0%nat. rewrite Nat.sub_0_r.
    change (JS.drop 0 ?s) with s.
    rewrite startsWith_take by lia.
    destruct (JS.startsWith spec "@"); simpl; split; auto; try done.
    intros [?|?]; [lia|done].
  - simpl. split; [|done]. intros _. left. lia.
Qed.

Lemma parsePackageSpec_name_whole (spec : string) :
  spec_version (parsePackageSpec spec) = None →
  parsePackageSpec spec = {| spec_name := spec; spec_version := None |}.
Proof.
  unfold parsePackageSpec.
  destruct (_ <=? 0); [done|]. by destruct (negb _).
Qed.

Lemma scoped_name_startsWith (scope nm : string) :
  JS.startsWith (scoped_name scope nm) "@" = true.
Proof. apply startsWith_char. unfold scoped_name. rewrite JSFacts.app_cons. eauto. Qed.

End PackageSpecs.

(** * Cache directories *)

Section CacheDirs.

Lemma safeName_scoped (scope nm : string) :
  name_part scope →
  JS.replace "/" "-" (JS.replace "@" "" (scoped_name scope nm)) = scope +:+ "-" +:+ nm.
Proof.
  intros (_ & _ & Hslash). unfold scoped_name. rewrite JSFacts.app_cons.
  change (JS.replace "@" "" (String "@" ("" +:+ scope +:+ "/" +:+ nm)))
    with ("" +:+ "" +:+ scope +:+ "/" +:+ nm).
  rewrite !JSFacts.app_nil_l.
  change ("/" +:+ nm) with (String "/" nm). by rewrite JSFacts.replace_app.
Qed.

Lemma safeName_plain (scope nm : string) :
  name_part scope → name_part nm → Path.plain_segment (scope +:+ "-" +:+ nm).
Proof.
  intros (Hs & _ & Hs') (_ & _ & Hn').
  assert (JS.includes "-" (scope +:+ "-" +:+ nm) = true) as Hdash.
  { rewrite JSFacts.includes_app. change ("-" +:+ nm) with (String "-" nm).
    simpl. apply orb_true_r. }
  repeat split.
  - intros [? _]%PathFacts.app_eq_nil. done.
  - intros E. by rewrite E in Hdash.
  - intros E. by rewrite E in Hdash.
  - rewrite JSFacts.includes_app, Hs'. change ("-" +:+ nm) with (String "-" nm).
    simpl. done.
Qed.

(** Two scoped names share a cache directory exactly when their scopes and
    names, glued with a hyphen, are the same string. *)
Lemma getCacheDir_scoped_eq (homedir scope1 nm1 scope2 nm2 : string) :
  name_part scope1 → name_part nm1 → name_part scope2 → name_part nm2 →
  getCacheDir homedir (scoped_name scope1 nm1)
    = getCacheDir homedir (scoped_name scope2 nm2)
  ↔ scope1 +:+ "-" +:+ nm1 = scope2 +:+ "-" +:+ nm2.
Proof.
  intros Hs1 Hn1 Hs2 Hn2. unfold getCacheDir.
  rewrite !safeName_scoped by done. split; [|by intros ->].
  apply PathFacts.join_plain_inj; auto using safeName_plain, PathFacts.join_nonempty.
Qed.

(** Two distinct scoped names share a cache directory exactly when one is a
    hyphen shift of the other. *)
Lemma getCacheDir_collide (homedir scope1 nm1 scope2 nm2 : string) :
  name_part scope1 → name_part nm1 → name_part scope2 → name_part nm2 →
  getCacheDir homedir (scoped_name scope1 nm1)
    = getCacheDir homedir (scoped_name scope2 nm2)
  ∧ scoped_name scope1 nm1 ≠ scoped_name scope2 nm2
  ↔ hyphen_shift scope1 nm1 scope2 nm2 ∨ hyphen_shift scope2 nm2 scope1 nm1.
Proof.
  intros Hs1 Hn1 Hs2 Hn2. rewrite getCacheDir_scoped_eq by done.
  assert (∀ s1 n1 s2 n2, hyphen_shift s1 n1 s2 n2 →
            s1 +:+ "-" +:+ n1 = s2 +:+ "-" +:+ n2
            ∧ scoped_name s1 n1 ≠ scoped_name s2 n2) as Hshift.
  { intros s1 n1 s2 n2 (x & -> & ->). split.
    - by rewrite !JSFacts.app_assoc.
    - unfold scoped_name. rewrite !JSFacts.app_assoc.
      intros H%JSFacts.app_inv_head%JSFacts.app_inv_head. discriminate. }
  split.
  - intros [Heq Hne].
    change ("-" +:+ nm1) with (String "-" nm1) in Heq.
    change ("-" +:+ nm2) with (String "-" nm2) in Heq.
    destruct (JSFacts.app_sep_cases _ _ _ _ _ Heq) as [[-> ->]|[H|H]]; [done|..].
    + left. exact H.
    + right. exact H.
  - intros [H|H]; apply Hshift in H as [H1 H2]; split; congruence.
Qed.

End CacheDirs.

(** * The effects of a run *)

Section Effects.

Lemma bind_Returned {A B : Type} (c : M A) (k : A → M B) (w w' : World) (a : A) :
  c w = (Returned a, w') → bind c k w = k a w'.
Proof. unfold bind. by intros ->. Qed.

Lemma bind_Exited {A B : Type} (c : M A) (k : A → M B) (w w' : World) (code : Z) :
  c w = (Exited code, w') → bind c k w = (Exited code, w').
Proof. unfold bind. by intros ->. Qed.

Lemma emit_after (e : Event) (w : World) : emit e w = (Returned (), after w [e]).
Proof. done. Qed.

Lemma bind_emit {B : Type} (e : Event) (k : unit → M B) (w : World) :
  bind (emit e) k w = k () (after w [e]).
Proof. done. Qed.

Lemma bind_ret {A B : Type} (a : A) (k : A → M B) (w : World) :
  bind (ret a) k w = k a w.
Proof. done. Qed.

Lemma bind_get_manifest_file {B : Type} (k : option McpbManifest → M B) (w : World) :
  bind get_manifest_file k w = k (manifest_file w) w.
Proof. done. Qed.

Lemma bind_set_manifest_file {B : Type} (m : option McpbManifest) (k : unit → M B)
    (w : World) :
  bind (set_manifest_file m) k w
    = k () {| trace := trace w; stdin := stdin w; manager := manager w;
              manifest_file := m |}.
Proof. done. Qed.

Lemma bind_bind {A B C : Type} (c : M A) (k : A → M B) (k' : B → M C) (w : World) :
  bind (bind c k) k' w = bind c (λ a, bind (k a) k') w.
Proof. unfold bind. by destruct (c w) as [[a|code|message|] w1]. Qed.

Lemma after_nil (w : World) : after w [] = w.
Proof. destruct w. unfold after. simpl. by rewrite app_nil_r. Qed.

Lemma after_after (w : World) (es1 es2 : list Event) :
  after (after w es1) es2 = after w (es1 ++ es2).
Proof. unfold after. simpl. by rewrite app_assoc. Qed.

Lemma emits_ret {A : Type} (P : Event → Prop) (a : A) : emits P (ret a).
Proof. intros w o w' [= <- <-]. exists []. by rewrite app_nil_r. Qed.

Lemma emits_exit {A : Type} (P : Event → Prop) (code : Z) : emits P (@exit A code).
Proof. intros w o w' [= <- <-]. exists []. by rewrite app_nil_r. Qed.

Lemma emits_throw {A : Type} (P : Event → Prop) (message : string) :
  emits P (@throw A message).
Proof. intros w o w' [= <- <-]. exists []. by rewrite app_nil_r. Qed.

Lemma emits_emit (P : Event → Prop) (e : Event) : P e → emits P (emit e).
Proof. intros He w o w' [= <- <-]. exists [e]. split; [done|]. by constructor. Qed.

Lemma emits_bind {A B : Type} (P : Event → Prop) (c : M A) (k : A → M B) :
  emits P c → (∀ a, emits P (k a)) → emits P (bind c k).
Proof.
  intros Hc Hk w o w'. unfold bind.
  destruct (c w) as [[a|code|message|] w1] eqn:E;
    destruct (Hc _ _ _ E) as (es1 & Ht1 & HP1).
  - intros E2. destruct (Hk a _ _ _ E2) as (es2 & Ht2 & HP2).
    exists (es1 ++ es2). rewrite Ht2, Ht1, app_assoc. split; [done|].
    by apply Forall_app.
  - intros [= <- <-]. eauto.
  - intros [= <- <-]. eauto.
  - intros [= <- <-]. eauto.
Qed.

Lemma emits_question (P : Event → Prop) (prompt : string) :
  P (Question prompt) → emits P (question prompt).
Proof.
  intros HP. apply emits_bind; [by apply emits_emit|].
  intros _ w o w'. destruct (stdin w); intros [= <- <-]; exists []; by rewrite app_nil_r.
Qed.

Lemma emits_with_manager {A : Type} (P : Event → Prop)
    (method : ConfigManager.t → (ConfigManager.ConfigCorruptedError + A) * ConfigManager.t) :
  emits P (with_manager method).
Proof.
  intros w o w'. unfold with_manager. destruct (method (manager w)) as [[e|a] cm];
    intros [= <- <-]; exists []; by rewrite app_nil_r.
Qed.

Lemma emits_new_ConfigManager (P : Event → Prop) (h : Host) :
  emits P (new_ConfigManager h).
Proof. intros w o w' [= <- <-]. exists []. by rewrite app_nil_r. Qed.

Lemma emits_set_manifest_file (P : Event → Prop) (m : option McpbManifest) :
  emits P (set_manifest_file m).
Proof. intros w o w' [= <- <-]. exists []. by rewrite app_nil_r. Qed.

Lemma emits_get_manifest_file (P : Event → Prop) : emits P get_manifest_file.
Proof. intros w o w' [= <- <-]. exists []. by rewrite app_nil_r. Qed.

End Effects.

(** One step of a run whose next effect is known. *)
Ltac run_step :=
  first [ rewrite bind_bind | rewrite bind_emit | rewrite bind_ret
        | rewrite bind_get_manifest_file | rewrite bind_set_manifest_file ].

Create HintDb emits.

#[local] Hint Resolve emits_ret emits_exit emits_throw emits_emit emits_question
  emits_with_manager emits_new_ConfigManager emits_set_manifest_file
  emits_get_manifest_file : emits.

(** Splits a goal [emits P c] along the binds and the case analyses of [c]. *)
Ltac emits_step :=
  match goal with
  | |- emits _ (bind _ _) => apply emits_bind; [|intros ?]
  | |- emits _ (if ?b then _ else _) => destruct b
  | |- emits _ (match ?x with _ => _ end) => destruct x
  | |- emits _ _ => solve [eauto with emits]
  end.

Section EffectsOfTheRun.

Variable P : Event → Prop.
Hypothesis P_Stderr : ∀ text, P (Stderr text).
Hypothesis P_Question : ∀ prompt, P (Question prompt).

Lemma emits_promptForValue (field : UserConfigField) (key : string) :
  emits P (promptForValue field key).
Proof. unfold promptForValue. repeat emits_step. Qed.

Lemma emits_prompt_missing (h : Host) (packageName : string)
    (missingRequired : list (string * UserConfigField)) (result : gmap string string) :
  emits P (prompt_missing h packageName missingRequired result).
Proof.
  revert result. induction missingRequired as [|[key field] rest IH]; intros result.
  - apply emits_ret.
  - simpl. apply emits_bind; [apply emits_promptForValue|]. intros value.
    repeat emits_step; apply IH.
Qed.

Lemma emits_gatherUserConfigValues (h : Host) (packageName : string)
    (userConfig : list (string * UserConfigField)) :
  emits P (gatherUserConfigValues h packageName userConfig).
Proof.
  unfold gatherUserConfigValues. apply emits_bind; [apply emits_with_manager|].
  intros stored. destruct (resolve_entries _ _ _) as [result missing].
  destruct missing as [|m missing]; [apply emits_ret|].
  repeat emits_step; apply emits_prompt_missing.
Qed.

Hypothesis P_ChmodSync : ∀ path, P (ChmodSync path).
Hypothesis P_SpawnSync : ∀ command args, P (SpawnSync command args).
Hypothesis P_Spawn : ∀ command args env cwd, P (Spawn command args env cwd).

Lemma emits_launch_plan (h : Host) (server : Server) (cacheDir : string)
    (env : gmap string string) :
  emits P (launch_plan h server cacheDir env).
Proof. unfold launch_plan, findPythonCommand. repeat emits_step. Qed.

Lemma emits_execute (h : Host) (name cacheDir : string) :
  emits P (execute h name cacheDir).
Proof.
  unfold execute, readManifest.
  apply emits_bind.
  { repeat emits_step. }
  intros manifest. apply emits_bind.
  { unfold resolve_user_config.
    destruct (user_config manifest) as [[|entry entries]|]; [apply emits_ret| |apply emits_ret].
    apply emits_bind; [apply emits_new_ConfigManager|]. intros _.
    apply emits_gatherUserConfigValues. }
  intros values. apply emits_bind; [apply emits_launch_plan|].
  intros [[command args] env]. unfold await_child. repeat emits_step.
Qed.

End EffectsOfTheRun.

(** * Resolution of the user configuration *)

Section Resolution.

Variables storedConfig process_env : gmap string string.

Lemma resolve_entry_spec (result : gmap string string)
    (missing : list (string * UserConfigField)) (key : string) (field : UserConfigField) :
  resolve_entry storedConfig process_env (result, missing) (key, field) =
    (match resolved_value storedConfig process_env key field with
     | Some v => Obj.set result key v
     | None => result
     end,
     missing ++ filter (λ e, unresolved_required storedConfig process_env e = true)
                  [(key, field)]).
Proof.
  assert (∀ v : string, bool_decide (Some v = None) = false) as Hsome
    by (intros v; by apply bool_decide_eq_false_2).
  unfold resolve_entry, resolved_value, unresolved_required.
  rewrite filter_cons, filter_nil. simpl. unfold resolved_value.
  destruct (Obj.get storedConfig key) as [sv|].
  { rewrite Hsome. simpl. by rewrite app_nil_r. }
  destruct (process_env !! envVarName key) as [ev|].
  { rewrite Hsome. simpl. by rewrite app_nil_r. }
  destruct (default field) as [d|].
  { change (String_ <$> Some d) with (Some (String_ d)).
    rewrite Hsome. simpl. by rewrite app_nil_r. }
  change (String_ <$> None) with (@None string).
  rewrite bool_decide_eq_true_2 by done. simpl.
  destruct (truthy_bool (required field)); simpl; [done|].
  by rewrite app_nil_r.
Qed.

Lemma foldl_resolve_entry_missing (userConfig : list (string * UserConfigField))
    (result0 : gmap string string) (missing0 : list (string * UserConfigField)) :
  (foldl (resolve_entry storedConfig process_env) (result0, missing0) userConfig).2
    = missing0 ++ filter (λ e, unresolved_required storedConfig process_env e = true)
                    userConfig.
Proof.
  revert result0 missing0.
  induction userConfig as [|[k f] userConfig IH]; intros result0 missing0.
  - by rewrite filter_nil, app_nil_r.
  - cbn [foldl]. rewrite resolve_entry_spec, IH, <- app_assoc. f_equal.
    by rewrite <- filter_app.
Qed.

(** The result of the loop has no property [__proto__] of its own. *)
Lemma foldl_resolve_entry_proto (userConfig : list (string * UserConfigField))
    (result0 : gmap string string) (missing0 : list (string * UserConfigField)) :
  result0 !! "__proto__" = None →
  (foldl (resolve_entry storedConfig process_env) (result0, missing0) userConfig).1
    !! "__proto__" = None.
Proof.
  revert result0 missing0.
  induction userConfig as [|[k f] userConfig IH]; intros result0 missing0 Hn; [done|].
  cbn [foldl]. rewrite resolve_entry_spec. apply IH.
  destruct (resolved_value storedConfig process_env k f); [|done].
  by apply ObjFacts.lookup_set_proto.
Qed.

(** The loop, from any state of its two accumulators. *)
Lemma foldl_resolve_entry (userConfig : list (string * UserConfigField))
    (result0 : gmap string string) (missing0 : list (string * UserConfigField)) :
  NoDup userConfig.*1 →
  ∃ result,
    foldl (resolve_entry storedConfig process_env) (result0, missing0) userConfig
      = (result,
         missing0 ++ filter (λ e, unresolved_required storedConfig process_env e = true)
                       userConfig)
    ∧ ∀ key,
        key ≠ "__proto__" →
        result !! key =
          match (list_to_map userConfig : gmap string UserConfigField) !! key with
          | Some field =>
              match resolved_value storedConfig process_env key field with
              | Some v => Some v
              | None => result0 !! key
              end
          | None => result0 !! key
          end.
Proof.
  revert result0 missing0.
  induction userConfig as [|[k f] userConfig IH]; intros result0 missing0 Hnd.
  - exists result0. rewrite filter_nil, app_nil_r. split; [done|]. intros key _.
    by rewrite list_to_map_nil, lookup_empty.
  - apply NoDup_cons in Hnd as [Hk Hnd]. cbn [foldl]. rewrite resolve_entry_spec.
    destruct (IH (match resolved_value storedConfig process_env k f with
                  | Some v => Obj.set result0 k v
                  | None => result0
                  end)
                 (missing0 ++ filter (λ e, unresolved_required storedConfig process_env e = true)
                                 [(k, f)]) Hnd) as (result & Hfold & Hlook).
    exists result. split.
    + rewrite Hfold. f_equal. rewrite <- app_assoc. f_equal.
      by rewrite <- filter_app.
    + intros key Hkey. rewrite Hlook by done. simpl.
      destruct (decide (k = key)) as [->|Hne].
      * rewrite lookup_insert_eq.
        rewrite (not_elem_of_list_to_map_1 _ key) by done.
        destruct (resolved_value _ _ key f); [by rewrite ObjFacts.lookup_set_eq|done].
      * rewrite lookup_insert_ne by done.
        destruct (list_to_map userConfig !! key) as [field|];
          destruct (resolved_value _ _ k f); by rewrite ?ObjFacts.lookup_set_ne.
Qed.

Lemma resolve_entries_missing (userConfig : list (string * UserConfigField)) :
  (resolve_entries storedConfig process_env userConfig).2
    = filter (λ e, unresolved_required storedConfig process_env e = true) userConfig.
Proof. unfold resolve_entries. by rewrite foldl_resolve_entry_missing. Qed.

Lemma resolve_entries_proto (userConfig : list (string * UserConfigField)) :
  (resolve_entries storedConfig process_env userConfig).1 !! "__proto__" = None.
Proof. by apply foldl_resolve_entry_proto. Qed.

(** The loop records what it finds for every declared field but one named
    [__proto__], and nothing under any other key. *)
Lemma resolve_entries_lookup (userConfig : list (string * UserConfigField)) (key : string) :
  NoDup userConfig.*1 → key ≠ "__proto__" →
  (resolve_entries storedConfig process_env userConfig).1 !! key
    = (list_to_map userConfig : gmap string UserConfigField) !! key
        ≫= resolved_value storedConfig process_env key.
Proof.
  intros Hnd Hkey. unfold resolve_entries.
  destruct (foldl_resolve_entry userConfig ∅ [] Hnd) as (result & -> & Hlook).
  simpl. rewrite Hlook by done. destruct (list_to_map userConfig !! key) as [field|]; simpl.
  - destruct (resolved_value _ _ key field); [done|by rewrite lookup_empty].
  - by rewrite lookup_empty.
Qed.

Lemma resolve_entries_declared (userConfig : list (string * UserConfigField))
    (key : string) (field : UserConfigField) :
  NoDup userConfig.*1 → (key, field) ∈ userConfig → key ≠ "__proto__" →
  (resolve_entries storedConfig process_env userConfig).1 !! key
    = resolved_value storedConfig process_env key field.
Proof.
  intros Hnd Hin Hkey. rewrite resolve_entries_lookup by done.
  by rewrite (elem_of_list_to_map_1 _ _ _ Hnd Hin).
Qed.

(** A declared field is among the missing ones only when it is required and
    unresolved. *)
Lemma missing_key (userConfig : list (string * UserConfigField))
    (key : string) (field : UserConfigField) :
  NoDup userConfig.*1 → (key, field) ∈ userConfig →
  key ∈ ((resolve_entries storedConfig process_env userConfig).2).*1 →
  unresolved_required storedConfig process_env (key, field) = true.
Proof.
  intros Hnd Hin. rewrite resolve_entries_missing.
  intros ([k f] & -> & [Hu Hin']%list_elem_of_filter)%list_elem_of_fmap. simpl in *.
  assert (f = field) as ->; [|done].
  apply (elem_of_list_to_map_1 _ _ _ Hnd) in Hin, Hin'. congruence.
Qed.

End Resolution.

Section Gathering.

Lemma bind_Returned_inv {A B : Type} (c : M A) (k : A → M B) (w w' : World) (b : B) :
  bind c k w = (Returned b, w') →
  ∃ a w1, c w = (Returned a, w1) ∧ k a w1 = (Returned b, w').
Proof.
  unfold bind. destruct (c w) as [[a|code|message|] w1]; try done. eauto.
Qed.

Lemma with_manager_Returned {A : Type}
    (method : ConfigManager.t → (ConfigManager.ConfigCorruptedError + A) * ConfigManager.t)
    (w : World) (a : A) (cm : ConfigManager.t) :
  method (manager w) = (inr a, cm) → with_manager method w = (Returned a, managed w cm).
Proof. unfold with_manager. by intros ->. Qed.

(** The prompts touch the keys they ask for, and no other. *)
Lemma prompt_missing_lookup (h : Host) (packageName : string)
    (missingRequired : list (string * UserConfigField))
    (result values : gmap string string) (w w' : World) (key : string) :
  prompt_missing h packageName missingRequired result w = (Returned values, w') →
  key ∉ missingRequired.*1 → values !! key = result !! key.
Proof.
  revert result w. induction missingRequired as [|[k f] rest IH]; intros result w.
  - by intros [= <- <-].
  - cbn [prompt_missing]. intros (value & w1 & _ & Hrest)%bind_Returned_inv Hnot.
    apply not_elem_of_cons in Hnot as [Hne Hnot]. simpl in Hne.
    destruct (negb (truthy_string (Some value)) && truthy_bool (required f)).
    { apply bind_Returned_inv in Hrest as (? & ? & _ & [=]). }
    apply bind_Returned_inv in Hrest as (_ & w2 & _ & Hrest).
    rewrite (IH _ _ Hrest Hnot). by rewrite ObjFacts.lookup_set_ne.
Qed.

Variable h : Host.
Variable packageName : string.
Variable userConfig : list (string * UserConfigField).
Variable w : World.
Variable stored : option (gmap string string).
Variable cm : ConfigManager.t.
Hypothesis stored_loaded :
  ConfigManager.getPackageConfig (Date_toISOString h) (manager w) packageName
    = (inr stored, cm).

Let storedConfig : gmap string string := from_option id ∅ stored.
Let missing : list (string * UserConfigField) :=
  filter (λ e, unresolved_required storedConfig (process_env h) e = true) userConfig.

(** With nothing missing the resolved values are returned at once. *)
Lemma gather_resolved :
  missing = [] →
  gatherUserConfigValues h packageName userConfig w
    = (Returned (resolve_entries storedConfig (process_env h) userConfig).1,
       managed w cm).
Proof.
  intros Hm. unfold gatherUserConfigValues.
  rewrite (bind_Returned _ _ _ _ _ (with_manager_Returned _ _ _ _ stored_loaded)).
  fold storedConfig.
  pose proof (resolve_entries_missing storedConfig (process_env h) userConfig) as Hmiss.
  fold missing in Hmiss. rewrite Hm in Hmiss.
  destruct (resolve_entries storedConfig (process_env h) userConfig) as [result m].
  simpl in Hmiss. by subst m.
Qed.

(** Without a terminal the missing keys are reported and the process exits
    with status 1. *)
Lemma gather_not_interactive :
  stdin_isTTY h = false → missing ≠ [] →
  gatherUserConfigValues h packageName userConfig w
    = (Exited 1, after (managed w cm) (missing_config_report packageName missing.*1)).
Proof.
  intros Htty Hm. unfold gatherUserConfigValues.
  rewrite (bind_Returned _ _ _ _ _ (with_manager_Returned _ _ _ _ stored_loaded)).
  fold storedConfig.
  pose proof (resolve_entries_missing storedConfig (process_env h) userConfig) as Hmiss.
  fold missing in Hmiss.
  destruct (resolve_entries storedConfig (process_env h) userConfig) as [result m].
  simpl in Hmiss. subst m. destruct missing as [|e rest] eqn:E; [done|].
  unfold isInteractive. rewrite Htty. simpl negb. cbv iota.
  unfold bind at 1. unfold bind at 1. rewrite emit_after.
  unfold bind at 1. rewrite emit_after.
  unfold bind at 1. rewrite emit_after.
  unfold exit. by rewrite !after_after.
Qed.

(** Whatever the prompts answer, a key that is not missing keeps the value
    the loop gave it. *)
Lemma gather_lookup (values : gmap string string) (w' : World) (key : string) :
  gatherUserConfigValues h packageName userConfig w = (Returned values, w') →
  key ∉ missing.*1 →
  values !! key = (resolve_entries storedConfig (process_env h) userConfig).1 !! key.
Proof.
  unfold gatherUserConfigValues.
  rewrite (bind_Returned _ _ _ _ _ (with_manager_Returned _ _ _ _ stored_loaded)).
  fold storedConfig.
  pose proof (resolve_entries_missing storedConfig (process_env h) userConfig) as Hmiss.
  fold missing in Hmiss.
  destruct (resolve_entries storedConfig (process_env h) userConfig) as [result m].
  simpl in Hmiss. subst m. simpl. destruct missing as [|e rest] eqn:E.
  { by intros [= <- <-]. }
  intros (_ & w1 & _ & (_ & w2 & _ & Hp)%bind_Returned_inv)%bind_Returned_inv Hnot.
  by apply (prompt_missing_lookup _ _ _ _ _ _ _ _ Hp).
Qed.

End Gathering.

(** With fields declared, the block that resolves the user configuration is
    [gatherUserConfigValues] with a manager that has loaded nothing yet. *)
Lemma resolve_user_config_declared (h : Host) (name : string) (manifest : McpbManifest)
    (userConfig : list (string * UserConfigField)) (w : World) :
  user_config manifest = Some userConfig → userConfig ≠ [] →
  resolve_user_config h name manifest w
    = gatherUserConfigValues h name userConfig
        (managed w (ConfigManager.new (homedir h) (ConfigManager.disk (manager w)))).
Proof.
  intros Hu Hne. unfold resolve_user_config. rewrite Hu.
  by destruct userConfig as [|entry entries].
Qed.

(** * The cache decision and the pull *)

Section Pull.

Variable h : Host.

Lemma refresh_cache_valid (name : string) (requestedVersion : option string)
    (options : RunOptions) (cacheDir : string) (w : World) :
  needsPull (getCacheMetadata h cacheDir) options requestedVersion = false →
  refresh_cache h name requestedVersion options cacheDir w = (Returned (), w).
Proof. unfold refresh_cache. by intros ->. Qed.

(** The registry's version is the cached one and the flag is not set:
    nothing is downloaded. *)
Lemma pull_already_current (name : string) (requestedVersion : option string)
    (cacheDir : string) (cachedMeta : option CacheMetadata) (options : RunOptions)
    (info : DownloadInfo) (w : World) :
  getDownloadInfo h name requestedVersion (detectPlatform h) = inr info →
  stillNeedsPull cachedMeta options (bundle info) = false →
  pull h name requestedVersion (detectPlatform h) cacheDir cachedMeta options w
    = (Returned (),
       after w [GetDownloadInfo name requestedVersion (detectPlatform h)]).
Proof.
  intros Hinfo Hstill. unfold pull. unfold bind at 1. rewrite emit_after.
  by rewrite Hinfo, Hstill.
Qed.

Lemma pull_downloads (name : string) (requestedVersion : option string)
    (cacheDir : string) (cachedMeta : option CacheMetadata) (options : RunOptions)
    (info : DownloadInfo) (w : World) :
  let tempPath := Path.join [homedir h; ".mpak"; "tmp"; Date_now h +:+ ".mcpb"] in
  getDownloadInfo h name requestedVersion (detectPlatform h) = inr info →
  stillNeedsPull cachedMeta options (bundle info) = true →
  downloadBundle h (url info) tempPath = None →
  unzip h tempPath cacheDir = None →
  ∃ w', pull h name requestedVersion (detectPlatform h) cacheDir cachedMeta options w
          = (Returned (), w')
        ∧ trace w' = trace w ++ pull_events h name requestedVersion cacheDir info.
Proof.
  intros tempPath Hinfo Hstill Hdl Hunzip. unfold pull, pull_events.
  rewrite bind_emit, Hinfo, Hstill. unfold pull_body. fold tempPath.
  generalize dependent tempPath. intros tempPath Hdl Hunzip.
  rewrite !bind_emit, Hdl, bind_ret.
  unfold extractZip, writeCacheMetadata. rewrite Hunzip.
  destruct (existsSync_dir h cacheDir); repeat run_step;
    (eexists; split; [apply emit_after|]); cbn [trace after]; by rewrite <- !app_assoc.
Qed.

End Pull.

Section EffectsOfThePull.

Variable P : Event → Prop.
Hypothesis P_Stderr : ∀ text, P (Stderr text).
Hypothesis P_GetDownloadInfo : ∀ name version platform,
  P (GetDownloadInfo name version platform).
Hypothesis P_DownloadBundle : ∀ url tempPath, P (DownloadBundle url tempPath).
Hypothesis P_MkdirSync : ∀ path, P (MkdirSync path).
Hypothesis P_RmSync : ∀ path, P (RmSync path).
Hypothesis P_Unzip : ∀ zipPath destDir, P (Unzip zipPath destDir).
Hypothesis P_WriteCacheMetadata : ∀ cacheDir metadata,
  P (WriteCacheMetadata cacheDir metadata).

Lemma emits_refresh_cache (h : Host) (name : string) (requestedVersion : option string)
    (options : RunOptions) (cacheDir : string) :
  emits P (refresh_cache h name requestedVersion options cacheDir).
Proof.
  unfold refresh_cache, pull, pull_body, extractZip, writeCacheMetadata.
  repeat emits_step.
Qed.

End EffectsOfThePull.

Section HandleRun.

Variable h : Host.
Variable packageSpec : string.
Variable options : RunOptions.

Let name : string := spec_name (parsePackageSpec packageSpec).
Let requestedVersion : option string := spec_version (parsePackageSpec packageSpec).
Let cacheDir : string := getCacheDir (homedir h) name.

Lemma handleRun_refreshed (w w1 : World) :
  refresh_cache h name requestedVersion options cacheDir w = (Returned (), w1) →
  handleRun h packageSpec options w = execute h name cacheDir w1.
Proof. intros H. unfold handleRun. by rewrite (bind_Returned _ _ _ _ _ H). Qed.

(** With the manifest in the cache and its fields declared, [execute] gets
    to [gatherUserConfigValues]. *)
Lemma execute_gather_Exited (w w' : World) (manifest : McpbManifest)
    (userConfig : list (string * UserConfigField)) (code : Z) :
  manifest_file w = Some manifest →
  user_config manifest = Some userConfig → userConfig ≠ [] →
  gatherUserConfigValues h name userConfig
    (managed w (ConfigManager.new (homedir h) (ConfigManager.disk (manager w))))
    = (Exited code, w') →
  execute h name cacheDir w = (Exited code, w').
Proof.
  intros Hm Hu Hne Hg. unfold execute, readManifest.
  unfold bind at 1. unfold bind at 1. unfold get_manifest_file at 1. rewrite Hm.
  unfold ret at 1. unfold resolve_user_config. rewrite Hu.
  destruct userConfig as [|entry entries]; [done|].
  unfold bind at 1. unfold bind at 1. unfold new_ConfigManager at 1.
  fold (managed w (ConfigManager.new (homedir h) (ConfigManager.disk (manager w)))).
  by rewrite Hg.
Qed.

End HandleRun.

(** * Validation of the configuration file *)

Section Validation.
Import ConfigManager.

Lemma for_of_None {A E : Type} (body : A → option E) (l : list A) :
  for_of body l = None ↔ Forall (λ x, body x = None) l.
Proof.
  induction l as [|x l IH]; simpl.
  - split; [constructor|done].
  - destruct (body x) as [e|] eqn:Hx.
    + split; [done|]. intros H%Forall_cons. destruct H. congruence.
    + rewrite IH. split; [by constructor|by intros [_ ?]%Forall_cons].
Qed.

Lemma for_of_forallb {A E : Type} (body : A → option E) (ok : A → bool) (l : list A) :
  (∀ x, body x = None ↔ ok x = true) →
  for_of body l = None ↔ forallb ok l = true.
Proof.
  intros Hb. rewrite for_of_None, forallb_forall, Forall_forall.
  split; intros H x Hx; apply Hb, H; by apply list_elem_of_In.
Qed.

Lemma typeof_string (v : option json) :
  bool_decide (typeof v = "string") = from_option is_string false v.
Proof.
  by destruct v as [[]|].
Qed.

Lemma values_loop (pkgName : string) (pkgConfig : json) :
  for_of (λ '(key, value),
      if negb (bool_decide (typeof (Some value) = "string")) then
        Some ("Config packages." +:+ pkgName +:+ "." +:+ key +:+ " must be a string")
      else None)
    (Object_entries pkgConfig) = None
  ↔ forallb (λ kv, is_string kv.2) (Object_entries pkgConfig) = true.
Proof.
  apply for_of_forallb. intros [key value]. rewrite typeof_string. simpl.
  by destruct (is_string value).
Qed.

Lemma packages_loop (pkgs : json) :
  for_of (λ '(pkgName, pkgConfig),
      if negb (is_object (Some pkgConfig)) then
        Some ("Config packages." +:+ pkgName +:+ " must be an object")
      else
        for_of (λ '(key, value),
            if negb (bool_decide (typeof (Some value) = "string")) then
              Some ("Config packages." +:+ pkgName +:+ "." +:+ key +:+ " must be a string")
            else None)
          (Object_entries pkgConfig))
    (Object_entries pkgs) = None
  ↔ forallb (λ kv, loose_string_map kv.2) (Object_entries pkgs) = true.
Proof.
  apply for_of_forallb. intros [pkgName pkgConfig]. unfold loose_string_map. simpl.
  destruct (is_object (Some pkgConfig)); simpl; [apply values_loop|done].
Qed.

Lemma keys_loop (obj : json) :
  for_of (λ key,
      if negb (bool_decide (key ∈ knownFields)) then
        Some ("Config contains unknown field: " +:+ key)
      else None)
    (Object_keys obj) = None
  ↔ forallb (λ key, bool_decide (key ∈ knownFields)) (Object_keys obj) = true.
Proof.
  apply for_of_forallb. intros key. by destruct (bool_decide (key ∈ knownFields)).
Qed.

(** [validateConfig] returns the data exactly when it is [accepted], and
    throws otherwise. *)
Lemma validateConfig_accepted (data : json) (path : string) :
  if accepted data then validateConfig data path = inr (as_MpakConfig data)
  else ∃ msg, validateConfig data path
                = inl {| message := msg; configPath := path; cause := None |}.
Proof.
  unfold accepted, validateConfig.
  destruct (is_object (Some data)); simpl; [|eauto].
  rewrite !typeof_string.
  destruct (from_option is_string false (get_property data "version")); simpl; [|eauto].
  destruct (from_option is_string false (get_property data "lastUpdated")); simpl; [|eauto].
  destruct (get_property data "registryUrl") as [url|] eqn:Eurl; simpl.
  - destruct (is_string url); simpl; [|eauto].
    destruct (get_property data "packages") as [pkgs|] eqn:Epkgs; simpl.
    + unfold loose_package_map. destruct (is_object (Some pkgs)); simpl; [|eauto].
      pose proof (packages_loop pkgs) as Hp. destruct (for_of _ (Object_entries pkgs)) as [e|].
      * destruct (forallb _ (Object_entries pkgs)); [|simpl; eauto].
        discriminate (proj2 Hp eq_refl).
      * rewrite (proj1 Hp eq_refl). simpl.
        pose proof (keys_loop data) as Hk. destruct (for_of _ (Object_keys data)) as [e|].
        -- destruct (forallb _ (Object_keys data)); [discriminate (proj2 Hk eq_refl)|eauto].
        -- by rewrite (proj1 Hk eq_refl).
    + pose proof (keys_loop data) as Hk. destruct (for_of _ (Object_keys data)) as [e|].
      * destruct (forallb _ (Object_keys data)); [discriminate (proj2 Hk eq_refl)|eauto].
      * by rewrite (proj1 Hk eq_refl).
  - destruct (get_property data "packages") as [pkgs|] eqn:Epkgs; simpl.
    + unfold loose_package_map. destruct (is_object (Some pkgs)); simpl; [|eauto].
      pose proof (packages_loop pkgs) as Hp. destruct (for_of _ (Object_entries pkgs)) as [e|].
      * destruct (forallb _ (Object_entries pkgs)); [|simpl; eauto].
        discriminate (proj2 Hp eq_refl).
      * rewrite (proj1 Hp eq_refl). simpl.
        pose proof (keys_loop data) as Hk. destruct (for_of _ (Object_keys data)) as [e|].
        -- destruct (forallb _ (Object_keys data)); [discriminate (proj2 Hk eq_refl)|eauto].
        -- by rewrite (proj1 Hk eq_refl).
    + pose proof (keys_loop data) as Hk. destruct (for_of _ (Object_keys data)) as [e|].
      * destruct (forallb _ (Object_keys data)); [discriminate (proj2 Hk eq_refl)|eauto].
      * by rewrite (proj1 Hk eq_refl).
Qed.

Lemma string_map_loose (v : json) : string_map v = true → loose_string_map v = true.
Proof. by destruct v. Qed.

Lemma package_map_loose (v : json) : package_map v = true → loose_package_map v = true.
Proof.
  destruct v as [| | | | |members]; try done. unfold package_map, loose_package_map.
  simpl. rewrite !forallb_forall. intros H kv Hkv. by apply string_map_loose, H.
Qed.

(** A file that conforms to the schema is accepted. *)
Lemma conforms_accepted (data : json) : conforms data = true → accepted data = true.
Proof.
  destruct data as [| | | | |members]; try done. unfold conforms, accepted.
  rewrite !andb_true_iff. intros ((((Hv & Hu) & Hr) & Hp) & Hk).
  repeat split; try done.
  destruct (get_property (JObject members) "packages") as [pkgs|]; [|done].
  by apply package_map_loose.
Qed.

End Validation.

(** * The environment of the child *)

Section Spawned.

Variable h : Host.

Lemma new_events_app (w w' : World) (es : list Event) :
  trace w' = trace w ++ es → new_events w w' = es.
Proof. intros H. unfold new_events. by rewrite H, drop_app_length. Qed.

Lemma launch_plan_env (server : Server) (cacheDir : string) (env0 : gmap string string)
    (w w' : World) (command : string) (args : list string) (childEnv : gmap string string) :
  launch_plan h server cacheDir env0 w = (Returned (command, args, childEnv), w') →
  childEnv = env0 ∨ ∃ pythonPath, childEnv = <["PYTHONPATH" := pythonPath]> env0.
Proof.
  unfold launch_plan.
  destruct (decide (type server = "binary")).
  { rewrite bind_emit. intros [= _ _ <- _]. by left. }
  destruct (decide (type server = "node")).
  { intros [= _ _ <- _]. by left. }
  destruct (decide (type server = "python")); [|done].
  intros (c & w1 & _ & [= _ _ <- _])%bind_Returned_inv. eauto.
Qed.

(** No part of a run but the [spawn] itself adds a [Spawn] to the trace. *)
Lemma no_spawn_resolve_user_config (name : string) (manifest : McpbManifest) :
  emits (λ e, ¬ is_spawn e) (resolve_user_config h name manifest).
Proof.
  unfold resolve_user_config.
  destruct (user_config manifest) as [[|entry entries]|]; try apply emits_ret.
  apply emits_bind; [apply emits_new_ConfigManager|]. intros _.
  apply emits_gatherUserConfigValues; intros; intros [].
Qed.

Lemma no_spawn_await_child : emits (λ e, ¬ is_spawn e) (await_child h).
Proof.
  unfold await_child. destruct (child_end h); [apply emits_exit| |apply emits_ret].
  apply emits_bind; [apply emits_emit; intros []|]. intros _. apply emits_exit.
Qed.

(** The child of [execute] gets the ambient environment with the substituted
    environment of the manifest spread over it, and [PYTHONPATH] on top of
    both for a python server. *)
Lemma execute_spawned (name cacheDir : string) (w w' : World) (o : Outcome ())
    (command : string) (args : list string) (childEnv : gmap string string)
    (cwd : string) :
  execute h name cacheDir w = (o, w') →
  Spawn command args childEnv cwd ∈ new_events w w' →
  ∃ manifest userConfigValues w1,
    manifest_file w = Some manifest
    ∧ resolve_user_config h name manifest w = (Returned userConfigValues, w1)
    ∧ let env0 :=
        spread (process_env h)
          (substituteEnvVars (env (mcp_config (server manifest))) userConfigValues) in
      childEnv = env0 ∨ ∃ pythonPath, childEnv = <["PYTHONPATH" := pythonPath]> env0.
Proof.
  assert (∀ es, Forall (λ e, ¬ is_spawn e) es →
            Spawn command args childEnv cwd ∈ es → False) as Hno.
  { intros es Hes Hin. rewrite Forall_forall in Hes. by apply (Hes _ Hin). }
  unfold execute, readManifest. rewrite bind_bind, bind_get_manifest_file.
  destruct (manifest_file w) as [manifest|] eqn:Hmanifest; last first.
  { intros [= <- <-]. unfold new_events. rewrite drop_all. by intros ?%elem_of_nil. }
  rewrite bind_ret. unfold bind at 1.
  destruct (resolve_user_config h name manifest w) as [out1 w1] eqn:Hgather.
  destruct (no_spawn_resolve_user_config name manifest _ _ _ Hgather) as (es1 & Ht1 & Hes1).
  destruct out1 as [values|code|message|];
    try (intros [= <- <-]; rewrite (new_events_app _ _ _ Ht1); intros Hin;
         by destruct (Hno _ Hes1 Hin)).
  unfold bind at 1.
  destruct (launch_plan h (server manifest) cacheDir _ w1) as [out2 w2] eqn:Hplan.
  destruct (emits_launch_plan (λ e, ¬ is_spawn e)) with
    (h := h) (server := server manifest) (cacheDir := cacheDir)
    (env := spread (process_env h)
              (substituteEnvVars (env (mcp_config (server manifest))) values))
    (w := w1) (o := out2) (w' := w2) as (es2 & Ht2 & Hes2);
    try (intros; intros []); [done|].
  destruct out2 as [[[command0 args0] env1]|code|message|];
    try (intros [= <- <-];
         rewrite (new_events_app w w2 (es1 ++ es2)) by (by rewrite Ht2, Ht1, app_assoc);
         intros Hin; destruct (Hno (es1 ++ es2)); [by apply Forall_app|done]).
  rewrite bind_emit. intros Hend.
  destruct (no_spawn_await_child _ _ _ Hend) as (es3 & Ht3 & Hes3).
  rewrite (new_events_app w w' (es1 ++ es2 ++ [Spawn command0 args0 env1 cacheDir] ++ es3));
    last first.
  { rewrite Ht3. cbn [trace after]. rewrite Ht2, Ht1. by rewrite <- !app_assoc. }
  rewrite !elem_of_app. intros [Hin|[Hin|[Hin|Hin]]];
    try (by destruct (Hno _ Hes1 Hin)); try (by destruct (Hno _ Hes2 Hin));
    try (by destruct (Hno _ Hes3 Hin)).
  apply list_elem_of_singleton in Hin as [= -> -> -> ->].
  exists manifest, values, w1. split; [done|]. split; [done|].
  by apply (launch_plan_env _ _ _ _ _ _ _ _ Hplan).
Qed.

(** In every run that spawns a child, the child gets, for every key that the
    substituted environment of the manifest has, the value it has there. *)
Lemma handleRun_spawned (packageSpec : string) (options : RunOptions) (w w' : World)
    (o : Outcome ()) (command : string) (args : list string)
    (childEnv : gmap string string) (cwd : string) :
  let name := spec_name (parsePackageSpec packageSpec) in
  let cacheDir := getCacheDir (homedir h) name in
  handleRun h packageSpec options w = (o, w') →
  Spawn command args childEnv cwd ∈ new_events w w' →
  ∃ w1 manifest userConfigValues w2,
    refresh_cache h name (spec_version (parsePackageSpec packageSpec)) options cacheDir w
      = (Returned (), w1)
    ∧ manifest_file w1 = Some manifest
    ∧ resolve_user_config h name manifest w1 = (Returned userConfigValues, w2)
    ∧ ∀ key v,
        key ≠ "PYTHONPATH" →
        substituteEnvVars (env (mcp_config (server manifest))) userConfigValues !! key
          = Some v →
        childEnv !! key = Some v.
Proof.
  intros name cacheDir. unfold handleRun. fold name cacheDir. unfold bind at 1.
  destruct (refresh_cache h name _ options cacheDir w) as [out w1] eqn:Hrefresh.
  destruct (emits_refresh_cache (λ e, ¬ is_spawn e)) with
    (h := h) (name := name) (requestedVersion := spec_version (parsePackageSpec packageSpec))
    (options := options) (cacheDir := cacheDir) (w := w) (o := out) (w' := w1)
    as (es0 & Ht0 & Hes0); try (intros; intros []); [done|].
  assert (∀ es, Forall (λ e, ¬ is_spawn e) es →
            Spawn command args childEnv cwd ∈ es → False) as Hno.
  { intros es Hes Hin. rewrite Forall_forall in Hes. by apply (Hes _ Hin). }
  destruct out as [[]|code|message|];
    try (intros [= <- <-]; rewrite (new_events_app _ _ _ Ht0); intros Hin;
         by destruct (Hno _ Hes0 Hin)).
  intros Hexec Hin.
  destruct (emits_execute (λ _, True)) with
    (h := h) (name := name) (cacheDir := cacheDir) (w := w1) (o := o) (w' := w')
    as (es & Ht & _); try done.
  rewrite (new_events_app w w' (es0 ++ es)) in Hin by (by rewrite Ht, Ht0, app_assoc).
  apply elem_of_app in Hin as [Hin|Hin]; [by destruct (Hno _ Hes0 Hin)|].
  rewrite <- (new_events_app _ _ _ Ht) in Hin.
  destruct (execute_spawned _ _ _ _ _ _ _ _ _ Hexec Hin)
    as (manifest & values & w2 & Hmanifest & Hvalues & Henv).
  exists w1, manifest, values, w2. repeat (split; [done|]).
  intros key v Hkey Hv.
  assert (spread (process_env h)
            (substituteEnvVars (env (mcp_config (server manifest))) values) !! key
          = Some v) as Hspread by (by apply lookup_union_Some_l).
  destruct Henv as [->|[pythonPath ->]]; [done|]. by rewrite lookup_insert_ne.
Qed.

End Spawned.

(** * Facts about the configuration store *)

Section Store.

Import ConfigManager.

Implicit Types (cm : ConfigManager.t) (c : MpakConfig).

Lemma loadConfig_cached (now : string) cm c :
  config cm = Some c → loadConfig now cm = (inr c, cm).
Proof. intros H. unfold loadConfig. by rewrite H. Qed.

Lemma loadConfig_inr (now : string) cm c cm' :
  loadConfig now cm = (inr c, cm') →
  config cm' = Some c ∧ configFile cm' = configFile cm.
Proof.
  unfold loadConfig. destruct (config cm) as [c0|] eqn:Hc.
  { intros [= <- <-]. done. }
  destruct (disk cm) as [|err|err|data]; try discriminate.
  - intros [= <- <-]. done.
  - destruct (validateConfig data (configFile cm)); [discriminate|].
    intros [= <- <-]. done.
Qed.

Lemma loadConfig_inl (now : string) cm e cm' :
  loadConfig now cm = (inl e, cm') → cm' = cm ∧ config cm = None.
Proof.
  unfold loadConfig. destruct (config cm) as [c0|] eqn:Hc; [discriminate|].
  destruct (disk cm) as [|err|err|data]; try discriminate.
  - by intros [= <- <-].
  - by intros [= <- <-].
  - destruct (validateConfig data (configFile cm)); [|discriminate].
    by intros [= <- <-].
Qed.

Lemma loads_again (now : string) cm c :
  loads now cm c → loads now (loadConfig now cm).2 c.
Proof.
  unfold loads. destruct (loadConfig now cm) as [[e|c'] cm'] eqn:H; [discriminate|].
  intros [= ->]. cbn. destruct (loadConfig_inr _ _ _ _ H) as [Hc _].
  by rewrite (loadConfig_cached _ _ _ Hc).
Qed.

Lemma loads_inv (now : string) (cm : t) (c : MpakConfig) :
  loads now cm c → ∃ cm1, loadConfig now cm = (inr c, cm1) ∧ config cm1 = Some c.
Proof.
  unfold loads. destruct (loadConfig now cm) as [[e|c'] cm1] eqn:H; [done|].
  cbn. intros [= ->]. exists cm1. split; [done|]. by destruct (loadConfig_inr _ _ _ _ H).
Qed.

Lemma loads_cached (now : string) (cm : t) (c c' : MpakConfig) :
  config cm = Some c → loads now cm c' → c' = c.
Proof. intros H. unfold loads. rewrite (loadConfig_cached _ _ _ H). cbn. congruence. Qed.

Lemma loads_record (now f : string) (d : ConfigFile) (c c' : MpakConfig) :
  loads now {| configFile := f; disk := d; config := Some c |} c' → c' = c.
Proof. by apply loads_cached. Qed.

Lemma as_PackageConfig_to_json (pkg : gmap string string) :
  as_PackageConfig (JObject (prod_map id JString <$> map_to_list pkg)) = pkg.
Proof.
  unfold as_PackageConfig. cbn [Object_entries]. rewrite <- list_fmap_compose.
  rewrite <- (list_to_map_to_list pkg) at 2. f_equal.
  rewrite <- (list_fmap_id (map_to_list pkg)) at 2.
  apply list_fmap_ext. by intros i [k v] _.
Qed.

Lemma packages_to_json (pkgs : gmap string (gmap string string)) :
  (list_to_map
     (prod_map id as_PackageConfig
        <$> (prod_map id (λ pkg, JObject (prod_map id JString <$> map_to_list pkg))
               <$> map_to_list pkgs)) : gmap string (gmap string string)) = pkgs.
Proof.
  rewrite <- list_fmap_compose. rewrite <- (list_to_map_to_list pkgs) at 2. f_equal.
  rewrite <- (list_fmap_id (map_to_list pkgs)) at 2.
  apply list_fmap_ext. intros i [k v] _.
  change ((k, as_PackageConfig (JObject (prod_map id JString <$> map_to_list v))) = (k, v)).
  by rewrite as_PackageConfig_to_json.
Qed.

Lemma loose_package_map_to_json (pkgs : gmap string (gmap string string)) :
  loose_package_map
    (JObject (prod_map id (λ pkg, JObject (prod_map id JString <$> map_to_list pkg))
                <$> map_to_list pkgs)) = true.
Proof.
  unfold loose_package_map. cbn [Object_entries]. apply andb_true_intro. split; [done|].
  apply forallb_forall. intros [k v] Hin%list_elem_of_In.
  apply list_elem_of_fmap in Hin as ([k' pkg] & [= -> ->] & _).
  unfold loose_string_map. cbn. apply forallb_forall.
  intros [k2 v2] Hin%list_elem_of_In.
  apply list_elem_of_fmap in Hin as ([k3 v3] & [= -> ->] & _). done.
Qed.

(** What [saveConfig] writes, [validateConfig] reads back as it was. *)
Lemma validateConfig_to_json c (path : string) :
  validateConfig (to_json c) path = inr c.
Proof.
  pose proof (validateConfig_accepted (to_json c) path) as H.
  assert (accepted (to_json c) = true ∧ as_MpakConfig (to_json c) = c) as [Ha Hc].
  { destruct c as [v l [u|] [pkgs|]]; unfold accepted, as_MpakConfig, to_json;
      cbn [config_version lastUpdated registryUrl packages app];
      unfold get_property, Object_keys;
      cbn [Object_entries list_to_map foldr fst snd fmap list_fmap];
      repeat (rewrite lookup_insert_eq || (rewrite lookup_insert_ne by done)
              || rewrite lookup_empty);
      cbn [from_option is_string as_string option_fmap option_map];
      rewrite ?loose_package_map_to_json;
      (split; [done|]); f_equal; try done;
      exact (f_equal Some (packages_to_json _)). }
  rewrite Ha in H. by rewrite H, Hc.
Qed.

Lemma validateConfig_path (data : json) (path path' : string) (c : MpakConfig) :
  validateConfig data path = inr c → validateConfig data path' = inr c.
Proof.
  pose proof (validateConfig_accepted data path) as H.
  pose proof (validateConfig_accepted data path') as H'.
  destruct (accepted data).
  - rewrite H, H'. done.
  - destruct H as [msg ->]. done.
Qed.

(** A manager whose file holds what it holds in memory. *)
Lemma loadConfig_restart (now homedir : string) cm c :
  config cm = Some c → disk cm = Parsed (to_json c) →
  loadConfig now (new homedir (disk cm))
  = (inr c, {| configFile := configFile (new homedir (disk cm));
               disk := disk cm; config := Some c |}).
Proof.
  intros _ Hd. unfold loadConfig, new. cbn [config disk configFile]. rewrite Hd.
  by rewrite validateConfig_to_json.
Qed.

Lemma saveConfig_spec (now f : string) (d : ConfigFile) c :
  saveConfig now {| configFile := f; disk := d; config := Some c |}
  = {| configFile := f; disk := Parsed (to_json (stamped now c));
       config := Some (stamped now c) |}.
Proof. done. Qed.

(** For a key that [Object.prototype] has no member for, a package answers
    with its own entry. *)
Lemma bind_get_own_name (o : option (gmap string string)) (key : string) :
  own_name key → o ≫= (λ pkg, Obj.get pkg key) = o ≫= (.!! key).
Proof. intros H. destruct o as [pkg|]; [|done]. cbn. by apply ObjFacts.get_own_name. Qed.

Lemma getPackageConfigValue_cached (now : string) cm c (packageName key : string) :
  own_name key → config cm = Some c →
  getPackageConfigValue now cm packageName key = (inr (stored_value c packageName key), cm).
Proof.
  intros Hk H. unfold getPackageConfigValue, getPackageConfig.
  rewrite (loadConfig_cached _ _ _ H). by rewrite bind_get_own_name.
Qed.

Lemma found_after_restart_saved (now homedir : string) cm c (packageName key : string) :
  own_name key → config cm = Some c → disk cm = Parsed (to_json c) →
  found_after_restart now homedir cm packageName key = inr (stored_value c packageName key).
Proof.
  intros Hk Hc Hd. unfold found_after_restart, getPackageConfigValue, getPackageConfig.
  rewrite (loadConfig_restart _ _ _ _ Hc Hd). cbn [fst]. by rewrite bind_get_own_name.
Qed.

(** A manager started on the file of a manager that has not loaded it yet
    finds what that manager would load. *)
Lemma found_after_restart_loads (now now' homedir : string) (cm : t) (c : MpakConfig)
    (packageName key : string) :
  own_name key → config cm = None → loads now cm c →
  found_after_restart now' homedir cm packageName key
  = inr (stored_value c packageName key).
Proof.
  intros Hk Hn. unfold loads, found_after_restart, getPackageConfigValue, getPackageConfig,
    loadConfig. rewrite Hn. cbn [config disk new configFile].
  destruct (disk cm) as [|err|err|data]; try done.
  - cbn. by intros [= <-].
  - destruct (validateConfig data (configFile cm)) as [e|c'] eqn:Hv; [done|].
    cbn [fst]. intros [= ->].
    rewrite (validateConfig_path _ _ (Path.join [Path.join [homedir; ".mpak"];
                                                  "config.json"]) _ Hv).
    cbn [fst]. by rewrite bind_get_own_name.
Qed.

(** The same of the file that a manager leaves once it has loaded it. *)
Lemma found_after_restart_loaded (now now' homedir : string) (cm : t) (c : MpakConfig)
    (packageName key : string) :
  own_name key → config cm = None → loads now cm c →
  found_after_restart now' homedir (loadConfig now cm).2 packageName key
  = inr (stored_value c packageName key).
Proof.
  intros Hk Hn. unfold loads, found_after_restart, getPackageConfigValue, getPackageConfig.
  unfold loadConfig at 1 3. rewrite Hn.
  destruct (disk cm) as [|err|err|data] eqn:Hd; try done.
  - cbn [fst snd]. intros [= <-]. rewrite saveConfig_spec.
    erewrite loadConfig_restart by reflexivity. cbn [fst]. by rewrite bind_get_own_name.
  - destruct (validateConfig data (configFile cm)) as [e|c'] eqn:Hv; [done|].
    cbn [fst snd disk]. intros [= ->]. unfold loadConfig, new. cbn [config disk configFile].
    rewrite (validateConfig_path _ _ _ _ Hv). cbn [fst]. by rewrite bind_get_own_name.
Qed.

Lemma keys_length_zero (m : gmap string string) :
  length (map_to_list m).*1 = 0%nat ↔ m = ∅.
Proof.
  rewrite length_fmap. split.
  - intros H. apply map_to_list_empty_iff. by apply length_zero_iff_nil.
  - intros ->. by rewrite map_to_list_empty.
Qed.

Lemma stored_value_insert (c : MpakConfig) (packageName key value : string)
    (v l : string) (u : option string) (packageName' key' : string) :
  let pkgs := from_option id ∅ (packages c) in
  stored_value
    {| config_version := v; lastUpdated := l; registryUrl := u;
       packages := Some (<[packageName := <[key := value]>
                             (from_option id ∅ (pkgs !! packageName))]> pkgs) |}
    packageName' key'
  = if decide (packageName' = packageName ∧ key' = key) then Some value
    else stored_value c packageName' key'.
Proof.
  intros pkgs. unfold stored_value. cbn [packages mbind option_bind].
  destruct (decide (packageName' = packageName)) as [->|Hp].
  - rewrite lookup_insert_eq. cbn [mbind option_bind].
    destruct (decide (key' = key)) as [->|Hk].
    + rewrite lookup_insert_eq. by rewrite decide_True.
    + rewrite lookup_insert_ne by done. rewrite decide_False by (by intros [? ?]).
      unfold pkgs. destruct (packages c) as [m|]; cbn; [|done].
      by destruct (m !! packageName).
  - rewrite lookup_insert_ne by done. rewrite decide_False by (by intros [? ?]).
    unfold pkgs. by destruct (packages c).
Qed.

Lemma stored_value_cleared (now : string) (c : MpakConfig)
    (pkgs : gmap string (gmap string string)) (pkg : gmap string string)
    (packageName key packageName' key' : string) :
  packages c = Some pkgs → pkgs !! packageName = Some pkg →
  stored_value
    (stamped now
       {| config_version := config_version c; lastUpdated := lastUpdated c;
          registryUrl := registryUrl c;
          packages :=
            Some (if decide (length (map_to_list (delete key pkg)).*1 = 0%nat)
                  then delete packageName pkgs
                  else <[packageName := delete key pkg]> pkgs) |})
    packageName' key'
  = if decide (packageName' = packageName ∧ key' = key) then None
    else stored_value c packageName' key'.
Proof.
  intros Hpkgs Hpkg. unfold stored_value, stamped.
  cbn [packages mbind option_bind]. rewrite Hpkgs. cbn [mbind option_bind].
  destruct (decide (packageName' = packageName)) as [->|Hp].
  - destruct (decide (length (map_to_list (delete key pkg)).*1 = 0%nat)) as [He|He];
      cbv beta iota.
    + rewrite lookup_delete_eq. cbn. apply keys_length_zero in He.
      case_decide as Hd; [done|]. rewrite Hpkg. cbn.
      rewrite <- (lookup_delete_ne pkg key key') by naive_solver.
      by rewrite He, lookup_empty.
    + rewrite lookup_insert_eq. cbn. case_decide as Hd.
      * destruct Hd as [_ Hk]. rewrite Hk. by rewrite lookup_delete_eq.
      * rewrite Hpkg. cbn. rewrite lookup_delete_ne; [done|]. naive_solver.
  - rewrite (decide_False (P := _ ∧ _)) by (by intros [? ?]).
    destruct (decide (length (map_to_list (delete key pkg)).*1 = 0%nat));
      cbv beta iota.
    + by rewrite lookup_delete_ne.
    + by rewrite lookup_insert_ne.
Qed.

Lemma stored_value_deleted (now : string) (c : MpakConfig)
    (packageName packageName' key' : string) :
  stored_value
    (stamped now
       {| config_version := config_version c; lastUpdated := lastUpdated c;
          registryUrl := registryUrl c;
          packages := delete packageName <$> packages c |})
    packageName' key'
  = if decide (packageName' = packageName) then None
    else stored_value c packageName' key'.
Proof.
  unfold stored_value, stamped. cbn [packages].
  destruct (packages c) as [pkgs|]; cbn; [|by case_decide].
  case_decide as Hd.
  - rewrite Hd. by rewrite lookup_delete_eq.
  - by rewrite lookup_delete_ne.
Qed.

(** What a manager started later finds once a value was cleared. *)
Lemma clearPackageConfigValue_restart (now : string) (cm : t) (c : MpakConfig)
    (packageName key : string) :
  own_name key → config cm = None → loads now cm c →
  ∀ now' homedir packageName' key',
    own_name key' →
    found_after_restart now' homedir (clearPackageConfigValue now cm packageName key).2
      packageName' key'
    = inr (if decide (packageName' = packageName ∧ key' = key) then None
           else stored_value c packageName' key').
Proof.
  intros Hown Hn Hl now' homedir packageName' key' Hown'.
  pose proof (found_after_restart_loaded now now' homedir cm c packageName' key' Hown' Hn Hl)
    as Hrestart.
  destruct (loads_inv _ _ _ Hl) as (cm1 & Hload & Hc).
  unfold clearPackageConfigValue. rewrite Hload in Hrestart |- *.
  rewrite bind_get_own_name by done.
  fold (stored_value c packageName key).
  destruct (stored_value c packageName key) as [v|] eqn:Hv; cbn [fst snd] in *.
  - rewrite saveConfig_spec. erewrite found_after_restart_saved by (done || reflexivity).
    unfold stored_value in Hv.
    destruct (packages c) as [pkgs|] eqn:Hpkgs; [|done].
    cbn [mbind option_bind] in Hv.
    destruct (pkgs !! packageName) as [pkg|] eqn:Hpkg; [|done].
    cbn [from_option id]. rewrite Hpkg. cbn [from_option id]. f_equal.
    by apply stored_value_cleared.
  - rewrite Hrestart. f_equal. case_decide as Hd; [|done].
    destruct Hd as [Hp Hk]. by rewrite Hp, Hk.
Qed.

(** What a manager started later finds once a package was cleared. *)
Lemma clearPackageConfig_restart (now : string) (cm : t) (c : MpakConfig)
    (packageName : string) :
  config cm = None → loads now cm c →
  ∀ now' homedir packageName' key',
    own_name key' →
    found_after_restart now' homedir (clearPackageConfig now cm packageName).2
      packageName' key'
    = inr (if decide (packageName' = packageName) then None
           else stored_value c packageName' key').
Proof.
  intros Hn Hl now' homedir packageName' key' Hk'.
  pose proof (found_after_restart_loaded now now' homedir cm c packageName' key' Hk' Hn Hl)
    as Hrestart.
  destruct (loads_inv _ _ _ Hl) as (cm1 & Hload & Hc).
  unfold clearPackageConfig. rewrite Hload in Hrestart |- *.
  destruct (packages c ≫= (.!! packageName)) as [pkg|] eqn:Hpkg; cbn [fst snd] in *.
  - rewrite saveConfig_spec. erewrite found_after_restart_saved by (done || reflexivity).
    by rewrite stored_value_deleted.
  - rewrite Hrestart. f_equal. case_decide as Hd; [|done]. rewrite Hd.
    unfold stored_value. by rewrite Hpkg.
Qed.

Lemma setPackageConfigValue_loads (now : string) (cm : t) (c : MpakConfig)
    (packageName key value : string) :
  key ≠ "__proto__" → loads now cm c →
  setPackageConfigValue now cm packageName key value
  = (inr (), saved (configFile cm) (with_value now packageName c (key, value))).
Proof.
  intros Hk (cm1 & Hload & Hc)%loads_inv. unfold setPackageConfigValue. rewrite Hload.
  rewrite ObjFacts.set_ne by done.
  rewrite saveConfig_spec. by destruct (loadConfig_inr _ _ _ _ Hload) as [_ ->].
Qed.

Lemma loads_saved (now f : string) (c : MpakConfig) : loads now (saved f c) c.
Proof. done. Qed.

Lemma stored_value_with_values (now packageName : string) (kvs : list (string * string))
    (c : MpakConfig) (packageName' key' : string) :
  stored_value (foldl (with_value now packageName) c kvs) packageName' key'
  = if decide (packageName' = packageName)
    then values_after_set (from_option id ∅ (packages c ≫= (.!! packageName))) kvs !! key'
    else stored_value c packageName' key'.
Proof.
  revert c. induction kvs as [|[k v] kvs IH]; intros c.
  - cbn [foldl values_after_set]. case_decide as Hd; [|done]. rewrite Hd.
    unfold stored_value, values_after_set. cbn [foldl].
    destruct (packages c ≫= (.!! packageName)); [done|]. cbn. by rewrite lookup_empty.
  - cbn [foldl]. rewrite IH. unfold values_after_set. cbn [foldl fst snd].
    case_decide as Hd.
    + f_equal. f_equal. unfold with_value. cbn [packages mbind option_bind fst snd].
      rewrite lookup_insert_eq. cbn [from_option id]. f_equal.
      destruct (packages c) as [pkgs|]; cbn; [|by rewrite lookup_empty].
      by destruct (pkgs !! packageName).
    + unfold with_value. rewrite stored_value_insert. cbn [fst snd].
      by rewrite (decide_False (P := _ ∧ _)) by (by intros [? ?]).
Qed.

Lemma clearPackageConfigValue_answer (now : string) (cm : t) (c : MpakConfig)
    (packageName key : string) :
  own_name key → loads now cm c →
  (clearPackageConfigValue now cm packageName key).1
  = inr (bool_decide (is_Some (stored_value c packageName key))).
Proof.
  intros Hk (cm1 & Hload & Hc)%loads_inv. unfold clearPackageConfigValue. rewrite Hload.
  rewrite bind_get_own_name by done.
  fold (stored_value c packageName key).
  by destruct (stored_value c packageName key).
Qed.

Lemma clearPackageConfig_answer (now : string) (cm : t) (c : MpakConfig)
    (packageName : string) :
  loads now cm c →
  (clearPackageConfig now cm packageName).1
  = inr (bool_decide (is_Some (packages c ≫= (.!! packageName)))).
Proof.
  intros (cm1 & Hload & Hc)%loads_inv. unfold clearPackageConfig. rewrite Hload.
  by destruct (packages c ≫= (.!! packageName)).
Qed.

End Store.

(** * Facts about the [config] commands *)

Section Commands.

Import ConfigManager.

Lemma indexOf_from_key_value (key value : string) :
  JS.includes "=" key = false →
  JS.indexOf_from "=" (key +:+ "=" +:+ value) = Some (String.length key).
Proof.
  induction key as [|a key IH]; intros H.
  - done.
  - cbn [JS.includes] in H.
    destruct (decide (a = "="%char)) as [->|Hne]; cbv beta iota in H; [done|].
    rewrite JSFacts.app_cons. cbn [JS.indexOf_from]. rewrite decide_False by done.
    by rewrite IH.
Qed.

Lemma parse_key_value (key value : string) :
  JS.includes "=" key = false →
  let pair_ := key +:+ "=" +:+ value in
  JS.indexOf "=" pair_ = Z.of_nat (String.length key)
  ∧ JS.substring2 pair_ 0 (JS.indexOf "=" pair_) = key
  ∧ JS.substring1 pair_ (JS.indexOf "=" pair_ + 1) = value.
Proof.
  intros H pair_. unfold JS.indexOf. subst pair_.
  rewrite (indexOf_from_key_value _ _ H). split; [done|]. split.
  - unfold JS.substring2. rewrite Z.min_l, Z.max_r by lia.
    rewrite Nat2Z.id. cbn [Z.to_nat JS.drop]. rewrite Nat.sub_0_r.
    apply JSFacts.take_app_length.
  - unfold JS.substring1.
    replace (Z.to_nat (Z.of_nat (String.length key) + 1)) with (S (String.length key)) by lia.
    clear H. induction key as [|a key IH]; [done|].
    rewrite JSFacts.app_cons. cbn [String.length JS.drop]. apply IH.
Qed.

Lemma indexOf_from_None (c : ascii) (s : string) :
  JS.includes c s = false → JS.indexOf_from c s = None.
Proof.
  induction s as [|a s IH]; [done|]. cbn [JS.includes JS.indexOf_from].
  destruct (decide (a = c)); [done|]. intros H. by rewrite IH.
Qed.

Lemma set_pairs_stores (now packageName : string) (kvs : list (string * string)) :
  Forall (λ kv, well_formed_key kv.1 ∧ kv.1 ≠ "__proto__") kvs →
  ∀ (cm : t) (c : MpakConfig) (n : nat) (out : list Output),
    loads now cm c →
    set_pairs now packageName (key_value <$> kvs) n
      {| output := out; configManager := cm |}
    = (Returned (n + length kvs)%nat,
       {| output := out;
          configManager := manager_after_set now packageName cm c kvs |}).
Proof.
  induction 1 as [|[k v] kvs [[Hk1 Hk2] Hk3] _ IH]; intros cm c n out Hload.
  - cbn. by rewrite Nat.add_0_r.
  - cbn [fmap list_fmap set_pairs]. change (key_value (k, v)) with (k +:+ "=" +:+ v).
    cbn [fst snd] in *.
    destruct (parse_key_value k v Hk2) as (Hi & Hkey & Hvalue).
    rewrite Hkey, Hvalue. rewrite decide_False by (rewrite Hi; lia).
    cbn [truthy_string]. rewrite bool_decide_eq_true_2 by done. cbn [negb].
    unfold cmd_bind at 1. unfold cmd_manager. cbn [configManager output].
    rewrite (setPackageConfigValue_loads _ _ _ _ _ _ Hk3 Hload).
    rewrite (IH _ _ _ _ (loads_saved _ _ _)). f_equal; [f_equal; cbn; lia|].
    f_equal. destruct kvs; done.
Qed.

Lemma set_pairs_malformed (now packageName : string) (bad : string) (rest : list string)
    (n : nat) (s : Session) :
  malformed_pair bad →
  set_pairs now packageName (bad :: rest) n s
  = (Exited 1, {| output := output s ++ [StderrWrite (malformed_pair_report bad)];
                  configManager := configManager s |}).
Proof.
  intros [H|H]; cbn [set_pairs]; unfold malformed_pair_report.
  - unfold JS.indexOf. rewrite (indexOf_from_None _ _ H), H. by rewrite decide_True.
  - destruct bad as [|a bad]; [done|]. cbn in H.
    destruct (decide ("="%char = a)) as [<-|]; [|done].
    done.
Qed.

Lemma set_pairs_app (now packageName : string) (l1 l2 : list string) (n : nat)
    (s : Session) :
  set_pairs now packageName (l1 ++ l2) n s
  = cmd_bind (set_pairs now packageName l1 n) (set_pairs now packageName l2) s.
Proof.
  revert n s. induction l1 as [|p l1 IH]; intros n s; [done|].
  cbn [app set_pairs]. case_decide; [done|].
  destruct (negb (truthy_string (Some (JS.substring2 p 0 (JS.indexOf "=" p))))); [done|].
  unfold cmd_bind.
  destruct (cmd_manager _ s) as [[[]| | |] s1]; by rewrite ?IH.
Qed.

End Commands.

Section Masking.

Lemma repeat_length (c : string) (n : nat) :
  String.length (JS.repeat c n) = (n * String.length c)%nat.
Proof.
  induction n as [|n IH]; [done|]. cbn [JS.repeat]. rewrite JSFacts.app_length, IH. lia.
Qed.

Lemma take_length (n : nat) (s : string) :
  String.length (JS.take n s) = (n `min` String.length s)%nat.
Proof.
  revert s. induction n as [|n IH]; intros [|a s]; cbn; try done. by rewrite IH.
Qed.

Lemma substring2_prefix (s : string) (n : nat) :
  JS.substring2 s 0 (Z.of_nat n) = JS.take n s.
Proof.
  unfold JS.substring2. rewrite Z.min_l, Z.max_r by lia. rewrite Nat2Z.id.
  cbn [Z.to_nat JS.drop]. by rewrite Nat.sub_0_r.
Qed.

End Masking.

(** * Further facts about the pure helpers of [run.ts] *)

Section PureHelpers.

Import RegExp.

(** A scan whose replacer gives back what was matched changes nothing. *)
Lemma replace_go_same {G : Type} (matcher : string → option (string * G * string))
    (replacer : string → G → string → string → string) :
  (∀ s text g rest, matcher s = Some (text, g, rest) → s = text +:+ rest) →
  (∀ s text g rest before, matcher s = Some (text, g, rest) →
     replacer text g before rest = text) →
  ∀ fuel before s, replace_go matcher replacer fuel before s = s.
Proof.
  intros Hm Hr. induction fuel as [|fuel IH]; intros before s; [done|].
  cbn [replace_go]. destruct (matcher s) as [[[text g] rest]|] eqn:E.
  - rewrite (Hr _ _ _ _ _ E), IH. symmetry. apply (Hm _ _ _ _ E).
  - destruct s as [|a s]; [done|]. by rewrite IH.
Qed.

Lemma match_dirname_spec (s text : string) (rest : string) :
  match_dirname s = Some (text, (), rest) ↔ s = dirname_marker +:+ rest ∧ text = dirname_marker.
Proof.
  unfold match_dirname. destruct (strip_prefix dirname_marker s) as [r|] eqn:E.
  - apply RegExpFacts.strip_prefix_Some in E as ->. split.
    + by intros [= <- <-].
    + intros [H ->]. do 2 f_equal.
      assert (strip_prefix dirname_marker (dirname_marker +:+ r) = Some rest) as H'
        by (by apply RegExpFacts.strip_prefix_Some).
      assert (strip_prefix dirname_marker (dirname_marker +:+ r) = Some r) as H''
        by (by apply RegExpFacts.strip_prefix_Some).
      congruence.
  - split; [done|]. intros [-> _].
    assert (strip_prefix dirname_marker (dirname_marker +:+ rest) = Some rest) as H'
      by (by apply RegExpFacts.strip_prefix_Some).
    congruence.
Qed.

Lemma match_dirname_shrinks (s text : string) (g : unit) (rest : string) :
  match_dirname s = Some (text, g, rest) → (String.length rest < String.length s)%nat.
Proof.
  destruct g. intros [-> _]%match_dirname_spec. rewrite JSFacts.app_length. cbn. lia.
Qed.

Lemma match_dirname_no_dollar (a : ascii) (s : string) :
  a ≠ "$"%char → match_dirname (String a s) = None.
Proof.
  intros Ha. unfold match_dirname, dirname_marker. cbn [strip_prefix].
  rewrite decide_False; [done|]. congruence.
Qed.

(** A replacement string without [$] stands for itself. *)
Lemma expand_plain (repl text before after : string) :
  JS.includes "$" repl = false → expand repl text before after = repl.
Proof.
  induction repl as [|a repl IH]; [done|]. cbn [JS.includes].
  destruct (decide (a = "$"%char)) as [->|Ha]; [done|]. intros H.
  rewrite <- (IH H) at 2. clear IH H.
  destruct a as [[] [] [] [] [] [] [] []]; try done.
Qed.

(** [arg.replace(/\$\{__dirname\}/g, cacheDir)] *)
Lemma resolveArgs_cons (arg : string) (args : list string) (cacheDir : string) :
  resolveArgs (arg :: args) cacheDir
  = replace match_dirname (λ text _ before after, expand cacheDir text before after) arg
      :: resolveArgs args cacheDir.
Proof. done. Qed.

Lemma resolve_no_dollar (cacheDir : string) (fuel : nat) (before arg : string) :
  JS.includes "$" arg = false →
  replace_go match_dirname (λ text _ before after, expand cacheDir text before after)
    fuel before arg = arg.
Proof.
  revert before arg. induction fuel as [|fuel IH]; intros before arg H; [done|].
  destruct arg as [|a arg]; [done|]. cbn [JS.includes] in H.
  destruct (decide (a = "$"%char)) as [->|Ha]; [done|].
  cbn [replace_go]. rewrite (match_dirname_no_dollar _ _ Ha). by rewrite IH.
Qed.

Lemma resolve_prefix (cacheDir pre rest before : string) :
  JS.includes "$" cacheDir = false →
  JS.includes "$" pre = false →
  replace_from match_dirname (λ text _ before after, expand cacheDir text before after)
    before (pre +:+ rest)
  = pre +:+ replace_from match_dirname
              (λ text _ before after, expand cacheDir text before after) "" rest.
Proof.
  intros Hd. revert before. induction pre as [|a pre IH]; intros before H.
  - rewrite !JSFacts.app_nil_l. unfold replace_from.
    apply RegExpFacts.replace_go_before. intros. by rewrite !expand_plain.
  - cbn [JS.includes] in H. destruct (decide (a = "$"%char)) as [->|Ha]; [done|].
    rewrite !JSFacts.app_cons.
    rewrite RegExpFacts.replace_from_unfold by apply match_dirname_shrinks.
    rewrite (match_dirname_no_dollar _ _ Ha). by rewrite IH.
Qed.

End PureHelpers.

(** * Further facts about the pull *)

Section PullFailures.

Variable h : Host.

Lemma bind_throw {A B : Type} (message : string) (k : A → M B) (w : World) :
  bind (throw message) k w = (Thrown message, w).
Proof. done. Qed.

Lemma pull_registry_fails (name : string) (requestedVersion : option string)
    (cacheDir : string) (cachedMeta : option CacheMetadata) (options : RunOptions)
    (message : string) (w : World) :
  getDownloadInfo h name requestedVersion (detectPlatform h) = inl message →
  pull h name requestedVersion (detectPlatform h) cacheDir cachedMeta options w
  = (Thrown message, after w [GetDownloadInfo name requestedVersion (detectPlatform h)]).
Proof. intros H. unfold pull. rewrite bind_emit, H. done. Qed.

Lemma pull_download_fails (name : string) (requestedVersion : option string)
    (cacheDir : string) (cachedMeta : option CacheMetadata) (options : RunOptions)
    (info : DownloadInfo) (message : string) (w : World) :
  getDownloadInfo h name requestedVersion (detectPlatform h) = inr info →
  stillNeedsPull cachedMeta options (bundle info) = true →
  downloadBundle h (url info) (temp_path h) = Some message →
  pull h name requestedVersion (detectPlatform h) cacheDir cachedMeta options w
  = (Thrown message, after w (download_events h name requestedVersion info)).
Proof.
  intros Hinfo Hstill Hdl. unfold pull. rewrite bind_emit, Hinfo, Hstill.
  unfold pull_body. fold (temp_path h). rewrite !bind_emit, Hdl, bind_throw.
  by rewrite !after_after.
Qed.

Lemma pull_unzip_fails (name : string) (requestedVersion : option string)
    (cacheDir : string) (cachedMeta : option CacheMetadata) (options : RunOptions)
    (info : DownloadInfo) (message : string) (w : World) :
  getDownloadInfo h name requestedVersion (detectPlatform h) = inr info →
  stillNeedsPull cachedMeta options (bundle info) = true →
  downloadBundle h (url info) (temp_path h) = None →
  unzip h (temp_path h) cacheDir = Some message →
  ∃ w', pull h name requestedVersion (detectPlatform h) cacheDir cachedMeta options w
        = (Thrown ("Failed to extract bundle: " +:+ message), w')
      ∧ trace w' = trace w ++ download_events h name requestedVersion info
                     ++ extract_events h cacheDir.
Proof.
  intros Hinfo Hstill Hdl Hunzip. unfold pull. rewrite bind_emit, Hinfo, Hstill.
  unfold pull_body. fold (temp_path h). rewrite !bind_emit, Hdl, bind_ret.
  unfold extractZip, extract_events. rewrite Hunzip.
  destruct (existsSync_dir h cacheDir); repeat run_step; rewrite bind_throw;
    (eexists; split; [done|]); cbn [trace after]; by rewrite <- !app_assoc.
Qed.

Lemma refresh_cache_pull (name : string) (requestedVersion : option string)
    (options : RunOptions) (cacheDir : string) (w : World) :
  needsPull (getCacheMetadata h cacheDir) options requestedVersion = true →
  refresh_cache h name requestedVersion options cacheDir w
  = pull h name requestedVersion (detectPlatform h) cacheDir
      (getCacheMetadata h cacheDir) options w.
Proof. unfold refresh_cache. by intros ->. Qed.

Lemma handleRun_refresh_Thrown (packageSpec : string) (options : RunOptions)
    (w w1 : World) (message : string) :
  refresh_cache h (spec_name (parsePackageSpec packageSpec))
    (spec_version (parsePackageSpec packageSpec)) options
    (getCacheDir (homedir h) (spec_name (parsePackageSpec packageSpec))) w
  = (Thrown message, w1) →
  handleRun h packageSpec options w = (Thrown message, w1).
Proof. intros H. unfold handleRun, bind. by rewrite H. Qed.

End PullFailures.

(** * Further facts about the launch *)

Section Launch.

Variable h : Host.

Lemma await_child_outcome (w : World) :
  await_child h w = ((child_outcome h).1, after w (child_outcome h).2).
Proof.
  unfold await_child, child_outcome. destruct (child_end h); cbn [fst snd].
  - unfold exit. by rewrite after_nil.
  - by rewrite bind_emit.
  - unfold ret. by rewrite after_nil.
Qed.

Lemma no_spawn_child_outcome : Forall (λ e, ¬ is_spawn e) (child_outcome h).2.
Proof.
  unfold child_outcome. destruct (child_end h); cbn; repeat constructor. intros [].
Qed.

(** [execute] either ends before the spawn, without one, or spawns the
    child that [launch_plan] describes, in the cache directory, and ends as
    the child does. *)
Lemma execute_cases (name cacheDir : string) (w w' : World) (o : Outcome ()) :
  execute h name cacheDir w = (o, w') →
  (o ≠ Returned () ∧ ∃ es, trace w' = trace w ++ es ∧ Forall (λ e, ¬ is_spawn e) es)
  ∨ ∃ manifest values w1 w2 command args childEnv es,
      manifest_file w = Some manifest
      ∧ resolve_user_config h name manifest w = (Returned values, w1)
      ∧ launch_plan h (server manifest) cacheDir
          (spread (process_env h)
             (substituteEnvVars (env (mcp_config (server manifest))) values)) w1
        = (Returned (command, args, childEnv), w2)
      ∧ trace w2 = trace w ++ es ∧ Forall (λ e, ¬ is_spawn e) es
      ∧ o = (child_outcome h).1
      ∧ trace w' = trace w ++ es ++ [Spawn command args childEnv cacheDir]
                     ++ (child_outcome h).2.
Proof.
  unfold execute, readManifest. rewrite bind_bind, bind_get_manifest_file.
  destruct (manifest_file w) as [manifest|] eqn:Hmanifest; last first.
  { intros [= <- <-]. left. split; [done|]. exists []. by rewrite app_nil_r. }
  rewrite bind_ret. unfold bind at 1.
  destruct (resolve_user_config h name manifest w) as [out1 w1] eqn:Hgather.
  destruct (no_spawn_resolve_user_config h name manifest _ _ _ Hgather)
    as (es1 & Ht1 & Hes1).
  destruct out1 as [values|code|message|];
    try (intros [= <- <-]; left; split; [done|]; by exists es1).
  unfold bind at 1.
  destruct (launch_plan h (server manifest) cacheDir _ w1) as [out2 w2] eqn:Hplan.
  destruct (emits_launch_plan (λ e, ¬ is_spawn e)) with
    (h := h) (server := server manifest) (cacheDir := cacheDir)
    (env := spread (process_env h)
              (substituteEnvVars (env (mcp_config (server manifest))) values))
    (w := w1) (o := out2) (w' := w2) as (es2 & Ht2 & Hes2);
    try (intros; intros []); [done|].
  assert (trace w2 = trace w ++ es1 ++ es2) as Ht12 by (by rewrite Ht2, Ht1, app_assoc).
  assert (Forall (λ e, ¬ is_spawn e) (es1 ++ es2)) as Hes12 by (by apply Forall_app).
  destruct out2 as [[[command args] childEnv]|code|message|];
    try (intros [= <- <-]; left; split; [done|]; by exists (es1 ++ es2)).
  rewrite bind_emit, await_child_outcome. intros [= <- <-]. right.
  exists manifest, values, w1, w2, command, args, childEnv, (es1 ++ es2).
  repeat (split; [done|]). cbn [trace after]. rewrite Ht12. by rewrite <- !app_assoc.
Qed.

(** The same of [handleRun], after the cache was refreshed. *)
Lemma handleRun_cases (packageSpec : string) (options : RunOptions) (w w' : World)
    (o : Outcome ()) :
  let name := spec_name (parsePackageSpec packageSpec) in
  let cacheDir := getCacheDir (homedir h) name in
  handleRun h packageSpec options w = (o, w') →
  (o ≠ Returned () ∧ ∃ es, trace w' = trace w ++ es ∧ Forall (λ e, ¬ is_spawn e) es)
  ∨ ∃ w0 manifest values w1 w2 command args childEnv es,
      refresh_cache h name (spec_version (parsePackageSpec packageSpec)) options cacheDir w
        = (Returned (), w0)
      ∧ manifest_file w0 = Some manifest
      ∧ resolve_user_config h name manifest w0 = (Returned values, w1)
      ∧ launch_plan h (server manifest) cacheDir
          (spread (process_env h)
             (substituteEnvVars (env (mcp_config (server manifest))) values)) w1
        = (Returned (command, args, childEnv), w2)
      ∧ Forall (λ e, ¬ is_spawn e) es
      ∧ o = (child_outcome h).1
      ∧ trace w' = trace w ++ es ++ [Spawn command args childEnv cacheDir]
                     ++ (child_outcome h).2.
Proof.
  intros name cacheDir. unfold handleRun. fold name cacheDir. unfold bind at 1.
  destruct (refresh_cache h name _ options cacheDir w) as [out w0] eqn:Hrefresh.
  destruct (emits_refresh_cache (λ e, ¬ is_spawn e)) with
    (h := h) (name := name) (requestedVersion := spec_version (parsePackageSpec packageSpec))
    (options := options) (cacheDir := cacheDir) (w := w) (o := out) (w' := w0)
    as (es0 & Ht0 & Hes0); try (intros; intros []); [done|].
  destruct out as [[]|code|message|];
    try (intros [= <- <-]; left; split; [done|]; by exists es0).
  intros [(Ho & es & Ht & Hes)|
          (manifest & values & w1 & w2 & command & args & childEnv & es
           & Hm & Hv & Hp & Ht2 & Hes & Ho & Ht)]%execute_cases.
  - left. split; [done|]. exists (es0 ++ es). rewrite Ht, Ht0, app_assoc.
    split; [done|]. by apply Forall_app.
  - right. exists w0, manifest, values, w1, w2, command, args, childEnv, (es0 ++ es).
    repeat (split; [done|]). split; [by apply Forall_app|]. split; [done|].
    rewrite Ht, Ht0. by rewrite <- !app_assoc.
Qed.

(** A spawn among events as [handleRun] leaves them is the one spawn. *)
Lemma the_spawn (es tail : list Event) (e e' : Event) :
  Forall (λ e, ¬ is_spawn e) es → Forall (λ e, ¬ is_spawn e) tail →
  is_spawn e' → e' ∈ es ++ [e] ++ tail → e' = e.
Proof.
  intros Hes Htail He' Hin. rewrite !elem_of_app in Hin.
  destruct Hin as [Hin|[Hin|Hin]].
  - rewrite Forall_forall in Hes. by destruct (Hes _ Hin).
  - by apply list_elem_of_singleton in Hin.
  - rewrite Forall_forall in Htail. by destruct (Htail _ Hin).
Qed.

End Launch.

Section LaunchPlan.

Variable h : Host.

Lemma launch_plan_environment (server : Server) (cacheDir : string)
    (env0 : gmap string string) (w w' : World) (command : string) (args : list string)
    (childEnv : gmap string string) :
  launch_plan h server cacheDir env0 w = (Returned (command, args, childEnv), w') →
  (type server = "python" → childEnv = <["PYTHONPATH" := python_path h cacheDir]> env0)
  ∧ (type server ≠ "python" → childEnv = env0).
Proof.
  unfold launch_plan.
  destruct (decide (type server = "binary")) as [Hb|Hb].
  { rewrite bind_emit. intros [= _ _ <- _]. split; [|done]. intros Hp. congruence. }
  destruct (decide (type server = "node")) as [Hn|Hn].
  { intros [= _ _ <- _]. split; [|done]. intros Hp. congruence. }
  destruct (decide (type server = "python")) as [Hp|Hp]; [|done].
  intros (c & w1 & _ & [= _ _ <- _])%bind_Returned_inv. split; [|done]. intros _.
  f_equal. unfold python_path.
  destruct (process_env h !! "PYTHONPATH") as [existing|]; [|done].
  cbn [truthy_string from_option id].
  destruct (decide (existing = "")) as [->|Hne]; [done|].
  by rewrite bool_decide_eq_true_2.
Qed.

Lemma launch_plan_unsupported (server : Server) (cacheDir : string)
    (env0 : gmap string string) (w : World) :
  ¬ supported_type (type server) →
  launch_plan h server cacheDir env0 w
  = (Thrown ("Unsupported server type: " +:+ type server), w).
Proof.
  intros Hn. unfold launch_plan, supported_type in *.
  repeat (case_decide; [tauto|]). done.
Qed.

End LaunchPlan.

(** * Further facts about the prompts *)

Section Prompts.

Variable h : Host.

Lemma getPackageConfig_loaded (now : string) (cm cm' : ConfigManager.t)
    (packageName : string) (stored : option (gmap string string)) :
  ConfigManager.getPackageConfig now cm packageName = (inr stored, cm') →
  ∃ c, ConfigManager.config cm' = Some c
       ∧ stored = ConfigManager.packages c ≫= (.!! packageName).
Proof.
  unfold ConfigManager.getPackageConfig.
  destruct (ConfigManager.loadConfig now cm) as [[e|c] cm1] eqn:Hload; [done|].
  intros [= <- <-]. exists c. split; [|done]. by destruct (loadConfig_inr _ _ _ _ Hload).
Qed.

Lemma missing_head (storedConfig process_env : gmap string string)
    (userConfig : list (string * UserConfigField)) (result : gmap string string)
    (key : string) (field : UserConfigField) (rest : list (string * UserConfigField)) :
  resolve_entries storedConfig process_env userConfig = (result, (key, field) :: rest) →
  default field = None ∧ truthy_bool (required field) = true ∧ own_name key.
Proof.
  intros H. pose proof (resolve_entries_missing storedConfig process_env userConfig) as Hm.
  rewrite H in Hm. cbn [snd] in Hm.
  assert ((key, field) ∈ filter
            (λ e, unresolved_required storedConfig process_env e = true) userConfig)
    as [Hu _]%list_elem_of_filter by (rewrite <- Hm; apply list_elem_of_here).
  unfold unresolved_required in Hu. apply andb_prop in Hu as [Hr Hreq].
  apply bool_decide_eq_true_1 in Hr. unfold resolved_value in Hr.
  cbn [fst snd] in Hr. destruct (Obj.get storedConfig key) eqn:Hget; [done|].
  apply ObjFacts.get_None in Hget as [_ Hown].
  destruct (process_env !! envVarName key); [done|]. by destruct (default field).
Qed.

(** A field without a default is asked with [prompt_events], and the line
    typed is the answer. *)
Lemma promptForValue_answer (field : UserConfigField) (key line : string)
    (lines : list string) (w : World) :
  default field = None → stdin w = line :: lines →
  promptForValue field key w
  = (Returned line,
     {| trace := trace w ++ prompt_events key field; stdin := lines;
        manager := manager w; manifest_file := manifest_file w |}).
Proof.
  intros Hd Hs. unfold promptForValue, prompt_events, field_label. rewrite Hd.
  rewrite JSFacts.app_nil_l.
  destruct (truthy_bool (sensitive field)).
  - rewrite bind_emit. unfold bind, question, bind, emit. cbn [stdin trace manager
      manifest_file after]. rewrite Hs. by rewrite <- app_assoc.
  - rewrite bind_ret. unfold bind, question, bind, emit. cbn [stdin trace manager
      manifest_file]. rewrite Hs. by rewrite app_nil_l.
Qed.

(** The offer to save is declined by [n] and by [N], and by nothing else. *)
Lemma declines_spec (answer : string) :
  declines answer = true ↔ answer = "n" ∨ answer = "N".
Proof.
  unfold declines. rewrite bool_decide_eq_true. split.
  - destruct answer as [|a [|b rest]]; [done| |done].
    cbn [JS.toLowerCase]. intros [= H].
    destruct a as [[] [] [] [] [] [] [] []]; vm_compute in H; try discriminate H;
      first [by left|by right].
  - by intros [->| ->].
Qed.

End Prompts.

(** * The primitives, on small inputs *)

Section Primitives.

Example upper_ascii : JS.toUpperCase "api_key" = "API_KEY".
Proof. reflexivity. Qed.

Example upper_latin1 :
  JS.toUpperCase (String (ascii_of_nat 233) "") = String (ascii_of_nat 201) "".
Proof. reflexivity. Qed.

Example upper_sharp_s :
  JS.toUpperCase ("stra" +:+ String (ascii_of_nat 223) "e") = "STRASSE".
Proof. reflexivity. Qed.

Example upper_division_sign :
  JS.toUpperCase (String (ascii_of_nat 247) "") = String (ascii_of_nat 247) "".
Proof. reflexivity. Qed.

Example lower_latin1 :
  JS.toLowerCase (String (ascii_of_nat 201) "N") = String (ascii_of_nat 233) "n".
Proof. reflexivity. Qed.

Example get_own_property : Obj.get {[ "toString" := "mine" ]} "toString" = Some "mine".
Proof. reflexivity. Qed.

Example get_inherited_function :
  Obj.get ∅ "hasOwnProperty" = Some "function hasOwnProperty() { [native code] }".
Proof. reflexivity. Qed.

Example get_absent : Obj.get {[ "other" := "x" ]} "missing" = None.
Proof. reflexivity. Qed.

Example set_proto_ignored : dom (Obj.set ∅ "__proto__" "x") = ∅.
Proof. reflexivity. Qed.

Example set_proto_own :
  Obj.set {[ "__proto__" := "old" ]} "__proto__" "new" !! "__proto__" = Some "new".
Proof. reflexivity. Qed.

End Primitives.

(** * The unit tests of the repository, on the model *)

Section UnitTests.

(** [run.test.ts], [parsePackageSpec] *)

Example test_parse_scoped :
  parsePackageSpec "@scope/name" = {| spec_name := "@scope/name"; spec_version := None |}.
Proof. reflexivity. Qed.

Example test_parse_version :
  parsePackageSpec "@scope/name@1.0.0"
    = {| spec_name := "@scope/name"; spec_version := Some "1.0.0" |}.
Proof. reflexivity. Qed.

Example test_parse_prerelease :
  parsePackageSpec "@scope/name@1.0.0-beta.1"
    = {| spec_name := "@scope/name"; spec_version := Some "1.0.0-beta.1" |}.
Proof. reflexivity. Qed.

Example test_parse_build_metadata :
  parsePackageSpec "@scope/name@1.0.0+build.123"
    = {| spec_name := "@scope/name"; spec_version := Some "1.0.0+build.123" |}.
Proof. reflexivity. Qed.

Example test_parse_slashes :
  spec_name (parsePackageSpec "@org/sub/name") = "@org/sub/name".
Proof. reflexivity. Qed.

Example test_parse_unscoped :
  parsePackageSpec "simple-name" = {| spec_name := "simple-name"; spec_version := None |}.
Proof. reflexivity. Qed.

Example test_parse_unscoped_version :
  parsePackageSpec "unscoped@1.0.0"
    = {| spec_name := "unscoped@1.0.0"; spec_version := None |}.
Proof. reflexivity. Qed.

Example test_parse_empty :
  parsePackageSpec "" = {| spec_name := ""; spec_version := None |}.
Proof. reflexivity. Qed.

Example test_parse_at_only :
  parsePackageSpec "@" = {| spec_name := "@"; spec_version := None |}.
Proof. reflexivity. Qed.

(** [run.test.ts], [getCacheDir] *)

Example test_cache_dir :
  getCacheDir "/home/user" "@nimblebraininc/echo"
    = Path.join [Path.join ["/home/user"; ".mpak"; "cache"]; "nimblebraininc-echo"].
Proof. reflexivity. Qed.

Example test_cache_dir_simple :
  getCacheDir "/home/user" "@foo/bar" = "/home/user/.mpak/cache/foo-bar".
Proof. reflexivity. Qed.

Example test_cache_dir_unscoped :
  getCacheDir "/home/user" "simple" = "/home/user/.mpak/cache/simple".
Proof. reflexivity. Qed.

(** [run.test.ts], [resolveArgs] *)

Example test_args_dirname :
  resolveArgs ["${__dirname}/dist/index.js"] "/Users/test/.mpak/cache/scope-name"
    = ["/Users/test/.mpak/cache/scope-name/dist/index.js"].
Proof. reflexivity. Qed.

Example test_args_inside :
  resolveArgs ["--config=${__dirname}/config.json"] "/Users/test/.mpak/cache/scope-name"
    = ["--config=/Users/test/.mpak/cache/scope-name/config.json"].
Proof. reflexivity. Qed.

Example test_args_several :
  resolveArgs ["${__dirname}/index.js"; "--config"; "${__dirname}/config.json"] "/c"
    = ["/c/index.js"; "--config"; "/c/config.json"].
Proof. reflexivity. Qed.

Example test_args_unchanged :
  resolveArgs ["-m"; "mcp_echo.server"] "/c" = ["-m"; "mcp_echo.server"].
Proof. reflexivity. Qed.

Example test_args_empty : resolveArgs [] "/c" = [].
Proof. reflexivity. Qed.

Example test_args_windows :
  resolveArgs ["${__dirname}\dist\index.js"] "C:\Users\test\.mpak\cache\scope-name"
    = ["C:\Users\test\.mpak\cache\scope-name\dist\index.js"].
Proof. reflexivity. Qed.

(** [run.test.ts], [substituteUserConfig] *)

Example test_substitute_single :
  substituteUserConfig "${user_config.api_key}" {[ "api_key" := "secret123" ]} = "secret123".
Proof. vm_compute. reflexivity. Qed.

Example test_substitute_several :
  substituteUserConfig "key=${user_config.key}&secret=${user_config.secret}"
    {[ "key" := "mykey"; "secret" := "mysecret" ]}
  = "key=mykey&secret=mysecret".
Proof. vm_compute. reflexivity. Qed.

Example test_substitute_unmatched :
  substituteUserConfig "${user_config.missing}" {[ "other" := "value" ]}
  = "${user_config.missing}".
Proof. vm_compute. reflexivity. Qed.

Example test_substitute_mixed :
  substituteUserConfig "${user_config.found}-${user_config.missing}" {[ "found" := "yes" ]}
  = "yes-${user_config.missing}".
Proof. vm_compute. reflexivity. Qed.

Example test_substitute_empty_value :
  substituteUserConfig "${user_config.empty}" {[ "empty" := "" ]} = "".
Proof. vm_compute. reflexivity. Qed.

Example test_substitute_special :
  substituteUserConfig "${user_config.key}" {[ "key" := "abc$def{ghi}" ]} = "abc$def{ghi}".
Proof. vm_compute. reflexivity. Qed.

Example test_substitute_other_placeholder :
  substituteUserConfig "${__dirname}/path" {[ "dirname" := "/cache" ]} = "${__dirname}/path".
Proof. vm_compute. reflexivity. Qed.

(** [run.test.ts], [substituteEnvVars] *)

Example test_env_all :
  substituteEnvVars
    (Some {[ "API_KEY" := "${user_config.api_key}"; "DEBUG" := "true";
             "TOKEN" := "${user_config.token}" ]})
    {[ "api_key" := "key123"; "token" := "tok456" ]}
  = {[ "API_KEY" := "key123"; "DEBUG" := "true"; "TOKEN" := "tok456" ]}.
Proof. vm_compute. reflexivity. Qed.

Example test_env_undefined : substituteEnvVars None {[ "key" := "value" ]} = ∅.
Proof. reflexivity. Qed.

Example test_env_empty : substituteEnvVars (Some ∅) {[ "key" := "value" ]} = ∅.
Proof. vm_compute. reflexivity. Qed.

Example test_env_preserved :
  substituteEnvVars (Some {[ "PATH" := "/usr/bin"; "HOME" := "/home/user" ]}) ∅
  = {[ "PATH" := "/usr/bin"; "HOME" := "/home/user" ]}.
Proof. vm_compute. reflexivity. Qed.

Example test_env_unsubstituted :
  substituteEnvVars (Some {[ "API_KEY" := "${user_config.api_key}"; "DEBUG" := "true" ]}) ∅
  = {[ "API_KEY" := "${user_config.api_key}"; "DEBUG" := "true" ]}.
Proof. vm_compute. reflexivity. Qed.

(** [config-manager.test.ts], the validation of the file *)

Let message_of (data : json) : option string :=
  match ConfigManager.validateConfig data "/home/user/.mpak/config.json" with
  | inl e => Some (ConfigManager.message e)
  | inr _ => None
  end.

Example test_config_version_missing :
  message_of (JObject [("lastUpdated", JString "2024-01-01T00:00:00Z")])
  = Some "Config missing required field: version (string)".
Proof. vm_compute. reflexivity. Qed.

Example test_config_lastUpdated_missing :
  message_of (JObject [("version", JString "1.0.0")])
  = Some "Config missing required field: lastUpdated (string)".
Proof. vm_compute. reflexivity. Qed.

Example test_config_registryUrl_number :
  message_of (JObject [("version", JString "1.0.0");
                       ("lastUpdated", JString "2024-01-01T00:00:00Z");
                       ("registryUrl", JNumber "12345")])
  = Some "Config field registryUrl must be a string".
Proof. vm_compute. reflexivity. Qed.

Example test_config_packages_string :
  message_of (JObject [("version", JString "1.0.0");
                       ("lastUpdated", JString "2024-01-01T00:00:00Z");
                       ("packages", JString "not an object")])
  = Some "Config field packages must be an object".
Proof. vm_compute. reflexivity. Qed.

Example test_config_package_string :
  message_of (JObject [("version", JString "1.0.0");
                       ("lastUpdated", JString "2024-01-01T00:00:00Z");
                       ("packages", JObject [("@scope/pkg", JString "not an object")])])
  = Some "Config packages.@scope/pkg must be an object".
Proof. vm_compute. reflexivity. Qed.

Example test_config_value_number :
  message_of (JObject [("version", JString "1.0.0");
                       ("lastUpdated", JString "2024-01-01T00:00:00Z");
                       ("packages",
                        JObject [("@scope/pkg", JObject [("api_key", JNumber "12345")])])])
  = Some "Config packages.@scope/pkg.api_key must be a string".
Proof. vm_compute. reflexivity. Qed.

Example test_config_unknown_field :
  message_of (JObject [("version", JString "1.0.0");
                       ("lastUpdated", JString "2024-01-01T00:00:00Z");
                       ("unknownField", JString "should not be here")])
  = Some "Config contains unknown field: unknownField".
Proof. vm_compute. reflexivity. Qed.

Example test_config_minimal :
  message_of (JObject [("version", JString "1.0.0");
                       ("lastUpdated", JString "2024-01-01T00:00:00Z")])
  = None.
Proof. vm_compute. reflexivity. Qed.

Example test_config_full :
  let loaded :=
    (ConfigManager.loadConfig "2024-06-01T00:00:00.000Z"
       (ConfigManager.new "/home/user"
          (ConfigManager.Parsed
             (JObject [("version", JString "1.0.0");
                       ("lastUpdated", JString "2024-01-01T00:00:00Z");
                       ("registryUrl", JString "https://custom.registry.com");
                       ("packages",
                        JObject [("@scope/pkg",
                                  JObject [("api_key", JString "secret");
                                           ("other_key", JString "value")])])])))).1 in
  match loaded with
  | inr config =>
      ConfigManager.config_version config = "1.0.0"
      ∧ ConfigManager.registryUrl config = Some "https://custom.registry.com"
      ∧ (ConfigManager.packages config ≫= (.!! "@scope/pkg")) ≫= (.!! "api_key")
        = Some "secret"
  | inl _ => False
  end.
Proof. vm_compute. done. Qed.

Example test_config_invalid_json :
  (ConfigManager.loadConfig "2024-06-01T00:00:00.000Z"
     (ConfigManager.new "/home/user" (ConfigManager.NotJSON "Unexpected token o"))).1
  = inl {| ConfigManager.message := "Config file contains invalid JSON: Unexpected token o";
           ConfigManager.configPath := "/home/user/.mpak/config.json";
           ConfigManager.cause := Some "Unexpected token o" |}.
Proof. vm_compute. reflexivity. Qed.

Example test_config_created :
  (ConfigManager.loadConfig "2024-06-01T00:00:00.000Z"
     (ConfigManager.new "/home/user" ConfigManager.Missing)).1
  = inr {| ConfigManager.config_version := "1.0.0";
           ConfigManager.lastUpdated := "2024-06-01T00:00:00.000Z";
           ConfigManager.registryUrl := None;
           ConfigManager.packages := None |}.
Proof. vm_compute. reflexivity. Qed.

End UnitTests.

(** * The properties of the specification *)

(** C2, amended. For every input [@scope/name@X] in which [X] has no [@],
    [parsePackageSpec] returns the name [@scope/name] and the version [X]
    (whatever else [X] contains, [+] and [-] included); when [X] is
    [X1@X2] with no [@] in [X2], the split is at that last [@], so the name
    is [@scope/name@X1] and the version [X2]; and an input that has no [@]
    after its first character, or does not start with [@], is returned
    whole as the name, with no version. *)
Theorem parsePackageSpec_scoped_version (scope nm X : string) :
  name_part scope → name_part nm →
  (JS.includes "@" X = false →
     parsePackageSpec (scoped_name scope nm +:+ "@" +:+ X)
       = {| spec_name := scoped_name scope nm; spec_version := Some X |})
  ∧ (∀ X1 X2, X = X1 +:+ "@" +:+ X2 → JS.includes "@" X2 = false →
     parsePackageSpec (scoped_name scope nm +:+ "@" +:+ X)
       = {| spec_name := scoped_name scope nm +:+ "@" +:+ X1;
            spec_version := Some X2 |})
  ∧ (∀ spec, JS.lastIndexOf "@" spec ≤ 0 ∨ JS.startsWith spec "@" = false →
     parsePackageSpec spec = {| spec_name := spec; spec_version := None |}).
Proof.
  intros _ _. split; [|split].
  - intros HX. apply parsePackageSpec_split; [apply scoped_name_startsWith|done].
  - intros X1 X2 -> HX2.
    replace (scoped_name scope nm +:+ "@" +:+ X1 +:+ "@" +:+ X2)
      with ((scoped_name scope nm +:+ "@" +:+ X1) +:+ "@" +:+ X2)
      by (by rewrite !JSFacts.app_assoc).
    apply parsePackageSpec_split; [|done].
    unfold scoped_name. rewrite !JSFacts.app_cons.
    apply startsWith_char. eauto.
  - intros spec H. by apply parsePackageSpec_name_whole, parsePackageSpec_whole.
Qed.

Lemma parsePackageSpec_scoped_version_witness :
  name_part "scope" ∧ name_part "name" ∧
  parsePackageSpec "@scope/name@1.0.0-beta.1+build.123"
    = {| spec_name := "@scope/name"; spec_version := Some "1.0.0-beta.1+build.123" |}.
Proof.
  assert (name_part "scope") as Hs by (by repeat split).
  assert (name_part "name") as Hn by (by repeat split).
  split; [done|]. split; [done|].
  apply (proj1 (parsePackageSpec_scoped_version
                  "scope" "name" "1.0.0-beta.1+build.123" Hs Hn)).
  reflexivity.
Defined.

(** C2 as stated fails when the version itself contains [@]. *)
Lemma parsePackageSpec_version_with_at :
  parsePackageSpec "@scope/name@1.0@beta"
    ≠ {| spec_name := "@scope/name"; spec_version := Some "1.0@beta" |}.
Proof. vm_compute. discriminate. Qed.

(** C3, amended. Two scoped package names have the same cache directory
    exactly when their scopes and names, glued with a hyphen, are the same
    string; for two distinct names this is exactly when one is a hyphen
    shift of the other: the scope of one is the scope of the other, a hyphen
    and the beginning of the other's name, as in [@a-b/c] and [@a/b-c].
    Every other pair of distinct scoped
    names gets distinct directories: so do two names of one scope, two names
    that differ in the scope alone, two names whose scopes have no hyphen and
    two names whose names have none. In particular the directories of
    [@nimblebraininc/echo] and [@nimblebraininc/Echo2] differ. *)
Theorem getCacheDir_injective_up_to_hyphens (homedir : string) :
  (∀ scope1 nm1 scope2 nm2,
     name_part scope1 → name_part nm1 → name_part scope2 → name_part nm2 →
     (getCacheDir homedir (scoped_name scope1 nm1)
        = getCacheDir homedir (scoped_name scope2 nm2)
      ↔ scope1 +:+ "-" +:+ nm1 = scope2 +:+ "-" +:+ nm2)
     ∧ (getCacheDir homedir (scoped_name scope1 nm1)
          = getCacheDir homedir (scoped_name scope2 nm2)
        ∧ scoped_name scope1 nm1 ≠ scoped_name scope2 nm2
        ↔ hyphen_shift scope1 nm1 scope2 nm2 ∨ hyphen_shift scope2 nm2 scope1 nm1)
     ∧ (scope1 = scope2 ∨ nm1 = nm2
        ∨ JS.includes "-" scope1 = false ∧ JS.includes "-" scope2 = false
        ∨ JS.includes "-" nm1 = false ∧ JS.includes "-" nm2 = false →
        getCacheDir homedir (scoped_name scope1 nm1)
          = getCacheDir homedir (scoped_name scope2 nm2) →
        scoped_name scope1 nm1 = scoped_name scope2 nm2))
  ∧ getCacheDir homedir "@nimblebraininc/echo"
      ≠ getCacheDir homedir "@nimblebraininc/Echo2".
Proof.
  assert (∀ scope1 nm1 scope2 nm2,
     name_part scope1 → name_part nm1 → name_part scope2 → name_part nm2 →
     scope1 = scope2 ∨ nm1 = nm2
     ∨ JS.includes "-" scope1 = false ∧ JS.includes "-" scope2 = false
     ∨ JS.includes "-" nm1 = false ∧ JS.includes "-" nm2 = false →
     getCacheDir homedir (scoped_name scope1 nm1)
       = getCacheDir homedir (scoped_name scope2 nm2) →
     scoped_name scope1 nm1 = scoped_name scope2 nm2) as Hinj.
  { intros scope1 nm1 scope2 nm2 Hs1 Hn1 Hs2 Hn2 Hcase Heq.
    destruct (decide (scoped_name scope1 nm1 = scoped_name scope2 nm2)) as [|Hne];
      [done|exfalso].
    assert (∀ s x, JS.includes "-" (s +:+ "-" +:+ x) = true) as Hin.
    { intros s x. rewrite JSFacts.includes_app.
      change ("-" +:+ x) with (String "-" x). simpl. apply orb_true_r. }
    assert (∀ s x : string, s ≠ s +:+ "-" +:+ x) as Hlen.
    { intros s x E%(f_equal String.length).
      rewrite JSFacts.app_length in E.
      change ("-" +:+ x) with (String "-" x) in E. simpl in E. lia. }
    assert (∀ s x : string, s ≠ x +:+ "-" +:+ s) as Hlen'.
    { intros s x E%(f_equal String.length).
      rewrite JSFacts.app_length in E.
      change ("-" +:+ s) with (String "-" s) in E. simpl in E. lia. }
    destruct (proj1 (getCacheDir_collide homedir _ _ _ _ Hs1 Hn1 Hs2 Hn2) (conj Heq Hne)) as
      [(x & E1 & E2)|(x & E1 & E2)];
      destruct Hcase as [->|[->|[[H1 H2]|[H1 H2]]]];
      solve [ by apply Hlen in E1 | by apply Hlen' in E2
            | by rewrite E1, Hin in H1 | by rewrite E1, Hin in H2
            | by rewrite E2, Hin in H1 | by rewrite E2, Hin in H2 ]. }
  split.
  - intros scope1 nm1 scope2 nm2 Hs1 Hn1 Hs2 Hn2. split; [|split].
    + by apply getCacheDir_scoped_eq.
    + by apply getCacheDir_collide.
    + by apply Hinj.
  - intros Heq.
    apply (Hinj "nimblebraininc" "echo" "nimblebraininc" "Echo2") in Heq;
      [discriminate|by repeat split..|by left].
Qed.

Lemma getCacheDir_injective_up_to_hyphens_witness :
  getCacheDir "/home/user" "@aws-sdk/client-s3" = "/home/user/.mpak/cache/aws-sdk-client-s3"
  ∧ getCacheDir "/home/user" "@aws-sdk/client-ec2" = "/home/user/.mpak/cache/aws-sdk-client-ec2"
  ∧ getCacheDir "/home/user" (scoped_name "aws-sdk" "client-s3")
      ≠ getCacheDir "/home/user" (scoped_name "aws-sdk" "client-ec2")
  ∧ getCacheDir "/home/user" "@nimblebraininc/echo"
      ≠ getCacheDir "/home/user" "@nimblebraininc/Echo2".
Proof.
  assert (name_part "aws-sdk") as Hs by (by repeat split).
  assert (name_part "client-s3") as Hn1 by (by repeat split).
  assert (name_part "client-ec2") as Hn2 by (by repeat split).
  split; [reflexivity|]. split; [reflexivity|]. split.
  - intros Heq.
    pose proof (proj2 (proj2 (proj1 (getCacheDir_injective_up_to_hyphens "/home/user")
                                "aws-sdk" "client-s3" "aws-sdk" "client-ec2"
                                Hs Hn1 Hs Hn2))
                  (or_introl eq_refl) Heq) as Hsame.
    discriminate Hsame.
  - exact (proj2 (getCacheDir_injective_up_to_hyphens "/home/user")).
Defined.

(** C3 as stated fails: a hyphen in a scope or a name is not told apart from
    the separator. *)
Lemma getCacheDir_collision :
  name_part "a-b" ∧ name_part "c" ∧ name_part "a" ∧ name_part "b-c"
  ∧ scoped_name "a-b" "c" ≠ scoped_name "a" "b-c"
  ∧ getCacheDir "/home/user" (scoped_name "a-b" "c")
      = getCacheDir "/home/user" (scoped_name "a" "b-c").
Proof. by repeat split. Qed.

(** C7, the code at a failing input. [substituteUserConfig] reads the value
    of a key with [userConfigValues[key]], which also finds what the object
    inherits from [Object.prototype]: with no resolved value at all, the
    reference to the key [constructor] is replaced by the text of the
    function [Object] instead of being left as it is; and
    [substituteEnvVars] drops an entry of the environment map whose key is
    [__proto__], the assignment to the result being taken by the setter of
    that name. For every other key the property holds: a reference that no
    reference precedes is replaced with the value of its key when the
    resolved values have one, and is left as it is when they have none and
    [Object.prototype] has no member of that name, the substitution going on
    after it; a string without a placeholder is unchanged; and
    [substituteEnvVars] substitutes in the value of every key other than
    [__proto__] and leaves the keys as they are. *)
Theorem substituteUserConfig_inherited_member :
  substituteUserConfig "${user_config.constructor}" ∅
    = "function Object() { [native code] }"
  ∧ substituteEnvVars (Some {[ "__proto__" := "x"; "DEBUG" := "true" ]}) ∅ !! "__proto__"
    = None
  ∧ ∀ userConfigValues : gmap string string,
      (∀ pre key post,
         valid_key key →
         reference_free_prefix pre (RegExp.user_config_ref key +:+ post) →
         (∀ v, userConfigValues !! key = Some v →
            substituteUserConfig (pre +:+ RegExp.user_config_ref key +:+ post)
              userConfigValues
              = pre +:+ v +:+ substituteUserConfig post userConfigValues)
         ∧ (userConfigValues !! key = None → own_name key →
            substituteUserConfig (pre +:+ RegExp.user_config_ref key +:+ post)
              userConfigValues
              = pre +:+ RegExp.user_config_ref key
                  +:+ substituteUserConfig post userConfigValues)
         ∧ (userConfigValues !! key = None →
            ∀ member, Obj.prototype key = Some member →
            substituteUserConfig (pre +:+ RegExp.user_config_ref key +:+ post)
              userConfigValues
              = pre +:+ member +:+ substituteUserConfig post userConfigValues))
      ∧ (∀ s, ¬ has_placeholder s → substituteUserConfig s userConfigValues = s)
      ∧ (∀ env key,
           key ≠ "__proto__" →
           substituteEnvVars (Some env) userConfigValues !! key
             = (λ value, substituteUserConfig value userConfigValues) <$> env !! key)
      ∧ (∀ env, dom (substituteEnvVars (Some env) userConfigValues)
                  = dom env ∖ {[ "__proto__" ]})
      ∧ substituteEnvVars None userConfigValues = ∅.
Proof.
  split; [vm_compute; reflexivity|]. split; [vm_compute; reflexivity|].
  intros userConfigValues. split; [|split; [|split; [|split]]].
  - intros pre key post Hk Hfree.
    rewrite (substituteUserConfig_prefix _ _ _ Hfree).
    rewrite (substituteUserConfig_ref _ _ _ Hk).
    split; [|split].
    + intros v Hv. by rewrite (ObjFacts.get_own _ _ _ Hv).
    + intros Hv Hown. by rewrite ObjFacts.get_own_name, Hv.
    + intros Hv member Hm. by rewrite ObjFacts.get_inherited, Hm.
  - intros s. apply substituteUserConfig_no_placeholder.
  - intros env key Hkey.
    by rewrite substituteEnvVars_fmap, lookup_fmap, lookup_delete_ne.
  - intros env. by rewrite substituteEnvVars_fmap, dom_fmap_L, dom_delete_L.
  - done.
Qed.

Lemma substituteUserConfig_inherited_member_witness :
  valid_key "found" ∧ valid_key "missing" ∧ own_name "missing"
  ∧ substituteUserConfig "k=${user_config.found}-${user_config.missing}"
      {[ "found" := "yes" ]}
    = "k=yes-${user_config.missing}".
Proof.
  assert (valid_key "found") as Hf by (by split).
  assert (valid_key "missing") as Hm by (by split).
  assert (own_name "missing") as Ho by reflexivity.
  split; [done|]. split; [done|]. split; [done|].
  destruct (substituteUserConfig_inherited_member) as (_ & _ & Hspec).
  destruct (Hspec {[ "found" := "yes" ]}) as [Href _].
  destruct (Href "k=" "found" "-${user_config.missing}" Hf) as [Hpresent _].
  { by apply reference_free_prefix_no_dollar. }
  destruct (Href "-" "missing" "" Hm) as (_ & Habsent & _).
  { by apply reference_free_prefix_no_dollar. }
  refine (eq_trans (Hpresent "yes" eq_refl) _).
  refine (eq_trans (f_equal (λ s, "k=" +:+ "yes" +:+ s) (Habsent eq_refl Ho)) _).
  vm_compute. reflexivity.
Defined.

(** C6, the code at a failing input. The loop of [gatherUserConfigValues]
    reads the stored value with [storedConfig[key]] and records its choice
    with [result[key] = ...], and both go through [Object.prototype]. For a
    field named [__proto__] with a stored value, a variable of the ambient
    environment and a default, the assignment is taken by the setter of that
    name: the resolved values hold nothing for the field, and a reference to
    it is replaced by the text of [Object.prototype]. For a field named
    [constructor] with nothing stored, the lookup answers with the function
    [Object], which is recorded in the place of the value of the ambient
    environment. For every other field the property holds: a key other than
    [__proto__] gets the stored value when there is one, whatever the
    ambient environment and the default say; a key that [Object.prototype]
    has no member for gets, with nothing stored, the value of [MPAK_CONFIG_]
    followed by the key in upper case, whatever the default says, and else
    the default. The map that the run resolves holds that value, and it is
    returned at once when no required field is left without one. *)
Theorem stored_lookup_finds_inherited_member :
  (let storedConfig : gmap string string := {[ "__proto__" := "from-store" ]} in
   let process_env : gmap string string := {[ "MPAK_CONFIG___PROTO__" := "from-env" ]} in
   let userConfig :=
     [("__proto__", example_field true (Some (DefaultString "from-default")))] in
   let values := (resolve_entries storedConfig process_env userConfig).1 in
   process_env !! envVarName "__proto__" = Some "from-env"
   ∧ dom values = ∅
   ∧ substituteUserConfig "${user_config.__proto__}" values = "[object Object]")
  ∧ (let process_env : gmap string string := {[ "MPAK_CONFIG_CONSTRUCTOR" := "from-env" ]} in
     let userConfig :=
       [("constructor", example_field true (Some (DefaultString "from-default")))] in
     process_env !! envVarName "constructor" = Some "from-env"
     ∧ (resolve_entries ∅ process_env userConfig).1 !! "constructor"
       = Some "function Object() { [native code] }")
  ∧ (∀ (storedConfig process_env : gmap string string)
       (userConfig : list (string * UserConfigField)) (key : string)
       (field : UserConfigField),
       NoDup userConfig.*1 → (key, field) ∈ userConfig →
       JS.upper_in_range key = true →
       let chosen := (resolve_entries storedConfig process_env userConfig).1 !! key in
       (key ≠ "__proto__" → ∀ sv, storedConfig !! key = Some sv → chosen = Some sv)
       ∧ (own_name key → storedConfig !! key = None →
          ∀ ev, process_env !! ("MPAK_CONFIG_" +:+ JS.toUpperCase key) = Some ev →
          chosen = Some ev)
       ∧ (own_name key → storedConfig !! key = None →
          process_env !! ("MPAK_CONFIG_" +:+ JS.toUpperCase key) = None →
          ∀ d, default field = Some d → chosen = Some (String_ d))
       ∧ (key ≠ "__proto__" → storedConfig !! key = None →
          ∀ member, Obj.prototype key = Some member → chosen = Some member)
       ∧ (key = "__proto__" → chosen = None))
  ∧ (∀ (h : Host) (name : string) (manifest : McpbManifest)
       (userConfig : list (string * UserConfigField)) (key : string)
       (field : UserConfigField) (w : World) (stored : option (gmap string string))
       (cm : ConfigManager.t),
       user_config manifest = Some userConfig →
       NoDup userConfig.*1 → (key, field) ∈ userConfig → keys_in_range userConfig →
       own_name name → schema_file (ConfigManager.disk (manager w)) →
       ConfigManager.getPackageConfig (Date_toISOString h)
         (ConfigManager.new (homedir h) (ConfigManager.disk (manager w))) name
         = (inr stored, cm) →
       let storedConfig := from_option id ∅ stored in
       let chosen := (resolve_entries storedConfig (process_env h) userConfig).1 !! key in
       (∀ values w',
          resolve_user_config h name manifest w = (Returned values, w') →
          is_Some chosen → values !! key = chosen)
       ∧ (filter (λ e, unresolved_required storedConfig (process_env h) e = true) userConfig
            = [] →
          resolve_user_config h name manifest w
            = (Returned (resolve_entries storedConfig (process_env h) userConfig).1,
               managed w cm))).
Proof.
  split; [repeat split; vm_compute; reflexivity|].
  split; [repeat split; vm_compute; reflexivity|]. split.
  - intros storedConfig process_env userConfig key field Hnd Hin _ chosen.
    assert (key ≠ "__proto__" →
            chosen = resolved_value storedConfig process_env key field) as Hspec
      by (intros Hkey; by apply resolve_entries_declared).
    unfold resolved_value, envVarName in Hspec.
    split; [|split; [|split; [|split]]].
    + intros Hkey sv Hs. by rewrite Hspec, (ObjFacts.get_own _ _ _ Hs).
    + intros Hown Hs ev He.
      rewrite Hspec by (by apply ObjFacts.own_name_proto).
      by rewrite ObjFacts.get_own_name, Hs, He.
    + intros Hown Hs He d Hd.
      rewrite Hspec by (by apply ObjFacts.own_name_proto).
      by rewrite ObjFacts.get_own_name, Hs, He, Hd.
    + intros Hkey Hs member Hm. by rewrite Hspec, ObjFacts.get_inherited, Hm.
    + intros ->. apply resolve_entries_proto.
  - intros h name manifest userConfig key field w stored cm Hu Hnd Hin _ _ _ Hload.
    cbv zeta.
    set (storedConfig := from_option id ∅ stored).
    set (chosen := (resolve_entries storedConfig (process_env h) userConfig).1 !! key).
    assert (userConfig ≠ []) as Hne by (intros ->; by apply elem_of_nil in Hin).
    rewrite (resolve_user_config_declared _ _ _ _ _ Hu Hne).
    split.
    + intros values w' Hg Hsome.
      apply (gather_lookup h name userConfig
             (managed w (ConfigManager.new (homedir h) (ConfigManager.disk (manager w))))
             stored cm Hload _ _ _ Hg).
      intros Hmiss. rewrite <- resolve_entries_missing in Hmiss.
      apply (missing_key _ _ _ _ _ Hnd Hin) in Hmiss.
      unfold unresolved_required in Hmiss. apply andb_true_iff in Hmiss as [Hnone _].
      apply bool_decide_eq_true in Hnone. cbn [fst snd] in Hnone.
      destruct (decide (key = "__proto__")) as [->|Hkey].
      * unfold chosen in Hsome. rewrite resolve_entries_proto in Hsome.
        by destruct Hsome.
      * unfold chosen in Hsome.
        rewrite (resolve_entries_declared _ _ _ _ _ Hnd Hin Hkey) in Hsome.
        fold storedConfig in Hnone. rewrite Hnone in Hsome. by destruct Hsome.
    + intros Hmiss.
      exact (gather_resolved h name userConfig
             (managed w (ConfigManager.new (homedir h) (ConfigManager.disk (manager w))))
             stored cm Hload Hmiss).
Qed.

Lemma stored_lookup_finds_inherited_member_witness :
  (resolve_entries {[ "api_key" := "from-store" ]}
     {[ "MPAK_CONFIG_API_KEY" := "from-env"; "MPAK_CONFIG_REGION" := "env-region" ]}
     example_fields).1 !! "api_key" = Some "from-store"
  ∧ (resolve_entries {[ "api_key" := "from-store" ]}
       {[ "MPAK_CONFIG_API_KEY" := "from-env"; "MPAK_CONFIG_REGION" := "env-region" ]}
       example_fields).1 !! "region" = Some "env-region".
Proof.
  assert (NoDup example_fields.*1) as Hnd
    by (by apply (bool_decide_unpack (NoDup example_fields.*1))).
  assert (("api_key", example_field true (Some (DefaultString "from-default")))
            ∈ example_fields) as Hin1 by apply list_elem_of_here.
  assert (("region", example_field false (Some (DefaultString "default-region")))
            ∈ example_fields) as Hin2
    by (apply list_elem_of_further, list_elem_of_here).
  destruct stored_lookup_finds_inherited_member as (_ & _ & Hloop & _).
  set (process_env := {[ "MPAK_CONFIG_API_KEY" := "from-env";
                         "MPAK_CONFIG_REGION" := "env-region" ]} : gmap string string).
  assert ("api_key" ≠ "__proto__") as Hkey by discriminate.
  split.
  - exact (proj1 (Hloop {[ "api_key" := "from-store" ]} process_env _ _ _ Hnd Hin1 eq_refl)
             Hkey "from-store" eq_refl).
  - exact (proj1 (proj2 (Hloop {[ "api_key" := "from-store" ]} process_env _ _ _
                           Hnd Hin2 eq_refl))
             eq_refl eq_refl "env-region" eq_refl).
Defined.

(** C10, the code at a failing input. For a declared field named [toString]
    that is not required and has no stored value, no [MPAK_CONFIG_] variable
    and no default, the lookup in the stored configuration answers with the
    function that every object inherits: the resolved values that the run
    gathers hold the text of that function for the field, and it replaces
    the references to the field in the strings and in the values of the
    environment map. For every field whose key [Object.prototype] has no
    member for, the property holds: the loop gives it no entry and does not
    count it among the fields to ask for or to report as missing; the map
    that the run resolves has no entry for it, so a reference to it stays as
    it is in every string that [substituteUserConfig] is applied to and in
    every value of the environment map; and when no other field is missing
    the map is returned at once, with nothing written and nothing asked. *)
Theorem optional_field_inherited_member :
  (let h := example_host ∅ "1.0.0" in
   let userConfig := [("toString", example_field false None)] in
   let gathered :=
     (resolve_user_config h "@acme/tool" (example_manifest (Some userConfig))
        (example_world h (Some userConfig))).1 in
   ∃ values,
     gathered = Returned values
     ∧ values !! "toString" = Some "function toString() { [native code] }"
     ∧ substituteUserConfig "--format=${user_config.toString}" values
       = "--format=function toString() { [native code] }"
     ∧ substituteEnvVars (Some {[ "FORMAT" := "${user_config.toString}" ]}) values
         !! "FORMAT"
       = Some "function toString() { [native code] }")
  ∧ (∀ (h : Host) (name : string) (manifest : McpbManifest)
       (userConfig : list (string * UserConfigField)) (key : string)
       (field : UserConfigField) (w : World) (stored : option (gmap string string))
       (cm : ConfigManager.t),
       user_config manifest = Some userConfig →
       NoDup userConfig.*1 → (key, field) ∈ userConfig → keys_in_range userConfig →
       own_name name → schema_file (ConfigManager.disk (manager w)) →
       ConfigManager.getPackageConfig (Date_toISOString h)
         (ConfigManager.new (homedir h) (ConfigManager.disk (manager w))) name
         = (inr stored, cm) →
       own_name key →
       truthy_bool (required field) = false →
       from_option id ∅ stored !! key = None →
       process_env h !! ("MPAK_CONFIG_" +:+ JS.toUpperCase key) = None →
       default field = None →
       let resolution :=
         resolve_entries (from_option id ∅ stored) (process_env h) userConfig in
       resolution.1 !! key = None
       ∧ (key ∉ resolution.2.*1)
       ∧ (∀ values w',
            resolve_user_config h name manifest w = (Returned values, w') →
            values !! key = None
            ∧ (∀ pre post,
                 valid_key key →
                 reference_free_prefix pre (RegExp.user_config_ref key +:+ post) →
                 substituteUserConfig (pre +:+ RegExp.user_config_ref key +:+ post) values
                   = pre +:+ RegExp.user_config_ref key
                       +:+ substituteUserConfig post values)
            ∧ (∀ env variable,
                 valid_key key → variable ≠ "__proto__" →
                 env !! variable = Some (RegExp.user_config_ref key) →
                 substituteEnvVars (Some env) values !! variable
                   = Some (RegExp.user_config_ref key)))
       ∧ (resolution.2 = [] →
          resolve_user_config h name manifest w = (Returned resolution.1, managed w cm)
          ∧ trace (managed w cm) = trace w)).
Proof.
  split.
  { eexists. split; [vm_compute; reflexivity|]. repeat split; vm_compute; reflexivity. }
  intros h name manifest userConfig key field w stored cm Hu Hnd Hin _ _ _ Hload
    Hown Hreq Hs He Hd resolution.
  pose proof (ObjFacts.own_name_proto _ Hown) as Hkey.
  assert (userConfig ≠ []) as Hne by (intros ->; by apply elem_of_nil in Hin).
  rewrite (resolve_user_config_declared _ _ _ _ _ Hu Hne).
  assert (resolved_value (from_option id ∅ stored) (process_env h) key field = None)
    as Hvalue.
  { unfold resolved_value, envVarName. by rewrite ObjFacts.get_own_name, Hs, He, Hd. }
  assert (resolution.1 !! key = None) as Hnone.
  { unfold resolution. by rewrite (resolve_entries_declared _ _ _ _ _ Hnd Hin Hkey). }
  assert (key ∉ (resolution.2).*1) as Hnot.
  { intros Hm. apply (missing_key _ _ _ _ _ Hnd Hin) in Hm.
    unfold unresolved_required in Hm. apply andb_true_iff in Hm as [_ Hm].
    cbn [snd] in Hm. congruence. }
  split; [done|]. split; [done|]. split.
  - intros values w' Hg.
    assert (values !! key = None) as Hv.
    { rewrite <- Hnone.
      apply (gather_lookup h name userConfig
             (managed w (ConfigManager.new (homedir h) (ConfigManager.disk (manager w))))
             stored cm Hload _ _ _ Hg).
      by rewrite <- resolve_entries_missing. }
    assert (∀ post, valid_key key →
              substituteUserConfig (RegExp.user_config_ref key +:+ post) values
                = RegExp.user_config_ref key +:+ substituteUserConfig post values)
      as Href.
    { intros post Hk. rewrite substituteUserConfig_ref by done.
      by rewrite ObjFacts.get_own_name, Hv. }
    split; [done|]. split.
    + intros pre post Hk Hfree.
      by rewrite (substituteUserConfig_prefix _ _ _ Hfree), Href.
    + intros env variable Hk Hvar Hname.
      rewrite substituteEnvVars_fmap, lookup_fmap, lookup_delete_ne, Hname by done.
      simpl. f_equal.
      rewrite <- (JSFacts.app_nil_r (RegExp.user_config_ref key)) at 1.
      by rewrite Href, substituteUserConfig_nil, JSFacts.app_nil_r.
  - intros Hm. split; [|done].
    apply (gather_resolved h name userConfig
             (managed w (ConfigManager.new (homedir h) (ConfigManager.disk (manager w))))
             stored cm Hload).
    by rewrite <- resolve_entries_missing.
Qed.

Lemma optional_field_inherited_member_witness :
  (resolve_entries ∅ ∅ example_fields).1 !! "proxy" = None
  ∧ "proxy" ∉ ((resolve_entries ∅ ∅ example_fields).2).*1.
Proof.
  set (h := example_host ∅ "1.0.0").
  assert (NoDup example_fields.*1) as Hnd
    by (by apply (bool_decide_unpack (NoDup example_fields.*1))).
  assert (("proxy", example_field false None) ∈ example_fields) as Hin
    by (do 2 apply list_elem_of_further; apply list_elem_of_here).
  assert (keys_in_range example_fields) as Hrange by (by repeat constructor).
  assert (ConfigManager.getPackageConfig (Date_toISOString h)
            (ConfigManager.new (homedir h)
               (ConfigManager.disk (manager (example_world h (Some example_fields)))))
            "@acme/tool"
          = (inr None,
             (ConfigManager.loadConfig (Date_toISOString h)
                (ConfigManager.new (homedir h)
                   (ConfigManager.disk
                      (manager (example_world h (Some example_fields)))))).2))
    as Hload by (vm_compute; reflexivity).
  destruct (proj2 optional_field_inherited_member h "@acme/tool"
              (example_manifest (Some example_fields)) example_fields "proxy"
              (example_field false None) (example_world h (Some example_fields))
              None _ eq_refl Hnd Hin Hrange eq_refl I Hload
              eq_refl eq_refl eq_refl eq_refl eq_refl) as (H1 & H2 & _).
  exact (conj H1 H2).
Defined.

(** C9, the code at a failing input. In a run without a terminal whose
    manifest declares a required field named [constructor], with no stored
    value, no [MPAK_CONFIG_] variable and no default, the lookup in the
    stored configuration answers with the function [Object], so the field
    does not count as missing: nothing is reported and the child is spawned.
    For a required field whose key [Object.prototype] has no member for, the
    property holds: once the cache is in place, [handleRun] writes the missing
    keys, the [mpak config set] command and the environment variables that
    would supply them, and exits with status 1; nothing else is done after
    the cache was refreshed, and no child is spawned in the whole run. *)
Theorem required_field_inherited_member :
  (let h := example_host ∅ "1.0.0" in
   let userConfig := [("constructor", example_field true None)] in
   let run := handleRun h "@acme/tool" {| update := None |}
                (example_world h (Some userConfig)) in
   stdin_isTTY h = false
   ∧ run.1 = Returned ()
   ∧ trace run.2
     = [Spawn "node" ["/home/user/.mpak/cache/acme-tool/index.js"]
          {[ "API_KEY" := "${user_config.api_key}"; "LOG_LEVEL" := "info" ]}
          "/home/user/.mpak/cache/acme-tool"])
  ∧ (∀ (h : Host) (packageSpec : string) (options : RunOptions) (w w1 : World)
       (manifest : McpbManifest) (userConfig : list (string * UserConfigField))
       (key : string) (field : UserConfigField) (stored : option (gmap string string))
       (cm : ConfigManager.t),
       let name := spec_name (parsePackageSpec packageSpec) in
       let cacheDir := getCacheDir (homedir h) name in
       stdin_isTTY h = false →
       refresh_cache h name (spec_version (parsePackageSpec packageSpec)) options cacheDir w
         = (Returned (), w1) →
       manifest_file w1 = Some manifest →
       user_config manifest = Some userConfig →
       keys_in_range userConfig →
       own_name name → schema_file (ConfigManager.disk (manager w1)) →
       ConfigManager.getPackageConfig (Date_toISOString h)
         (ConfigManager.new (homedir h) (ConfigManager.disk (manager w1))) name
         = (inr stored, cm) →
       (key, field) ∈ userConfig →
       own_name key →
       truthy_bool (required field) = true →
       from_option id ∅ stored !! key = None →
       process_env h !! ("MPAK_CONFIG_" +:+ JS.toUpperCase key) = None →
       default field = None →
       let missingKeys :=
         (filter (λ e, unresolved_required (from_option id ∅ stored) (process_env h) e = true)
            userConfig).*1 in
       key ∈ missingKeys
       ∧ ∃ w', handleRun h packageSpec options w = (Exited 1, w')
           ∧ trace w' = trace w1 ++ missing_config_report name missingKeys
           ∧ ∃ es, trace w' = trace w ++ es ∧ Forall (λ e, ¬ is_spawn e) es).
Proof.
  split; [repeat split; vm_compute; reflexivity|].
  intros h packageSpec options w w1 manifest userConfig key field stored cm name cacheDir
    Htty Hrefresh Hmanifest Huc _ _ _ Hload Hin Hown Hreq Hs He Hd missingKeys.
  assert ((key, field) ∈ filter
            (λ e, unresolved_required (from_option id ∅ stored) (process_env h) e = true)
            userConfig) as Hmiss.
  { apply list_elem_of_filter. split; [|done]. unfold unresolved_required.
    cbn [fst snd]. unfold resolved_value, envVarName.
    rewrite ObjFacts.get_own_name, Hs, He, Hd, Hreq by done.
    by rewrite bool_decide_eq_true_2. }
  split.
  { unfold missingKeys. apply list_elem_of_fmap. by exists (key, field). }
  eexists. split; [|split].
  - rewrite (handleRun_refreshed _ _ _ _ _ Hrefresh).
    apply (execute_gather_Exited _ _ _ _ _ _ _ Hmanifest Huc).
    + intros ->. by apply elem_of_nil in Hin.
    + apply (gather_not_interactive h name userConfig
               (managed w1 (ConfigManager.new (homedir h) (ConfigManager.disk (manager w1))))
               stored cm Hload Htty).
      intros Hnil. rewrite Hnil in Hmiss. by apply elem_of_nil in Hmiss.
  - done.
  - destruct (emits_refresh_cache (λ e, ¬ is_spawn e)) with
      (h := h) (name := name) (requestedVersion := spec_version (parsePackageSpec packageSpec))
      (options := options) (cacheDir := cacheDir) (w := w) (o := Returned ()) (w' := w1)
      as (es & Htrace & Hes); try (intros; intros []); [done|].
    exists (es ++ missing_config_report name missingKeys). cbn [trace after managed].
    rewrite Htrace, app_assoc. split; [done|]. apply Forall_app. split; [done|].
    repeat constructor; intros [].
Qed.

Lemma required_field_inherited_member_witness :
  (handleRun (example_host ∅ "1.0.0") "@acme/tool" {| update := None |}
     (example_world (example_host ∅ "1.0.0")
        (Some [("api_key", example_field true None)]))).1
  = Exited 1.
Proof.
  set (h := example_host ∅ "1.0.0").
  set (w := example_world h (Some [("api_key", example_field true None)])).
  assert (refresh_cache h (spec_name (parsePackageSpec "@acme/tool"))
            (spec_version (parsePackageSpec "@acme/tool")) {| update := None |}
            (getCacheDir (homedir h) (spec_name (parsePackageSpec "@acme/tool"))) w
          = (Returned (), w)) as Hrefresh by (vm_compute; reflexivity).
  assert (ConfigManager.getPackageConfig (Date_toISOString h)
            (ConfigManager.new (homedir h) (ConfigManager.disk (manager w)))
            (spec_name (parsePackageSpec "@acme/tool"))
          = (inr None,
             (ConfigManager.loadConfig (Date_toISOString h)
                (ConfigManager.new (homedir h) (ConfigManager.disk (manager w)))).2))
    as Hload by (vm_compute; reflexivity).
  assert (keys_in_range [("api_key", example_field true None)]) as Hrange
    by (by repeat constructor).
  destruct (proj2 required_field_inherited_member h "@acme/tool" {| update := None |} w w
              (example_manifest (Some [("api_key", example_field true None)]))
              [("api_key", example_field true None)] "api_key" (example_field true None)
              None _ eq_refl Hrefresh eq_refl eq_refl Hrange eq_refl I Hload
              (list_elem_of_here _ _) eq_refl eq_refl eq_refl eq_refl eq_refl)
    as (_ & w' & Hrun & _).
  by rewrite Hrun.
Defined.

(** C5. Without the force-refresh flag: with no cache metadata a pull is
    required; with metadata and a requested version a pull is required exactly
    when the cached version differs from the requested one; with metadata and
    no requested version no pull is required, the run goes straight to the
    manifest of the cache and no effect of the whole run reaches the
    registry. A required pull starts by asking the registry. *)
Theorem cache_validity_decision (h : Host) (packageSpec : string) (options : RunOptions) :
  truthy_bool (update options) = false →
  let name := spec_name (parsePackageSpec packageSpec) in
  let requestedVersion := spec_version (parsePackageSpec packageSpec) in
  let cacheDir := getCacheDir (homedir h) name in
  let cachedMeta := getCacheMetadata h cacheDir in
  (cachedMeta = None → needsPull cachedMeta options requestedVersion = true)
  ∧ (∀ meta v, cachedMeta = Some meta → requestedVersion = Some v → v ≠ "" →
       (needsPull cachedMeta options requestedVersion = true ↔ version meta ≠ v))
  ∧ (∀ meta, cachedMeta = Some meta → truthy_string requestedVersion = false →
       needsPull cachedMeta options requestedVersion = false
       ∧ (∀ w, handleRun h packageSpec options w = execute h name cacheDir w)
       ∧ emits (λ e, ¬ contacts_registry e) (handleRun h packageSpec options))
  ∧ (needsPull cachedMeta options requestedVersion = true →
     ∀ w o w', handleRun h packageSpec options w = (o, w') →
       ∃ es, trace w' = trace w
               ++ GetDownloadInfo name requestedVersion (detectPlatform h) :: es).
Proof.
  intros Hupdate name requestedVersion cacheDir cachedMeta.
  split; [|split; [|split]].
  - by intros ->.
  - intros meta v -> Hv Hne. unfold needsPull. rewrite Hupdate, Hv. simpl.
    rewrite bool_decide_eq_true_2 by done. rewrite bool_decide_eq_true.
    split; intros H ?; apply H; congruence.
  - intros meta Hmeta Hv.
    assert (needsPull cachedMeta options requestedVersion = false) as Hno.
    { unfold needsPull. by rewrite Hmeta, Hupdate, Hv. }
    assert (∀ w, handleRun h packageSpec options w = execute h name cacheDir w) as Hrun.
    { intros w. apply handleRun_refreshed. by apply refresh_cache_valid. }
    split; [done|]. split; [done|].
    intros w o w' Hw. rewrite Hrun in Hw.
    revert Hw. apply emits_execute; intros; intros [].
  - intros Hpull w o w'. unfold handleRun, refresh_cache. fold name requestedVersion cacheDir.
    fold cachedMeta. rewrite Hpull. unfold pull. rewrite !bind_bind, bind_emit.
    intros Hw.
    assert (emits (λ _, True)
              (bind (match getDownloadInfo h name requestedVersion (detectPlatform h) with
                     | inl message => throw message
                     | inr downloadInfo =>
                         if stillNeedsPull cachedMeta options (bundle downloadInfo) then
                           pull_body h name cacheDir downloadInfo
                         else ret ()
                     end)
                 (λ _, execute h name cacheDir))) as Hem.
    { apply emits_bind; [|intros _; by apply emits_execute].
      unfold pull_body, extractZip, writeCacheMetadata. repeat emits_step. }
    destruct (Hem _ _ _ Hw) as (es & Htrace & _). exists es.
    rewrite Htrace. cbn [trace after]. by rewrite <- app_assoc.
Qed.

Lemma cache_validity_decision_witness :
  let h := example_host ∅ "1.0.0" in
  needsPull (getCacheMetadata h (getCacheDir (homedir h) "@acme/tool"))
    {| update := None |} None = false
  ∧ ∀ w, handleRun h "@acme/tool" {| update := None |} w
         = execute h "@acme/tool" (getCacheDir (homedir h) "@acme/tool") w.
Proof.
  intros h.
  destruct (cache_validity_decision h "@acme/tool" {| update := None |} eq_refl)
    as (_ & _ & Hlatest & _).
  destruct (Hlatest {| version := "1.0.0"; pulledAt := "2023-12-31T00:00:00.000Z";
                       platform := example_platform |} eq_refl eq_refl)
    as (Hno & Hrun & _).
  split; [exact Hno|exact Hrun].
Defined.

(** C4, amended. With cache metadata, when the registry resolves the request
    to the cached version: without the force-refresh flag, a run that had to
    ask the registry (the requested version is not the cached one) downloads
    and extracts nothing and goes on with the cache as it is; with the
    force-refresh flag the bundle is downloaded and extracted all the same,
    and the run goes on with the new cache. *)
Theorem pull_when_cache_is_current (h : Host) (packageSpec : string)
    (options : RunOptions) (w : World) (meta : CacheMetadata) (info : DownloadInfo) :
  let name := spec_name (parsePackageSpec packageSpec) in
  let requestedVersion := spec_version (parsePackageSpec packageSpec) in
  let cacheDir := getCacheDir (homedir h) name in
  let tempPath := Path.join [homedir h; ".mpak"; "tmp"; Date_now h +:+ ".mcpb"] in
  getCacheMetadata h cacheDir = Some meta →
  getDownloadInfo h name requestedVersion (detectPlatform h) = inr info →
  bundle_version (bundle info) = version meta →
  (truthy_bool (update options) = false →
   needsPull (Some meta) options requestedVersion = true →
   handleRun h packageSpec options w
     = execute h name cacheDir
         (after w [GetDownloadInfo name requestedVersion (detectPlatform h)]))
  ∧ (truthy_bool (update options) = true →
     downloadBundle h (url info) tempPath = None →
     unzip h tempPath cacheDir = None →
     ∃ w1, refresh_cache h name requestedVersion options cacheDir w = (Returned (), w1)
         ∧ trace w1 = trace w ++ pull_events h name requestedVersion cacheDir info
         ∧ DownloadBundle (url info) tempPath ∈ trace w1
         ∧ Unzip tempPath cacheDir ∈ trace w1
         ∧ handleRun h packageSpec options w = execute h name cacheDir w1).
Proof.
  intros name requestedVersion cacheDir tempPath.
  unfold tempPath, cacheDir, requestedVersion, name.
  clear tempPath cacheDir requestedVersion name.
  set (name := spec_name (parsePackageSpec packageSpec)).
  set (requestedVersion := spec_version (parsePackageSpec packageSpec)).
  set (cacheDir := getCacheDir (homedir h) name).
  set (tempPath := Path.join [homedir h; ".mpak"; "tmp"; Date_now h +:+ ".mcpb"]).
  intros Hmeta Hinfo Hversion. split.
  - intros Hupdate Hneeds. apply handleRun_refreshed.
    fold name requestedVersion cacheDir.
    unfold refresh_cache. rewrite Hmeta, Hneeds.
    apply (pull_already_current _ _ _ _ _ _ info); [done|].
    unfold stillNeedsPull. rewrite Hupdate, Hversion.
    by rewrite bool_decide_eq_true_2.
  - intros Hupdate Hdl Hunzip.
    destruct (pull_downloads h name requestedVersion cacheDir (Some meta) options info w
                Hinfo) as (w1 & Hpull & Htrace); [|done|done|].
    { unfold stillNeedsPull. rewrite Hupdate. by rewrite andb_false_r. }
    assert (refresh_cache h name requestedVersion options cacheDir w = (Returned (), w1))
      as Hrefresh.
    { unfold refresh_cache. rewrite Hmeta. unfold needsPull. by rewrite Hupdate. }
    exists w1. split; [done|]. split; [done|]. rewrite Htrace. unfold pull_events.
    fold tempPath. split; [|split].
    + apply elem_of_app. right. apply elem_of_app. left.
      do 3 apply list_elem_of_further. apply list_elem_of_here.
    + apply elem_of_app. right. apply elem_of_app. right. apply elem_of_app. right.
      do 2 apply list_elem_of_further. apply list_elem_of_here.
    + by apply handleRun_refreshed.
Qed.

Lemma pull_when_cache_is_current_witness :
  let h := example_host ∅ "1.0.0" in
  let w := example_world h None in
  handleRun h "@acme/tool@1.0" {| update := None |} w
    = execute h "@acme/tool" (getCacheDir (homedir h) "@acme/tool")
        (after w [GetDownloadInfo "@acme/tool" (Some "1.0") example_platform]).
Proof.
  intros h w.
  exact (proj1 (pull_when_cache_is_current h "@acme/tool@1.0" {| update := None |} w
                  {| version := "1.0.0"; pulledAt := "2023-12-31T00:00:00.000Z";
                     platform := example_platform |}
                  {| url := "https://registry.example/@acme/tool";
                     bundle := {| bundle_version := "1.0.0";
                                  bundle_platform := example_platform |} |}
                  eq_refl eq_refl eq_refl) eq_refl eq_refl).
Defined.

(** C4 as stated fails: with the force-refresh flag the bundle is downloaded
    and extracted although the registry resolves to the cached version. *)
Lemma forced_pull_downloads_current_version :
  let h := example_host ∅ "1.0.0" in
  truthy_bool (update {| update := Some true |}) = true
  ∧ version <$> getCacheMetadata h (getCacheDir (homedir h) "@acme/tool") = Some "1.0.0"
  ∧ getDownloadInfo h "@acme/tool" None example_platform
      = inr {| url := "https://registry.example/@acme/tool";
               bundle := {| bundle_version := "1.0.0";
                            bundle_platform := example_platform |} |}
  ∧ trace (handleRun h "@acme/tool" {| update := Some true |} (example_world h None)).2
    = [GetDownloadInfo "@acme/tool" None example_platform;
       MkdirSync "/home/user/.mpak/tmp";
       Stderr ("=> Pulling @acme/tool@1.0.0..." +:+ JS.nl);
       DownloadBundle "https://registry.example/@acme/tool"
         "/home/user/.mpak/tmp/1700000000000.mcpb";
       RmSync "/home/user/.mpak/cache/acme-tool";
       MkdirSync "/home/user/.mpak/cache/acme-tool";
       MkdirSync "/home/user/.mpak/cache/acme-tool";
       Unzip "/home/user/.mpak/tmp/1700000000000.mcpb" "/home/user/.mpak/cache/acme-tool";
       WriteCacheMetadata "/home/user/.mpak/cache/acme-tool"
         {| version := "1.0.0"; pulledAt := "2024-01-01T00:00:00.000Z";
            platform := example_platform |};
       RmSync "/home/user/.mpak/tmp/1700000000000.mcpb";
       Stderr ("=> Cached @acme/tool@1.0.0" +:+ JS.nl);
       Spawn "node" ["/home/user/.mpak/cache/acme-tool/index.js"]
         {[ "API_KEY" := "${user_config.api_key}"; "LOG_LEVEL" := "info" ]}
         "/home/user/.mpak/cache/acme-tool"].
Proof. repeat split; vm_compute; reflexivity. Qed.

(** C1, the code at a failing input. [handleRun] builds the environment of
    the child as [{ ...process.env, ...substitutedEnv }]: in every run that
    spawns a child, a key of the substituted environment of the manifest
    keeps the value it has there, whatever the ambient environment holds for
    it ([PYTHONPATH] aside, which a python server sets last). Here the
    manifest sets [LOG_LEVEL] to [info], the ambient environment to [debug],
    and the child is spawned with [info]. *)
Theorem spawn_env_manifest_over_ambient :
  (∀ h packageSpec options w o w' command args childEnv cwd,
     handleRun h packageSpec options w = (o, w') →
     Spawn command args childEnv cwd ∈ new_events w w' →
     ∃ w1 manifest userConfigValues w2,
       refresh_cache h (spec_name (parsePackageSpec packageSpec))
         (spec_version (parsePackageSpec packageSpec)) options
         (getCacheDir (homedir h) (spec_name (parsePackageSpec packageSpec))) w
         = (Returned (), w1)
       ∧ manifest_file w1 = Some manifest
       ∧ resolve_user_config h (spec_name (parsePackageSpec packageSpec)) manifest w1
           = (Returned userConfigValues, w2)
       ∧ ∀ key v,
           key ≠ "PYTHONPATH" →
           substituteEnvVars (env (mcp_config (server manifest))) userConfigValues !! key
             = Some v →
           childEnv !! key = Some v)
  ∧ (let h := example_host {[ "LOG_LEVEL" := "debug"; "HOME" := "/home/user" ]} "1.0.0" in
     process_env h !! "LOG_LEVEL" = Some "debug"
     ∧ map_to_list
         <$> spawned_env (handleRun h "@acme/tool" {| update := None |}
                            (example_world h None)).2
       = Some (map_to_list
                 ({[ "API_KEY" := "${user_config.api_key}"; "LOG_LEVEL" := "info";
                     "HOME" := "/home/user" ]} : gmap string string))).
Proof.
  split.
  - intros h packageSpec options w o w' command args childEnv cwd.
    apply handleRun_spawned.
  - split; vm_compute; reflexivity.
Qed.

(** C8, the code at a failing input. A configuration file whose [packages]
    is a JSON array does not conform to the schema, and [loadConfig] returns
    it as a valid configuration: [validateConfig] tests [typeof] against
    ["object"], which an array passes. Every file that [validateConfig] does
    not accept, any file outside the schema but for such arrays among them,
    makes [loadConfig] throw a [ConfigCorruptedError] and leaves the file as
    it is; every file that conforms is loaded. *)
Theorem loadConfig_accepts_array_packages :
  (conforms example_array_config = false
   ∧ (ConfigManager.loadConfig "2024-06-01T00:00:00.000Z"
        (ConfigManager.new "/home/user" (ConfigManager.Parsed example_array_config))).1
     = inr {| ConfigManager.config_version := "1.0.0";
              ConfigManager.lastUpdated := "2024-01-01T00:00:00Z";
              ConfigManager.registryUrl := None;
              ConfigManager.packages := Some ∅ |})
  ∧ (∀ now homedir data,
       accepted data = false →
       ∃ e, ConfigManager.loadConfig now
              (ConfigManager.new homedir (ConfigManager.Parsed data))
            = (inl e, ConfigManager.new homedir (ConfigManager.Parsed data)))
  ∧ (∀ now homedir data,
       conforms data = true →
       (ConfigManager.loadConfig now
          (ConfigManager.new homedir (ConfigManager.Parsed data))).1
         = inr (ConfigManager.as_MpakConfig data))
  ∧ (∀ now homedir err,
       ∃ e1 e2,
         ConfigManager.loadConfig now (ConfigManager.new homedir (ConfigManager.NotJSON err))
           = (inl e1, ConfigManager.new homedir (ConfigManager.NotJSON err))
         ∧ ConfigManager.loadConfig now
             (ConfigManager.new homedir (ConfigManager.Unreadable err))
           = (inl e2, ConfigManager.new homedir (ConfigManager.Unreadable err))).
Proof.
  split; [split; vm_compute; reflexivity|]. split; [|split].
  - intros now homedir data Hacc. unfold ConfigManager.loadConfig. cbn [ConfigManager.new
      ConfigManager.config ConfigManager.disk ConfigManager.configFile].
    pose proof (validateConfig_accepted data
                  (Path.join [Path.join [homedir; ".mpak"]; "config.json"])) as Hv.
    rewrite Hacc in Hv. destruct Hv as [msg ->]. eauto.
  - intros now homedir data Hconf. unfold ConfigManager.loadConfig. cbn [ConfigManager.new
      ConfigManager.config ConfigManager.disk ConfigManager.configFile].
    pose proof (validateConfig_accepted data
                  (Path.join [Path.join [homedir; ".mpak"]; "config.json"])) as Hv.
    rewrite (conforms_accepted _ Hconf) in Hv. by rewrite Hv.
  - intros now homedir err. by do 2 eexists.
Qed.

(** The earlier [loadConfig], at a file that is not JSON: it answers with a
    fresh configuration and writes it over the file. *)
Lemma legacy_loadConfig_resets :
  ConfigManager0.loadConfig "2024-06-01T00:00:00.000Z"
    {| ConfigManager0.disk := ConfigManager.NotJSON "Unexpected token";
       ConfigManager0.config := None |}
  = (ConfigManager0.fresh "2024-06-01T00:00:00.000Z",
     {| ConfigManager0.disk :=
          ConfigManager.Parsed (ConfigManager0.fresh "2024-06-01T00:00:00.000Z");
        ConfigManager0.config := Some (ConfigManager0.fresh "2024-06-01T00:00:00.000Z") |}).
Proof. vm_compute. reflexivity. Qed.

(** * Further properties of the configuration store and of its commands *)

(** X1. Over a configuration file that conforms to the schema, and for
    package names and keys that [Object.prototype] has no member for: once
    [setPackageConfigValue] has stored a value, the manager finds it under
    its package and key, and every other key of every package has the value
    it had; a manager started later on the same file finds the same. *)
Theorem setPackageConfigValue_then_get (now : string) (cm : ConfigManager.t)
    (c : ConfigManager.MpakConfig) (packageName key value : string) :
  schema_file (ConfigManager.disk cm) → own_name packageName → own_name key →
  loads now cm c →
  let cm' := (ConfigManager.setPackageConfigValue now cm packageName key value).2 in
  (ConfigManager.setPackageConfigValue now cm packageName key value).1 = inr ()
  ∧ ∀ now' homedir packageName' key',
      own_name packageName' → own_name key' →
      let expected :=
        if decide (packageName' = packageName ∧ key' = key) then Some value
        else stored_value c packageName' key' in
      (ConfigManager.getPackageConfigValue now' cm' packageName' key').1 = inr expected
      ∧ found_after_restart now' homedir cm' packageName' key' = inr expected.
Proof.
  unfold loads. intros _ _ Hkey%ObjFacts.own_name_proto Hload. cbv zeta.
  unfold ConfigManager.setPackageConfigValue.
  destruct (ConfigManager.loadConfig now cm) as [[e|c'] cm1] eqn:H; [done|].
  cbn in Hload. injection Hload as ->. cbn [fst snd]. split; [done|].
  intros now' homedir packageName' key' _ Hkey'. rewrite saveConfig_spec.
  rewrite ObjFacts.set_ne by done.
  erewrite getPackageConfigValue_cached by (done || reflexivity).
  erewrite found_after_restart_saved by (done || reflexivity).
  cbn [fst]. unfold stamped. cbn [ConfigManager.config_version ConfigManager.lastUpdated
    ConfigManager.registryUrl ConfigManager.packages].
  by rewrite stored_value_insert.
Qed.

Lemma setPackageConfigValue_then_get_witness :
  let cm := ConfigManager.new "/home/user" ConfigManager.Missing in
  let cm' := (ConfigManager.setPackageConfigValue "2024-01-01T00:00:00.000Z" cm
                "@acme/tool" "api_key" "secret").2 in
  (ConfigManager.getPackageConfigValue "2024-01-02T00:00:00.000Z" cm'
     "@acme/tool" "api_key").1 = inr (Some "secret")
  ∧ found_after_restart "2024-01-02T00:00:00.000Z" "/home/user" cm' "@acme/tool" "region"
    = inr None.
Proof.
  intros cm cm'.
  destruct (setPackageConfigValue_then_get "2024-01-01T00:00:00.000Z" cm
              {| ConfigManager.config_version := "1.0.0";
                 ConfigManager.lastUpdated := "2024-01-01T00:00:00.000Z";
                 ConfigManager.registryUrl := None;
                 ConfigManager.packages := None |}
              "@acme/tool" "api_key" "secret" I eq_refl eq_refl eq_refl) as [_ H].
  split.
  - exact (proj1 (H "2024-01-02T00:00:00.000Z" "/home/user" "@acme/tool" "api_key"
                    eq_refl eq_refl)).
  - exact (proj2 (H "2024-01-02T00:00:00.000Z" "/home/user" "@acme/tool" "region"
                    eq_refl eq_refl)).
Defined.


(** X3. Over a configuration file that conforms to the schema, and for
    package names and keys that [Object.prototype] has no member for:
    [clearPackageConfigValue] answers [true] exactly when a value was
    stored under the key. Afterwards the key has no value and every other
    key of every package has the value it had; a package whose last key
    was cleared has no entry left. When nothing was stored, nothing is
    written. *)
Theorem clearPackageConfigValue_spec (now : string) (cm : ConfigManager.t)
    (c : ConfigManager.MpakConfig) (packageName key : string) :
  schema_file (ConfigManager.disk cm) → own_name packageName → own_name key →
  loads now cm c →
  let cm' := (ConfigManager.clearPackageConfigValue now cm packageName key).2 in
  (ConfigManager.clearPackageConfigValue now cm packageName key).1
    = inr (bool_decide (is_Some (stored_value c packageName key)))
  ∧ (∀ now' packageName' key',
       own_name packageName' → own_name key' →
       (ConfigManager.getPackageConfigValue now' cm' packageName' key').1
       = inr (if decide (packageName' = packageName ∧ key' = key) then None
              else stored_value c packageName' key'))
  ∧ (∀ now' pkg,
       ConfigManager.packages c ≫= (.!! packageName) = Some pkg →
       is_Some (pkg !! key) →
       (ConfigManager.getPackageConfig now' cm' packageName).1
       = inr (if decide (delete key pkg = ∅) then None else Some (delete key pkg)))
  ∧ (stored_value c packageName key = None →
     ConfigManager.disk cm' = ConfigManager.disk (ConfigManager.loadConfig now cm).2).
Proof.
  intros _ _ Hkey (cm1 & Hload & Hc)%loads_inv. cbv zeta.
  unfold ConfigManager.clearPackageConfigValue. rewrite Hload.
  rewrite bind_get_own_name by done.
  fold (stored_value c packageName key).
  destruct (stored_value c packageName key) as [v|] eqn:Hv; cbn [fst snd].
  - rewrite saveConfig_spec.
    unfold stored_value in Hv.
    destruct (ConfigManager.packages c) as [pkgs|] eqn:Hpkgs; [|done].
    cbn [mbind option_bind] in Hv.
    destruct (pkgs !! packageName) as [pkg|] eqn:Hpkg; [|done].
    cbn [mbind option_bind from_option id] in Hv |- *.
    rewrite ?Hpkg. cbn [from_option id].
    split; [done|]. split; [|split; [|done]].
    + intros now' packageName' key' _ Hkey'.
      erewrite getPackageConfigValue_cached by (done || reflexivity). cbn [fst]. f_equal.
      by apply stored_value_cleared.
    + intros now' pkg' [= <-] _. unfold ConfigManager.getPackageConfig.
      erewrite loadConfig_cached by reflexivity. cbn [fst]. f_equal.
      unfold stamped. cbn [ConfigManager.packages mbind option_bind].
      destruct (decide (length (map_to_list (delete key pkg)).*1 = 0%nat)) as [He|He];
        cbv beta iota.
      * rewrite lookup_delete_eq. apply keys_length_zero in He. by rewrite decide_True.
      * rewrite lookup_insert_eq. rewrite decide_False; [done|].
        intros H. by apply keys_length_zero in H.
  - split; [done|]. split; [|split; [|done]].
    + intros now' packageName' key' _ Hkey'.
      rewrite (getPackageConfigValue_cached _ _ _ _ _ Hkey' Hc). cbn [fst]. f_equal.
      case_decide as Hd; [|done]. destruct Hd as [Hp Hk]. by rewrite Hp, Hk.
    + intros now' pkg Hpkg [v Hk]. unfold stored_value in Hv. rewrite Hpkg in Hv.
      cbn in Hv. congruence.
Qed.

Lemma clearPackageConfigValue_spec_witness :
  let cm := (ConfigManager.setPackageConfigValue "2024-01-01T00:00:00.000Z"
               (ConfigManager.new "/home/user" ConfigManager.Missing)
               "@acme/tool" "api_key" "secret").2 in
  (ConfigManager.clearPackageConfigValue "2024-01-02T00:00:00.000Z" cm
     "@acme/tool" "api_key").1 = inr true
  ∧ (ConfigManager.getPackageConfigValue "2024-01-03T00:00:00.000Z"
       (ConfigManager.clearPackageConfigValue "2024-01-02T00:00:00.000Z" cm
          "@acme/tool" "api_key").2 "@acme/tool" "api_key").1 = inr None.
Proof.
  intros cm.
  destruct (clearPackageConfigValue_spec "2024-01-02T00:00:00.000Z" cm
              {| ConfigManager.config_version := "1.0.0";
                 ConfigManager.lastUpdated := "2024-01-01T00:00:00.000Z";
                 ConfigManager.registryUrl := None;
                 ConfigManager.packages :=
                   Some {[ "@acme/tool" := {[ "api_key" := "secret" ]} ]} |}
              "@acme/tool" "api_key") as (H1 & H2 & _).
  { vm_compute. intros _. reflexivity. }
  { reflexivity. }
  { reflexivity. }
  { vm_compute. reflexivity. }
  split.
  - exact H1.
  - exact (H2 "2024-01-03T00:00:00.000Z" "@acme/tool" "api_key" eq_refl eq_refl).
Defined.

(** X4. Over a configuration file that conforms to the schema, and for
    package names and keys that [Object.prototype] has no member for:
    [clearPackageConfig] answers [true] exactly when the package has an
    entry. Afterwards the package has no entry and no value, and the values
    of every other package are as they were. *)
Theorem clearPackageConfig_spec (now : string) (cm : ConfigManager.t)
    (c : ConfigManager.MpakConfig) (packageName : string) :
  schema_file (ConfigManager.disk cm) → own_name packageName →
  loads now cm c →
  let cm' := (ConfigManager.clearPackageConfig now cm packageName).2 in
  (ConfigManager.clearPackageConfig now cm packageName).1
    = inr (bool_decide (is_Some (ConfigManager.packages c ≫= (.!! packageName))))
  ∧ (∀ now', (ConfigManager.getPackageConfig now' cm' packageName).1 = inr None)
  ∧ (∀ now' packageName' key',
       own_name packageName' → own_name key' →
       (ConfigManager.getPackageConfigValue now' cm' packageName' key').1
       = inr (if decide (packageName' = packageName) then None
              else stored_value c packageName' key')).
Proof.
  intros _ _ (cm1 & Hload & Hc)%loads_inv. cbv zeta.
  unfold ConfigManager.clearPackageConfig. rewrite Hload.
  destruct (ConfigManager.packages c ≫= (.!! packageName)) as [pkg|] eqn:Hpkg;
    cbn [fst snd].
  - rewrite saveConfig_spec. split; [done|].
    destruct (ConfigManager.packages c) as [pkgs|] eqn:Hpkgs; [|done].
    split.
    + intros now'. unfold ConfigManager.getPackageConfig.
      erewrite loadConfig_cached by reflexivity. cbn [fst]. f_equal.
      unfold stamped. cbn. apply lookup_delete_eq.
    + intros now' packageName' key' _ Hkey'.
      erewrite getPackageConfigValue_cached by (done || reflexivity). cbn [fst]. f_equal.
      rewrite <- Hpkgs. apply stored_value_deleted.
  - split; [done|]. split.
    + intros now'. unfold ConfigManager.getPackageConfig.
      rewrite (loadConfig_cached _ _ _ Hc). cbn [fst]. by rewrite Hpkg.
    + intros now' packageName' key' _ Hkey'.
      rewrite (getPackageConfigValue_cached _ _ _ _ _ Hkey' Hc). cbn [fst]. f_equal.
      case_decide as Hd; [|done]. rewrite Hd. unfold stored_value. by rewrite Hpkg.
Qed.

Lemma clearPackageConfig_spec_witness :
  let cm := (ConfigManager.setPackageConfigValue "2024-01-01T00:00:00.000Z"
               (ConfigManager.new "/home/user" ConfigManager.Missing)
               "@acme/tool" "api_key" "secret").2 in
  (ConfigManager.clearPackageConfig "2024-01-02T00:00:00.000Z" cm "@acme/tool").1
    = inr true
  ∧ (ConfigManager.getPackageConfig "2024-01-03T00:00:00.000Z"
       (ConfigManager.clearPackageConfig "2024-01-02T00:00:00.000Z" cm "@acme/tool").2
       "@acme/tool").1 = inr None.
Proof.
  intros cm.
  destruct (clearPackageConfig_spec "2024-01-02T00:00:00.000Z" cm
              {| ConfigManager.config_version := "1.0.0";
                 ConfigManager.lastUpdated := "2024-01-01T00:00:00.000Z";
                 ConfigManager.registryUrl := None;
                 ConfigManager.packages :=
                   Some {[ "@acme/tool" := {[ "api_key" := "secret" ]} ]} |}
              "@acme/tool") as (H1 & H2 & _).
  { vm_compute. intros _. reflexivity. }
  { reflexivity. }
  { vm_compute. reflexivity. }
  split.
  - exact H1.
  - exact (H2 "2024-01-03T00:00:00.000Z").
Defined.

(** X5. Over a configuration file that conforms to the schema, and for
    package names and keys that [Object.prototype] has no member for: when
    no package of the configuration has an empty map of values, none has
    one after [setPackageConfigValue], [clearPackageConfigValue],
    [clearPackageConfig] or [setRegistryUrl]. *)
Theorem no_empty_package_kept (now : string) (cm : ConfigManager.t)
    (c : ConfigManager.MpakConfig) :
  schema_file (ConfigManager.disk cm) →
  loads now cm c →
  no_empty_package c →
  ∀ now' packageName key value url c',
    own_name packageName → own_name key →
    (loads now' (ConfigManager.setPackageConfigValue now cm packageName key value).2 c' →
     no_empty_package c')
    ∧ (loads now' (ConfigManager.clearPackageConfigValue now cm packageName key).2 c' →
       no_empty_package c')
    ∧ (loads now' (ConfigManager.clearPackageConfig now cm packageName).2 c' →
       no_empty_package c')
    ∧ (loads now' (ConfigManager.setRegistryUrl now cm url).2 c' →
       no_empty_package c').
Proof.
  intros _ (cm1 & Hload & Hc)%loads_inv Hne now' packageName key value url c' _ Hkey.
  unfold ConfigManager.setPackageConfigValue, ConfigManager.clearPackageConfigValue,
    ConfigManager.clearPackageConfig, ConfigManager.setRegistryUrl.
  rewrite Hload. cbn [snd].
  rewrite ObjFacts.set_ne by (by apply ObjFacts.own_name_proto).
  rewrite bind_get_own_name by done.
  assert (∀ pkgs p pkg, from_option id ∅ (ConfigManager.packages c) = pkgs →
            pkgs !! p = Some pkg → pkg ≠ ∅) as Hne'.
  { intros pkgs p pkg <- Hp. destruct (ConfigManager.packages c) as [m|] eqn:Hm.
    - by apply (Hne m p pkg).
    - cbn in Hp. by rewrite lookup_empty in Hp. }
  repeat split.
  - rewrite saveConfig_spec. intros ->%loads_record.
    intros pkgs p pkg [= <-] Hp. destruct (decide (p = packageName)) as [->|Hpn].
    + rewrite lookup_insert_eq in Hp. injection Hp as <-.
      apply insert_non_empty.
    + rewrite lookup_insert_ne in Hp by done. by apply (Hne' _ p pkg eq_refl).
  - destruct ((ConfigManager.packages c ≫= (.!! packageName)) ≫= (.!! key)).
    + rewrite saveConfig_spec. intros ->%loads_record.
      intros pkgs p pkg [= <-] Hp.
      destruct (decide (length (map_to_list
                  (delete key (from_option id ∅
                     (from_option id ∅ (ConfigManager.packages c) !! packageName)))).*1
                = 0%nat)) as [He|He].
      * apply lookup_delete_Some in Hp as [_ Hp]. by apply (Hne' _ p pkg eq_refl).
      * destruct (decide (p = packageName)) as [->|Hpn].
        -- rewrite lookup_insert_eq in Hp. injection Hp as <-.
           intros H. by apply keys_length_zero in H.
        -- rewrite lookup_insert_ne in Hp by done. by apply (Hne' _ p pkg eq_refl).
    + by intros ->%(loads_cached _ _ _ _ Hc).
  - destruct (ConfigManager.packages c ≫= (.!! packageName)).
    + rewrite saveConfig_spec. intros ->%loads_record.
      intros pkgs p pkg Hpkgs Hp. cbn in Hpkgs.
      destruct (ConfigManager.packages c) as [m|] eqn:Hm; [|done].
      injection Hpkgs as <-. apply lookup_delete_Some in Hp as [_ Hp].
      by apply (Hne m p pkg).
    + by intros ->%(loads_cached _ _ _ _ Hc).
  - rewrite saveConfig_spec. intros ->%loads_record.
    intros pkgs p pkg Hpkgs Hp. by apply (Hne pkgs p pkg).
Qed.

Lemma no_empty_package_kept_witness :
  no_empty_package
    {| ConfigManager.config_version := "1.0.0";
       ConfigManager.lastUpdated := "2024-01-02T00:00:00.000Z";
       ConfigManager.registryUrl := None;
       ConfigManager.packages := Some ∅ |}.
Proof.
  assert (no_empty_package
            {| ConfigManager.config_version := "1.0.0";
               ConfigManager.lastUpdated := "2024-01-01T00:00:00.000Z";
               ConfigManager.registryUrl := None;
               ConfigManager.packages :=
                 Some {[ "@acme/tool" := {[ "api_key" := "secret" ]} ]} |}) as Hne.
  { intros pkgs p pkg [= <-] Hp. apply lookup_singleton_Some in Hp as [_ <-].
    apply insert_non_empty. }
  refine (proj1 (proj2 (no_empty_package_kept "2024-01-02T00:00:00.000Z"
            {| ConfigManager.configFile := "/home/user/.mpak/config.json";
               ConfigManager.disk := ConfigManager.Missing;
               ConfigManager.config := Some _ |} _ I eq_refl Hne
            "2024-01-03T00:00:00.000Z" "@acme/tool" "api_key" "" "" _
            eq_refl eq_refl)) _).
  vm_compute. reflexivity.
Defined.

(** X6. Over a configuration file that conforms to the schema:
    [listPackagesWithConfig] names each package once, and among the names
    that [Object.prototype] has no member for it names exactly the packages
    for which [getPackageConfig] finds an entry. *)
Theorem listPackagesWithConfig_spec (now : string) (cm : ConfigManager.t)
    (c : ConfigManager.MpakConfig) :
  schema_file (ConfigManager.disk cm) →
  loads now cm c →
  ∃ names,
    (ConfigManager.listPackagesWithConfig now cm).1 = inr names
    ∧ NoDup names
    ∧ ∀ packageName,
        own_name packageName →
        (packageName ∈ names
         ↔ ∃ pkg, (ConfigManager.getPackageConfig now cm packageName).1 = inr (Some pkg)).
Proof.
  intros _ (cm1 & Hload & Hc)%loads_inv.
  unfold ConfigManager.listPackagesWithConfig, ConfigManager.getPackageConfig.
  rewrite Hload. cbn [fst]. eexists. split; [done|]. split.
  - apply NoDup_fst_map_to_list.
  - intros packageName _. rewrite list_elem_of_fmap. split.
    + intros ([p pkg] & -> & Hin). apply elem_of_map_to_list in Hin. exists pkg.
      destruct (ConfigManager.packages c) as [pkgs|]; cbn in Hin |- *.
      * by rewrite Hin.
      * by rewrite lookup_empty in Hin.
    + intros (pkg & [= Hpkg]). exists (packageName, pkg). split; [done|].
      apply elem_of_map_to_list.
      destruct (ConfigManager.packages c) as [pkgs|]; cbn in Hpkg |- *; done.
Qed.

Lemma listPackagesWithConfig_spec_witness :
  ∃ names,
    (ConfigManager.listPackagesWithConfig "2024-01-02T00:00:00.000Z"
       (ConfigManager.setPackageConfigValue "2024-01-01T00:00:00.000Z"
          (ConfigManager.new "/home/user" ConfigManager.Missing)
          "@acme/tool" "api_key" "secret").2).1 = inr names
    ∧ "@acme/tool" ∈ names.
Proof.
  destruct (listPackagesWithConfig_spec "2024-01-02T00:00:00.000Z"
              (ConfigManager.setPackageConfigValue "2024-01-01T00:00:00.000Z"
                 (ConfigManager.new "/home/user" ConfigManager.Missing)
                 "@acme/tool" "api_key" "secret").2
              {| ConfigManager.config_version := "1.0.0";
                 ConfigManager.lastUpdated := "2024-01-01T00:00:00.000Z";
                 ConfigManager.registryUrl := None;
                 ConfigManager.packages :=
                   Some {[ "@acme/tool" := {[ "api_key" := "secret" ]} ]} |})
    as (names & Hl & _ & Hin).
  { vm_compute. intros _. reflexivity. }
  { vm_compute. reflexivity. }
  exists names. split; [exact Hl|]. apply Hin; [reflexivity|].
  exists {[ "api_key" := "secret" ]}.
  vm_compute. reflexivity.
Defined.

(** X7. [getRegistryUrl] never answers the empty string: an empty
    [registryUrl] of the file and an empty [MPAK_REGISTRY_URL] count as
    absent, and the last resort is the public registry. *)
Theorem getRegistryUrl_never_empty (now : string) (process_env : gmap string string)
    (cm : ConfigManager.t) (url : string) :
  (ConfigManager.getRegistryUrl now process_env cm).1 = inr url →
  url ≠ ""
  ∧ ∀ c, loads now cm c →
      url = (if decide (ConfigManager.registryUrl c = None
                        ∨ ConfigManager.registryUrl c = Some "")
             then match process_env !! "MPAK_REGISTRY_URL" with
                  | Some e => if decide (e = "") then "https://api.mpak.dev" else e
                  | None => "https://api.mpak.dev"
                  end
             else from_option id "" (ConfigManager.registryUrl c)).
Proof.
  unfold ConfigManager.getRegistryUrl, loads.
  destruct (ConfigManager.loadConfig now cm) as [[e|c] cm1]; [done|].
  cbn [fst]. intros [= <-].
  assert (∀ o : option string, truthy_string o = true → from_option id "" o ≠ "") as Ht.
  { intros [s|] H; [|done]. by apply bool_decide_eq_true_1 in H. }
  assert (∀ o : option string,
            truthy_string o = false → o = None ∨ o = Some "") as Hf.
  { intros [s|] H; [|by left]. right. apply bool_decide_eq_false_1 in H.
    f_equal. by destruct (decide (s = "")). }
  split.
  - destruct (truthy_string (ConfigManager.registryUrl c)) eqn:H1; [by apply Ht|].
    destruct (truthy_string (process_env !! "MPAK_REGISTRY_URL")) eqn:H2;
      [by apply Ht|done].
  - intros c' [= <-].
    destruct (truthy_string (ConfigManager.registryUrl c)) eqn:H1.
    + rewrite decide_False; [done|]. apply Ht in H1.
      intros [H|H]; rewrite H in H1; done.
    + rewrite decide_True by (by apply Hf).
      destruct (truthy_string (process_env !! "MPAK_REGISTRY_URL")) eqn:H2.
      * apply Ht in H2. destruct (process_env !! "MPAK_REGISTRY_URL") as [v|]; [|done].
        by rewrite decide_False.
      * destruct (Hf _ H2) as [->| ->]; [done|]. by rewrite decide_True.
Qed.

Lemma getRegistryUrl_never_empty_witness :
  (ConfigManager.getRegistryUrl "2024-01-01T00:00:00.000Z"
     {[ "MPAK_REGISTRY_URL" := "" ]}
     (ConfigManager.new "/home/user" ConfigManager.Missing)).1
  = inr "https://api.mpak.dev"
  ∧ "https://api.mpak.dev" ≠ "".
Proof.
  split; [vm_compute; reflexivity|].
  apply (getRegistryUrl_never_empty "2024-01-01T00:00:00.000Z"
           {[ "MPAK_REGISTRY_URL" := "" ]}
           (ConfigManager.new "/home/user" ConfigManager.Missing)).
  vm_compute. reflexivity.
Defined.

(** X8. Over a configuration file that conforms to the schema: after
    [setRegistryUrl] with a URL that is not empty, [getRegistryUrl] answers
    that URL whatever [MPAK_REGISTRY_URL] holds, in this manager and in one
    started later on the same file, and the stored values of the packages
    and keys that [Object.prototype] has no member for are as they were. *)
Theorem setRegistryUrl_then_get (now : string) (cm : ConfigManager.t)
    (c : ConfigManager.MpakConfig) (url : string) :
  schema_file (ConfigManager.disk cm) →
  loads now cm c →
  url ≠ "" →
  let cm' := (ConfigManager.setRegistryUrl now cm url).2 in
  (ConfigManager.setRegistryUrl now cm url).1 = inr ()
  ∧ ∀ now' process_env homedir,
      (ConfigManager.getRegistryUrl now' process_env cm').1 = inr url
      ∧ (ConfigManager.getRegistryUrl now' process_env
           (ConfigManager.new homedir (ConfigManager.disk cm'))).1 = inr url
      ∧ ∀ packageName key,
          own_name packageName → own_name key →
          (ConfigManager.getPackageConfigValue now' cm' packageName key).1
          = inr (stored_value c packageName key).
Proof.
  intros _ (cm1 & Hload & Hc)%loads_inv Hurl. cbv zeta.
  unfold ConfigManager.setRegistryUrl. rewrite Hload. cbn [fst snd].
  split; [done|]. intros now' process_env homedir. rewrite saveConfig_spec.
  split; [|split].
  - unfold ConfigManager.getRegistryUrl.
    erewrite loadConfig_cached by reflexivity. cbn.
    by rewrite bool_decide_eq_true_2.
  - unfold ConfigManager.getRegistryUrl.
    erewrite loadConfig_restart by reflexivity. cbn.
    by rewrite bool_decide_eq_true_2.
  - intros packageName key _ Hkey.
    by erewrite getPackageConfigValue_cached by (done || reflexivity).
Qed.

Lemma setRegistryUrl_then_get_witness :
  (ConfigManager.getRegistryUrl "2024-01-02T00:00:00.000Z"
     {[ "MPAK_REGISTRY_URL" := "https://other.example" ]}
     (ConfigManager.setRegistryUrl "2024-01-01T00:00:00.000Z"
        (ConfigManager.new "/home/user" ConfigManager.Missing)
        "https://registry.example").2).1
  = inr "https://registry.example".
Proof.
  refine (proj1 (proj2 (setRegistryUrl_then_get "2024-01-01T00:00:00.000Z"
            (ConfigManager.new "/home/user" ConfigManager.Missing)
            {| ConfigManager.config_version := "1.0.0";
               ConfigManager.lastUpdated := "2024-01-01T00:00:00.000Z";
               ConfigManager.registryUrl := None;
               ConfigManager.packages := None |}
            "https://registry.example" I eq_refl _)
          "2024-01-02T00:00:00.000Z"
          {[ "MPAK_REGISTRY_URL" := "https://other.example" ]} "/home/user")).
  done.
Defined.

(** X9. While the file cannot be read, is not JSON or does not pass
    [validateConfig], every method of the manager throws the error of
    [loadConfig], and none writes the file or changes the manager. *)
Theorem corrupted_config_blocks_every_method (now : string) (cm : ConfigManager.t)
    (e : ConfigManager.ConfigCorruptedError) :
  (ConfigManager.loadConfig now cm).1 = inl e →
  ∀ process_env packageName key value url,
    ConfigManager.getPackageConfig now cm packageName = (inl e, cm)
    ∧ ConfigManager.getPackageConfigValue now cm packageName key = (inl e, cm)
    ∧ ConfigManager.setPackageConfigValue now cm packageName key value = (inl e, cm)
    ∧ ConfigManager.clearPackageConfig now cm packageName = (inl e, cm)
    ∧ ConfigManager.clearPackageConfigValue now cm packageName key = (inl e, cm)
    ∧ ConfigManager.listPackagesWithConfig now cm = (inl e, cm)
    ∧ ConfigManager.setRegistryUrl now cm url = (inl e, cm)
    ∧ ConfigManager.getRegistryUrl now process_env cm = (inl e, cm).
Proof.
  intros H process_env packageName key value url.
  unfold ConfigManager.getPackageConfigValue, ConfigManager.getPackageConfig,
    ConfigManager.setPackageConfigValue, ConfigManager.clearPackageConfig,
    ConfigManager.clearPackageConfigValue, ConfigManager.listPackagesWithConfig,
    ConfigManager.setRegistryUrl, ConfigManager.getRegistryUrl.
  destruct (ConfigManager.loadConfig now cm) as [[e'|c] cm1] eqn:Hload; [|done].
  cbn in H. injection H as ->. destruct (loadConfig_inl _ _ _ _ Hload) as [-> _].
  repeat split.
Qed.

Lemma corrupted_config_blocks_every_method_witness :
  let cm := ConfigManager.new "/home/user" (ConfigManager.NotJSON "Unexpected token") in
  ∃ e, ConfigManager.setPackageConfigValue "2024-01-01T00:00:00.000Z" cm
         "@acme/tool" "api_key" "secret" = (inl e, cm).
Proof.
  intros cm. eexists.
  refine (proj1 (proj2 (proj2 (corrupted_config_blocks_every_method
            "2024-01-01T00:00:00.000Z" cm _ eq_refl ∅ "@acme/tool" "api_key" "secret" "")))).
Defined.

(** X10. [maskValue] keeps the length of the value. *)
Theorem maskValue_length (value : string) :
  String.length (maskValue value) = String.length value.
Proof.
  unfold maskValue. destruct (Z.leb_spec (Z.of_nat (String.length value)) 4).
  - rewrite repeat_length. change (String.length "*") with 1%nat. lia.
  - rewrite JSFacts.app_length, repeat_length.
    replace (JS.substring2 value 0 4) with (JS.take 4 value)
      by (symmetry; apply (substring2_prefix value 4)).
    rewrite take_length. change (String.length "*") with 1%nat. lia.
Qed.

(** X11. What [maskValue] shows depends on the length of the value and, for
    a value of more than four characters, on its first four characters
    only: two values of the same length, which agree on their first four
    characters when they are longer than that, are masked alike. *)
Theorem maskValue_hides_the_rest (value1 value2 : string) :
  String.length value1 = String.length value2 →
  ((4 < String.length value1)%nat →
   JS.substring2 value1 0 4 = JS.substring2 value2 0 4) →
  maskValue value1 = maskValue value2.
Proof.
  intros Hl Hp. unfold maskValue. rewrite <- Hl.
  destruct (Z.leb_spec (Z.of_nat (String.length value1)) 4); [done|].
  rewrite Hp by lia. done.
Qed.

Lemma maskValue_hides_the_rest_witness :
  maskValue "sk-live-0123456789" = maskValue "sk-lXXXXXXXXXXXXXX"
  ∧ maskValue "abc" = maskValue "xyz".
Proof.
  split; apply maskValue_hides_the_rest; try done; cbn; lia.
Defined.

(** X12. Over a configuration file that conforms to the schema, and for
    package names and keys that [Object.prototype] has no member for:
    [handleConfigSet] with arguments [key=value], each with a key that is
    not empty and is not [__proto__]: an argument is split at its first [=],
    so a value may itself contain [=]; the values are stored in the order
    given, a later one for the same key replacing an earlier one; the values
    of the other packages are as they were; the number of arguments is
    reported; and a manager started later finds the values in the file. *)
Theorem handleConfigSet_stores (now homedir packageName : string)
    (kvs : list (string * string)) (s : Session) (c : ConfigManager.MpakConfig) :
  schema_file (ConfigManager.disk (configManager s)) → own_name packageName →
  kvs ≠ [] →
  Forall (λ kv, well_formed_key kv.1 ∧ kv.1 ≠ "__proto__") kvs →
  loads now (ConfigManager.new homedir (ConfigManager.disk (configManager s))) c →
  ∃ s',
    handleConfigSet now homedir packageName (key_value <$> kvs) s = (Returned (), s')
    ∧ output s'
      = output s ++ [ConsoleLog ("Set " +:+ pretty (length kvs) +:+ " config value(s) for "
                                   +:+ packageName)]
    ∧ ∀ now' homedir' packageName' key',
        own_name packageName' → own_name key' →
        found_after_restart now' homedir' (configManager s') packageName' key'
        = inr (if decide (packageName' = packageName)
               then values_after_set
                      (from_option id ∅
                         (ConfigManager.packages c ≫= (.!! packageName))) kvs !! key'
               else stored_value c packageName' key').
Proof.
  intros _ _ Hne Hwf Hload. unfold handleConfigSet.
  destruct (key_value <$> kvs) as [|p ps] eqn:Hps.
  { by destruct kvs. }
  rewrite <- Hps. unfold cmd_bind at 1. unfold cmd_new_ConfigManager at 1.
  unfold cmd_bind. rewrite (set_pairs_stores _ _ _ Hwf _ _ _ _ Hload).
  eexists. split; [done|]. split; [done|].
  intros now' homedir' packageName' key' _ Hkey'. cbn [configManager].
  destruct kvs as [|kv kvs]; [done|]. unfold manager_after_set.
  unfold saved. erewrite found_after_restart_saved by (done || reflexivity).
  by rewrite stored_value_with_values.
Qed.

Lemma handleConfigSet_stores_witness :
  found_after_restart "2024-01-02T00:00:00.000Z" "/home/user"
    (configManager
       (handleConfigSet "2024-01-01T00:00:00.000Z" "/home/user" "@acme/tool"
          ["token=a=b"; "region=eu"; "region=us"]
          (session "/home/user" ConfigManager.Missing)).2)
    "@acme/tool" "token" = inr (Some "a=b")
  ∧ found_after_restart "2024-01-02T00:00:00.000Z" "/home/user"
      (configManager
         (handleConfigSet "2024-01-01T00:00:00.000Z" "/home/user" "@acme/tool"
            ["token=a=b"; "region=eu"; "region=us"]
            (session "/home/user" ConfigManager.Missing)).2)
      "@acme/tool" "region" = inr (Some "us").
Proof.
  destruct (handleConfigSet_stores "2024-01-01T00:00:00.000Z" "/home/user" "@acme/tool"
              [("token", "a=b"); ("region", "eu"); ("region", "us")]
              (session "/home/user" ConfigManager.Missing)
              {| ConfigManager.config_version := "1.0.0";
                 ConfigManager.lastUpdated := "2024-01-01T00:00:00.000Z";
                 ConfigManager.registryUrl := None;
                 ConfigManager.packages := None |})
    as (s' & Hrun & _ & Hfound).
  - exact I.
  - reflexivity.
  - discriminate.
  - repeat constructor; discriminate.
  - vm_compute. reflexivity.
  - change (key_value <$> [("token", "a=b"); ("region", "eu"); ("region", "us")])
      with ["token=a=b"; "region=eu"; "region=us"] in Hrun.
    rewrite Hrun. cbn [snd]. split.
    + rewrite (Hfound "2024-01-02T00:00:00.000Z" "/home/user" "@acme/tool" "token"
                 eq_refl eq_refl).
      vm_compute. reflexivity.
    + rewrite (Hfound "2024-01-02T00:00:00.000Z" "/home/user" "@acme/tool" "region"
                 eq_refl eq_refl).
      vm_compute. reflexivity.
Defined.

(** X13. Over a configuration file that conforms to the schema, and for
    package names and keys that [Object.prototype] has no member for:
    [handleConfigSet] is not all-or-nothing: at the first argument that has
    no [=], or nothing before its first [=], it reports that argument and
    exits with status 1; the well-formed arguments before it are stored in
    the file by then, and the arguments after it are not looked at. *)
Theorem handleConfigSet_stops_at_malformed_pair (now homedir packageName : string)
    (kvs : list (string * string)) (bad : string) (rest : list string)
    (s : Session) (c : ConfigManager.MpakConfig) :
  schema_file (ConfigManager.disk (configManager s)) → own_name packageName →
  Forall (λ kv, well_formed_key kv.1 ∧ kv.1 ≠ "__proto__") kvs →
  malformed_pair bad →
  loads now (ConfigManager.new homedir (ConfigManager.disk (configManager s))) c →
  ∃ s',
    handleConfigSet now homedir packageName ((key_value <$> kvs) ++ bad :: rest) s
    = (Exited 1, s')
    ∧ output s' = output s ++ [StderrWrite (malformed_pair_report bad)]
    ∧ ∀ now' homedir' packageName' key',
        own_name packageName' → own_name key' →
        found_after_restart now' homedir' (configManager s') packageName' key'
        = inr (if decide (packageName' = packageName)
               then values_after_set
                      (from_option id ∅
                         (ConfigManager.packages c ≫= (.!! packageName))) kvs !! key'
               else stored_value c packageName' key').
Proof.
  intros _ _ Hwf Hbad Hload. unfold handleConfigSet.
  destruct ((key_value <$> kvs) ++ bad :: rest) as [|p ps] eqn:Hps.
  { by destruct kvs. }
  rewrite <- Hps. unfold cmd_bind at 1. unfold cmd_new_ConfigManager at 1.
  unfold cmd_bind at 1. rewrite set_pairs_app. unfold cmd_bind at 1.
  rewrite (set_pairs_stores _ _ _ Hwf _ _ _ _ Hload).
  rewrite (set_pairs_malformed _ _ _ _ _ _ Hbad). cbn [output configManager].
  eexists. split; [done|]. split; [done|].
  intros now' homedir' packageName' key' _ Hkey'. cbn [configManager].
  destruct kvs as [|kv kvs].
  - unfold manager_after_set.
    rewrite (found_after_restart_loads now _ _ _ c); [|done|done|done].
    case_decide as Hd; [|done]. rewrite Hd. unfold stored_value, values_after_set.
    cbn [foldl]. destruct (ConfigManager.packages c ≫= (.!! packageName)); [done|].
    cbn. by rewrite lookup_empty.
  - unfold manager_after_set, saved.
    erewrite found_after_restart_saved by (done || reflexivity).
    by rewrite stored_value_with_values.
Qed.

Lemma handleConfigSet_stops_at_malformed_pair_witness :
  (handleConfigSet "2024-01-01T00:00:00.000Z" "/home/user" "@acme/tool"
     ["region=eu"; "token"; "mode=fast"]
     (session "/home/user" ConfigManager.Missing)).1 = Exited 1
  ∧ found_after_restart "2024-01-02T00:00:00.000Z" "/home/user"
      (configManager
         (handleConfigSet "2024-01-01T00:00:00.000Z" "/home/user" "@acme/tool"
            ["region=eu"; "token"; "mode=fast"]
            (session "/home/user" ConfigManager.Missing)).2)
      "@acme/tool" "region" = inr (Some "eu").
Proof.
  destruct (handleConfigSet_stops_at_malformed_pair "2024-01-01T00:00:00.000Z"
              "/home/user" "@acme/tool" [("region", "eu")] "token" ["mode=fast"]
              (session "/home/user" ConfigManager.Missing)
              {| ConfigManager.config_version := "1.0.0";
                 ConfigManager.lastUpdated := "2024-01-01T00:00:00.000Z";
                 ConfigManager.registryUrl := None;
                 ConfigManager.packages := None |})
    as (s' & Hrun & _ & Hfound).
  - exact I.
  - reflexivity.
  - repeat constructor; discriminate.
  - left. reflexivity.
  - vm_compute. reflexivity.
  - change ((key_value <$> [("region", "eu")]) ++ "token" :: ["mode=fast"])
      with ["region=eu"; "token"; "mode=fast"] in Hrun.
    rewrite Hrun. cbn [fst snd]. split; [reflexivity|].
    rewrite (Hfound "2024-01-02T00:00:00.000Z" "/home/user" "@acme/tool" "region"
               eq_refl eq_refl).
    vm_compute. reflexivity.
Defined.

(** X14. Over a configuration file that conforms to the schema, and for
    package names and keys that [Object.prototype] has no member for:
    [handleConfigClear] with a key clears the value of that key and leaves
    every other value as it was; without a key, and with an empty key, it
    clears every value of the package. It says whether there was something
    to clear, returns, and a manager started later finds the file
    accordingly. *)
Theorem handleConfigClear_spec (now homedir packageName : string) (key : option string)
    (s : Session) (c : ConfigManager.MpakConfig) :
  schema_file (ConfigManager.disk (configManager s)) → own_name packageName →
  (∀ k, key = Some k → own_name k) →
  loads now (ConfigManager.new homedir (ConfigManager.disk (configManager s))) c →
  ∃ s',
    handleConfigClear now homedir packageName key s = (Returned (), s')
    ∧ output s' = output s ++ [ConsoleLog (clear_report packageName key c)]
    ∧ ∀ now' homedir' packageName' key',
        own_name packageName' → own_name key' →
        found_after_restart now' homedir' (configManager s') packageName' key'
        = inr (if bool_decide (packageName' = packageName) && clears key key' then None
               else stored_value c packageName' key').
Proof.
  intros _ _ Hown Hl. unfold handleConfigClear, clear_report, clears.
  unfold cmd_bind at 1. unfold cmd_new_ConfigManager.
  set (cm := ConfigManager.new homedir (ConfigManager.disk (configManager s))) in *.
  destruct (loads_inv _ _ _ Hl) as (cm1 & Hload & Hc).
  destruct (truthy_string key) eqn:Hkey.
  - destruct key as [k|]; [|done]. cbn [from_option id].
    pose proof (clearPackageConfigValue_restart now cm c packageName k
                  (Hown k eq_refl) eq_refl Hl) as Hr.
    pose proof (clearPackageConfigValue_answer now cm c packageName k
                  (Hown k eq_refl) Hl) as H1.
    unfold cmd_bind, cmd_manager. cbn [configManager output].
    destruct (ConfigManager.clearPackageConfigValue now cm packageName k) as [r cm'].
    cbn [fst snd] in *. subst r.
    destruct (bool_decide (is_Some (stored_value c packageName k)));
      (eexists; split; [done|]; split; [done|]);
      intros now' homedir' packageName' key' _ Hkey'; cbn [configManager];
      rewrite Hr by done; f_equal;
      destruct (decide (packageName' = packageName)) as [Hp|Hp];
      destruct (decide (k = key')) as [Hk|Hk];
      rewrite ?(bool_decide_eq_true_2 _ Hp), ?(bool_decide_eq_false_2 _ Hp);
      cbn [andb];
      try (rewrite (decide_True (P := _ ∧ _)) by done);
      try (rewrite (decide_False (P := _ ∧ _)) by (intros [? ?]; done));
      try (rewrite bool_decide_eq_true_2 by congruence);
      try (rewrite bool_decide_eq_false_2 by congruence); done.
  - pose proof (clearPackageConfig_restart now cm c packageName eq_refl Hl) as Hr.
    pose proof (clearPackageConfig_answer now cm c packageName Hl) as H1.
    unfold cmd_bind, cmd_manager. cbn [configManager output].
    destruct (ConfigManager.clearPackageConfig now cm packageName) as [r cm'].
    cbn [fst snd] in *. subst r.
    destruct (bool_decide (is_Some (ConfigManager.packages c ≫= (.!! packageName))));
      (eexists; split; [done|]; split; [done|]);
      intros now' homedir' packageName' key' _ Hkey'; cbn [configManager];
      rewrite Hr by done; f_equal;
      rewrite andb_true_r; by destruct (decide (packageName' = packageName)) as [Hp|Hp];
      rewrite ?(bool_decide_eq_true_2 _ Hp), ?(bool_decide_eq_false_2 _ Hp).
Qed.

Lemma handleConfigClear_spec_witness :
  let s := (handleConfigSet "2024-01-01T00:00:00.000Z" "/home/user" "@acme/tool"
              ["region=eu"; "token=abc"]
              (session "/home/user" ConfigManager.Missing)).2 in
  let s' := (handleConfigClear "2024-01-02T00:00:00.000Z" "/home/user" "@acme/tool"
               (Some "token") s).2 in
  found_after_restart "2024-01-03T00:00:00.000Z" "/home/user" (configManager s')
    "@acme/tool" "token" = inr None
  ∧ found_after_restart "2024-01-03T00:00:00.000Z" "/home/user" (configManager s')
      "@acme/tool" "region" = inr (Some "eu").
Proof.
  intros s s'.
  destruct (handleConfigClear_spec "2024-01-02T00:00:00.000Z" "/home/user" "@acme/tool"
              (Some "token") s
              {| ConfigManager.config_version := "1.0.0";
                 ConfigManager.lastUpdated := "2024-01-01T00:00:00.000Z";
                 ConfigManager.registryUrl := None;
                 ConfigManager.packages :=
                   Some {[ "@acme/tool" := {[ "region" := "eu"; "token" := "abc" ]} ]} |})
    as (s1 & Hrun & _ & Hfound).
  { vm_compute. intros _. reflexivity. }
  { reflexivity. }
  { intros k [= <-]. reflexivity. }
  { vm_compute. reflexivity. }
  unfold s'. rewrite Hrun. cbn [snd]. split.
  - rewrite (Hfound "2024-01-03T00:00:00.000Z" "/home/user" "@acme/tool" "token"
               eq_refl eq_refl).
    vm_compute. reflexivity.
  - rewrite (Hfound "2024-01-03T00:00:00.000Z" "/home/user" "@acme/tool" "region"
               eq_refl eq_refl).
    vm_compute. reflexivity.
Defined.

(** * Further properties of the run command *)

(** X15. [parsePackageSpec] loses nothing of its input: without a version
    the name is the whole input; with a version the input is the name, an
    [@] and the version, the version has no [@], and the name starts with
    [@]. *)
Theorem parsePackageSpec_lossless (spec : string) :
  match spec_version (parsePackageSpec spec) with
  | None => spec_name (parsePackageSpec spec) = spec
  | Some version =>
      spec = spec_name (parsePackageSpec spec) +:+ "@" +:+ version
      ∧ JS.includes "@" version = false
      ∧ JS.startsWith (spec_name (parsePackageSpec spec)) "@" = true
  end.
Proof.
  unfold parsePackageSpec, JS.lastIndexOf.
  destruct (JS.lastIndexOf_from "@" spec) as [i|] eqn:E; [|done].
  destruct (Z.leb_spec (Z.of_nat i) 0) as [Hle|Hgt]; [done|].
  unfold JS.substring2, JS.substring1. rewrite Z.min_l, Z.max_r by lia.
  rewrite Nat2Z.id. change (Z.to_nat 0) with 0%nat. rewrite Nat.sub_0_r.
  change (JS.drop 0 ?s) with s.
  replace (Z.to_nat (Z.of_nat i + 1)) with (S i) by lia.
  destruct (JS.startsWith (JS.take i spec) "@") eqn:Hs; cbn [negb spec_name spec_version];
    [|done].
  destruct (JSFacts.lastIndexOf_from_split _ _ _ E) as [H1 H2]. done.
Qed.

(** X16. The fields that the loop of [gatherUserConfigValues] leaves to be
    asked for, or reported as missing, come in the order of the manifest,
    and each of them is required, has no default, no [MPAK_CONFIG_]
    variable and no stored value, and has a key that [Object.prototype] has
    no member for; its key has no entry in the resolved values. *)
Theorem missing_fields_in_order (storedConfig process_env : gmap string string)
    (userConfig : list (string * UserConfigField)) :
  keys_in_range userConfig →
  NoDup userConfig.*1 →
  (resolve_entries storedConfig process_env userConfig).2
    = filter (λ e, unresolved_required storedConfig process_env e = true) userConfig
  ∧ ∀ key field,
      (key, field) ∈ (resolve_entries storedConfig process_env userConfig).2 →
      (key, field) ∈ userConfig
      ∧ truthy_bool (required field) = true
      ∧ default field = None
      ∧ process_env !! ("MPAK_CONFIG_" +:+ JS.toUpperCase key) = None
      ∧ storedConfig !! key = None
      ∧ own_name key
      ∧ (resolve_entries storedConfig process_env userConfig).1 !! key = None.
Proof.
  intros _ Hnd. split; [apply resolve_entries_missing|].
  intros key field Hin. pose proof Hin as Hin'.
  rewrite resolve_entries_missing in Hin'.
  apply list_elem_of_filter in Hin' as [Hu Hdecl].
  unfold unresolved_required in Hu. apply andb_prop in Hu as [Hr Hreq].
  apply bool_decide_eq_true_1 in Hr. cbn [fst snd] in Hr, Hreq.
  assert (own_name key ∧ storedConfig !! key = None
          ∧ process_env !! envVarName key = None ∧ default field = None)
    as (Hown & Hs & He & Hd).
  { unfold resolved_value in Hr.
    destruct (Obj.get storedConfig key) eqn:Hget; [done|].
    apply ObjFacts.get_None in Hget as [Hs Hown].
    destruct (process_env !! envVarName key); [done|]. by destruct (default field). }
  repeat (split; [done|]).
  rewrite (resolve_entries_declared _ _ _ _ _ Hnd Hdecl) by (by apply ObjFacts.own_name_proto).
  done.
Qed.

Lemma missing_fields_in_order_witness :
  (resolve_entries {[ "region" := "eu" ]} ∅
     [("api_key", example_field true None); ("region", example_field true None);
      ("token", example_field true None)]).2
  = [("api_key", example_field true None); ("token", example_field true None)].
Proof.
  assert (keys_in_range
            [("api_key", example_field true None); ("region", example_field true None);
             ("token", example_field true None)]) as Hrange by (repeat constructor).
  assert (NoDup [("api_key", example_field true None); ("region", example_field true None);
                 ("token", example_field true None)].*1) as Hnd.
  { apply (bool_decide_unpack
             (NoDup [("api_key", example_field true None);
                     ("region", example_field true None);
                     ("token", example_field true None)].*1)).
    vm_compute. reflexivity. }
  rewrite (proj1 (missing_fields_in_order {[ "region" := "eu" ]} ∅ _ Hrange Hnd)).
  vm_compute. reflexivity.
Defined.

(** X17. [resolveArgs] works argument by argument. An argument without [$]
    is passed on as it is, whatever the cache directory is called. When the
    path of the cache directory has no [$], a placeholder that no [$]
    precedes becomes that path, and the rest of the argument is resolved
    in the same way. *)
Theorem resolveArgs_spec (cacheDir : string) :
  (∀ arg args,
     resolveArgs (arg :: args) cacheDir
     = resolveArgs [arg] cacheDir ++ resolveArgs args cacheDir)
  ∧ (∀ arg, JS.includes "$" arg = false → resolveArgs [arg] cacheDir = [arg])
  ∧ (JS.includes "$" cacheDir = false →
     ∀ pre post,
       JS.includes "$" pre = false →
       resolveArgs [pre +:+ "${__dirname}" +:+ post] cacheDir
       = (λ resolved, pre +:+ cacheDir +:+ resolved) <$> resolveArgs [post] cacheDir).
Proof.
  split; [done|]. split.
  - intros arg H. rewrite resolveArgs_cons. f_equal.
    by apply resolve_no_dollar.
  - intros Hd pre post Hpre. rewrite !resolveArgs_cons. cbn [fmap list_fmap resolveArgs].
    f_equal. unfold RegExp.replace. rewrite (resolve_prefix _ _ _ _ Hd Hpre). f_equal.
    rewrite RegExpFacts.replace_from_unfold by apply match_dirname_shrinks.
    assert (RegExp.match_dirname ("${__dirname}" +:+ post)
            = Some (RegExp.dirname_marker, (), post)) as ->
      by (by apply match_dirname_spec).
    rewrite expand_plain by done. f_equal. unfold RegExp.replace_from.
    apply RegExpFacts.replace_go_before. intros. by rewrite !expand_plain.
Qed.

Lemma resolveArgs_spec_witness :
  resolveArgs ["--config=${__dirname}/config.json"] "/home/user/.mpak/cache/acme-tool"
  = ["--config=/home/user/.mpak/cache/acme-tool/config.json"].
Proof.
  destruct (resolveArgs_spec "/home/user/.mpak/cache/acme-tool") as (_ & Hplain & Href).
  pose proof (Href eq_refl "--config=" "/config.json" eq_refl) as H.
  rewrite (Hplain "/config.json" eq_refl) in H. exact H.
Defined.

(** X18. When the registry does not answer, or the download fails,
    [handleRun] throws the error it got, and what it has done by then is
    the request to the registry and, for a failed download, the directory
    of the temporary file, the message and the download itself: nothing is
    removed, extracted, written to the cache or spawned. *)
Theorem failed_download_leaves_cache (h : Host) (packageSpec : string)
    (options : RunOptions) (w : World) :
  let name := spec_name (parsePackageSpec packageSpec) in
  let requestedVersion := spec_version (parsePackageSpec packageSpec) in
  let cacheDir := getCacheDir (homedir h) name in
  needsPull (getCacheMetadata h cacheDir) options requestedVersion = true →
  (∀ message,
     getDownloadInfo h name requestedVersion (detectPlatform h) = inl message →
     handleRun h packageSpec options w
     = (Thrown message, after w [GetDownloadInfo name requestedVersion (detectPlatform h)]))
  ∧ (∀ info message,
       getDownloadInfo h name requestedVersion (detectPlatform h) = inr info →
       stillNeedsPull (getCacheMetadata h cacheDir) options (bundle info) = true →
       downloadBundle h (url info) (temp_path h) = Some message →
       handleRun h packageSpec options w
       = (Thrown message, after w (download_events h name requestedVersion info))).
Proof.
  intros name requestedVersion cacheDir Hneeds. split.
  - intros message Hinfo. apply handleRun_refresh_Thrown.
    rewrite (refresh_cache_pull _ _ _ _ _ _ Hneeds). by apply pull_registry_fails.
  - intros info message Hinfo Hstill Hdl. apply handleRun_refresh_Thrown.
    rewrite (refresh_cache_pull _ _ _ _ _ _ Hneeds). by apply pull_download_fails.
Qed.

Lemma failed_download_leaves_cache_witness :
  let h := host_with (example_host ∅ "2.0.0") NoMetaFile (inr (example_info "2.0.0"))
             (Some "connect ECONNREFUSED") None in
  handleRun h "@acme/tool" {| update := None |} (example_world h None)
  = (Thrown "connect ECONNREFUSED",
     after (example_world h None) (download_events h "@acme/tool" None (example_info "2.0.0"))).
Proof.
  intros h.
  by apply (proj2 (failed_download_leaves_cache h "@acme/tool" {| update := None |}
                     (example_world h None) eq_refl)
              (example_info "2.0.0") "connect ECONNREFUSED").
Defined.

(** X19. When the extraction fails, the old cache directory is gone by
    then: [handleRun] has downloaded the bundle, removed the cache
    directory if there was one and made it anew; it throws
    [Failed to extract bundle], and writes no metadata, removes no
    temporary file and spawns nothing. *)
Theorem failed_extraction_loses_cache (h : Host) (packageSpec : string)
    (options : RunOptions) (w : World) (info : DownloadInfo) (message : string) :
  let name := spec_name (parsePackageSpec packageSpec) in
  let requestedVersion := spec_version (parsePackageSpec packageSpec) in
  let cacheDir := getCacheDir (homedir h) name in
  needsPull (getCacheMetadata h cacheDir) options requestedVersion = true →
  getDownloadInfo h name requestedVersion (detectPlatform h) = inr info →
  stillNeedsPull (getCacheMetadata h cacheDir) options (bundle info) = true →
  downloadBundle h (url info) (temp_path h) = None →
  unzip h (temp_path h) cacheDir = Some message →
  ∃ w', handleRun h packageSpec options w
        = (Thrown ("Failed to extract bundle: " +:+ message), w')
      ∧ trace w' = trace w ++ download_events h name requestedVersion info
                     ++ extract_events h cacheDir.
Proof.
  intros name requestedVersion cacheDir Hneeds Hinfo Hstill Hdl Hunzip.
  destruct (pull_unzip_fails h name requestedVersion cacheDir
              (getCacheMetadata h cacheDir) options info message w
              Hinfo Hstill Hdl Hunzip) as (w' & Hpull & Htrace).
  exists w'. split; [|done]. apply handleRun_refresh_Thrown.
  by rewrite (refresh_cache_pull _ _ _ _ _ _ Hneeds).
Qed.

Lemma failed_extraction_loses_cache_witness :
  let h := host_with (example_host ∅ "2.0.0") NoMetaFile (inr (example_info "2.0.0"))
             None (Some "End-of-central-directory signature not found") in
  (handleRun h "@acme/tool" {| update := None |} (example_world h None)).1
  = Thrown "Failed to extract bundle: End-of-central-directory signature not found".
Proof.
  intros h.
  destruct (failed_extraction_loses_cache h "@acme/tool" {| update := None |}
              (example_world h None) (example_info "2.0.0")
              "End-of-central-directory signature not found"
              eq_refl eq_refl eq_refl eq_refl eq_refl) as (w' & Hrun & _).
  by rewrite Hrun.
Defined.

(** X20. A pull that goes through does, in this order: ask the registry,
    make the directory of the temporary file, announce the pull, download,
    remove the old cache directory if there is one, make it anew, extract,
    write the metadata, remove the temporary file and announce the cache.
    The metadata holds the version and the platform that the registry
    answered, and the run goes on from there with the manifest. *)
Theorem pull_goes_through (h : Host) (packageSpec : string)
    (options : RunOptions) (w : World) (info : DownloadInfo) :
  let name := spec_name (parsePackageSpec packageSpec) in
  let requestedVersion := spec_version (parsePackageSpec packageSpec) in
  let cacheDir := getCacheDir (homedir h) name in
  needsPull (getCacheMetadata h cacheDir) options requestedVersion = true →
  getDownloadInfo h name requestedVersion (detectPlatform h) = inr info →
  stillNeedsPull (getCacheMetadata h cacheDir) options (bundle info) = true →
  downloadBundle h (url info) (temp_path h) = None →
  unzip h (temp_path h) cacheDir = None →
  ∃ w1, refresh_cache h name requestedVersion options cacheDir w = (Returned (), w1)
      ∧ trace w1 = trace w ++ pull_events h name requestedVersion cacheDir info
      ∧ WriteCacheMetadata cacheDir
          {| version := bundle_version (bundle info);
             pulledAt := Date_toISOString h;
             platform := bundle_platform (bundle info) |}
        ∈ pull_events h name requestedVersion cacheDir info
      ∧ handleRun h packageSpec options w = execute h name cacheDir w1.
Proof.
  intros name requestedVersion cacheDir Hneeds Hinfo Hstill Hdl Hunzip.
  destruct (pull_downloads h name requestedVersion cacheDir
              (getCacheMetadata h cacheDir) options info w Hinfo Hstill Hdl Hunzip)
    as (w1 & Hpull & Htrace).
  exists w1. rewrite (refresh_cache_pull _ _ _ _ _ _ Hneeds).
  split; [done|]. split; [done|]. split.
  - unfold pull_events. rewrite !elem_of_app. right. right.
    do 3 apply list_elem_of_further. apply list_elem_of_here.
  - apply handleRun_refreshed. by rewrite (refresh_cache_pull _ _ _ _ _ _ Hneeds).
Qed.

Lemma pull_goes_through_witness :
  let h := host_with (example_host ∅ "2.0.0") NoMetaFile (inr (example_info "2.0.0"))
             None None in
  ∃ w1, refresh_cache h "@acme/tool" None {| update := None |}
          "/home/user/.mpak/cache/acme-tool" (example_world h None) = (Returned (), w1)
      ∧ trace w1 = pull_events h "@acme/tool" None "/home/user/.mpak/cache/acme-tool"
                     (example_info "2.0.0").
Proof.
  intros h.
  destruct (pull_goes_through h "@acme/tool" {| update := None |}
              (example_world h None) (example_info "2.0.0")
              eq_refl eq_refl eq_refl eq_refl eq_refl) as (w1 & Hrefresh & Htrace & _).
  exists w1. split; [exact Hrefresh|exact Htrace].
Defined.

(** X21. [handleRun] spawns at most one child, in the cache directory of
    the package, and ends as the child does: it exits with the status of
    the child, with 0 when the child gives none, and with 1 after the
    message [Failed to start server] when the child cannot be started;
    while the child runs it returns. Nothing else follows the spawn. *)
Theorem run_ends_as_child (h : Host) (packageSpec : string) (options : RunOptions)
    (w w' : World) (o : Outcome ()) (command : string) (args : list string)
    (childEnv : gmap string string) (cwd : string) :
  handleRun h packageSpec options w = (o, w') →
  Spawn command args childEnv cwd ∈ new_events w w' →
  cwd = getCacheDir (homedir h) (spec_name (parsePackageSpec packageSpec))
  ∧ o = (child_outcome h).1
  ∧ ∃ es, new_events w w'
          = es ++ [Spawn command args childEnv cwd] ++ (child_outcome h).2
        ∧ Forall (λ e, ¬ is_spawn e) es.
Proof.
  intros [(_ & es & Ht & Hes)|
          (w0 & manifest & values & w1 & w2 & command0 & args0 & childEnv0 & es
           & _ & _ & _ & _ & Hes & Ho & Ht)]%handleRun_cases Hin.
  - rewrite (new_events_app _ _ _ Ht) in Hin. rewrite Forall_forall in Hes.
    by destruct (Hes _ Hin).
  - rewrite (new_events_app _ _ _ Ht) in Hin |- *.
    apply the_spawn in Hin; [|done|apply no_spawn_child_outcome|done].
    injection Hin as -> -> -> ->. split; [done|]. split; [done|]. by exists es.
Qed.

Lemma run_ends_as_child_witness :
  let h := example_host ∅ "1.0.0" in
  let w := example_world h None in
  (handleRun h "@acme/tool" {| update := None |} w).1 = (child_outcome h).1
  ∧ child_outcome h = (Returned (), []).
Proof.
  intros h w. split; [|done].
  refine (proj1 (proj2 (run_ends_as_child h "@acme/tool" {| update := None |} w
            (handleRun h "@acme/tool" {| update := None |} w).2
            (handleRun h "@acme/tool" {| update := None |} w).1
            "node" ["/home/user/.mpak/cache/acme-tool/index.js"]
            {[ "API_KEY" := "${user_config.api_key}"; "LOG_LEVEL" := "info" ]}
            "/home/user/.mpak/cache/acme-tool" _ _))).
  - by destruct (handleRun h "@acme/tool" {| update := None |} w).
  - vm_compute. apply list_elem_of_here.
Defined.

(** X22. [handleRun] returns to its caller only when it has spawned the
    child and the child is running; in every other case it exits, throws
    or waits for the terminal. *)
Theorem run_returns_with_running_child (h : Host) (packageSpec : string)
    (options : RunOptions) (w w' : World) :
  handleRun h packageSpec options w = (Returned (), w') →
  child_end h = ChildRunning
  ∧ ∃ es command args childEnv,
      new_events w w'
      = es ++ [Spawn command args childEnv
                 (getCacheDir (homedir h) (spec_name (parsePackageSpec packageSpec)))].
Proof.
  intros [(Ho & _)|
          (w0 & manifest & values & w1 & w2 & command & args & childEnv & es
           & _ & _ & _ & _ & Hes & Ho & Ht)]%handleRun_cases; [done|].
  unfold child_outcome in *. destruct (child_end h); try done. split; [done|].
  exists es, command, args, childEnv. by apply new_events_app.
Qed.

Lemma run_returns_with_running_child_witness :
  let h := example_host ∅ "1.0.0" in
  (handleRun h "@acme/tool" {| update := None |} (example_world h None)).1 = Returned ()
  ∧ child_end h = ChildRunning.
Proof.
  intros h. split; [vm_compute; reflexivity|].
  refine (proj1 (run_returns_with_running_child h "@acme/tool" {| update := None |}
                   (example_world h None)
                   (handleRun h "@acme/tool" {| update := None |} (example_world h None)).2
                   _)).
  vm_compute. reflexivity.
Defined.

(** X23. For a package name that [Object.prototype] has no member for, over
    a configuration file that conforms to the schema: the environment of
    the child is the ambient environment with the substituted environment
    of the manifest spread over it; for a python server [PYTHONPATH] is set
    on top of both, to the [deps] directory of the cache followed by the
    ambient [PYTHONPATH] when there is one. *)
Theorem child_environment (h : Host) (packageSpec : string) (options : RunOptions)
    (w w' : World) (o : Outcome ()) (command : string) (args : list string)
    (childEnv : gmap string string) (cwd : string) :
  let name := spec_name (parsePackageSpec packageSpec) in
  let cacheDir := getCacheDir (homedir h) name in
  own_name name → schema_file (ConfigManager.disk (manager w)) →
  handleRun h packageSpec options w = (o, w') →
  Spawn command args childEnv cwd ∈ new_events w w' →
  ∃ w0 manifest values w1,
    refresh_cache h name (spec_version (parsePackageSpec packageSpec)) options cacheDir w
      = (Returned (), w0)
    ∧ manifest_file w0 = Some manifest
    ∧ resolve_user_config h name manifest w0 = (Returned values, w1)
    ∧ let env0 :=
        spread (process_env h)
          (substituteEnvVars (env (mcp_config (server manifest))) values) in
      (type (server manifest) = "python" →
       childEnv = <["PYTHONPATH" := python_path h cacheDir]> env0)
      ∧ (type (server manifest) ≠ "python" → childEnv = env0).
Proof.
  intros name cacheDir _ _
    [(_ & es & Ht & Hes)|
     (w0 & manifest & values & w1 & w2 & command0 & args0 & childEnv0 & es
      & Hrefresh & Hm & Hv & Hplan & Hes & Ho & Ht)]%handleRun_cases Hin.
  - rewrite (new_events_app _ _ _ Ht) in Hin. rewrite Forall_forall in Hes.
    by destruct (Hes _ Hin).
  - rewrite (new_events_app _ _ _ Ht) in Hin.
    apply the_spawn in Hin; [|done|apply no_spawn_child_outcome|done].
    injection Hin as -> -> -> ->. exists w0, manifest, values, w1.
    repeat (split; [done|]). by apply (launch_plan_environment _ _ _ _ _ _ _ _ _ Hplan).
Qed.

Lemma child_environment_witness :
  let h := example_host {[ "HOME" := "/home/user" ]} "1.0.0" in
  ∃ values,
    ({[ "API_KEY" := "${user_config.api_key}"; "LOG_LEVEL" := "info";
        "HOME" := "/home/user" ]} : gmap string string)
    = spread (process_env h)
        (substituteEnvVars (env (mcp_config (server (example_manifest None)))) values).
Proof.
  intros h. set (w := example_world h None).
  destruct (child_environment h "@acme/tool" {| update := None |} w
              (handleRun h "@acme/tool" {| update := None |} w).2
              (handleRun h "@acme/tool" {| update := None |} w).1
              "node" ["/home/user/.mpak/cache/acme-tool/index.js"]
              {[ "API_KEY" := "${user_config.api_key}"; "LOG_LEVEL" := "info";
                 "HOME" := "/home/user" ]}
              "/home/user/.mpak/cache/acme-tool")
    as (w0 & manifest & values & w1 & Hrefresh & Hm & _ & _ & Henv).
  - reflexivity.
  - exact I.
  - by destruct (handleRun h "@acme/tool" {| update := None |} w).
  - vm_compute. apply list_elem_of_here.
  - assert (w0 = w) as ->.
    { assert (refresh_cache h (spec_name (parsePackageSpec "@acme/tool"))
                (spec_version (parsePackageSpec "@acme/tool")) {| update := None |}
                (getCacheDir (homedir h) (spec_name (parsePackageSpec "@acme/tool"))) w
              = (Returned (), w)) as H by (vm_compute; reflexivity).
      rewrite H in Hrefresh. by injection Hrefresh. }
    assert (manifest = example_manifest None) as -> by (by injection Hm).
    exists values. by apply Henv.
Defined.

(** X24. For a package name that [Object.prototype] has no member for, over
    a configuration file that conforms to the schema: once the cache is
    refreshed, a cache directory without [manifest.json] makes [handleRun]
    throw [Manifest not found in bundle] with the path of the file; and a
    server type other than [binary], [node] and [python] makes it throw
    [Unsupported server type] with the type, after the user configuration
    was gathered. Up to there no child was spawned. *)
Theorem run_throws_before_spawn (h : Host) (packageSpec : string) (options : RunOptions)
    (w w0 : World) :
  let name := spec_name (parsePackageSpec packageSpec) in
  let cacheDir := getCacheDir (homedir h) name in
  own_name name → schema_file (ConfigManager.disk (manager w)) →
  refresh_cache h name (spec_version (parsePackageSpec packageSpec)) options cacheDir w
    = (Returned (), w0) →
  (manifest_file w0 = None →
   handleRun h packageSpec options w
   = (Thrown ("Manifest not found in bundle: " +:+ Path.join [cacheDir; "manifest.json"]),
      w0))
  ∧ (∀ manifest values w1,
       manifest_file w0 = Some manifest →
       resolve_user_config h name manifest w0 = (Returned values, w1) →
       ¬ supported_type (type (server manifest)) →
       handleRun h packageSpec options w
       = (Thrown ("Unsupported server type: " +:+ type (server manifest)), w1)
       ∧ Forall (λ e, ¬ is_spawn e) (new_events w w1)).
Proof.
  intros name cacheDir _ _ Hrefresh.
  rewrite (handleRun_refreshed _ _ _ _ _ Hrefresh). fold name cacheDir. split.
  - intros Hm. unfold execute, readManifest.
    rewrite bind_bind, bind_get_manifest_file, Hm. done.
  - intros manifest values w1 Hm Hv Hn. split.
    + unfold execute, readManifest.
      rewrite bind_bind, bind_get_manifest_file, Hm, bind_ret.
      rewrite (bind_Returned _ _ _ _ _ Hv).
      unfold bind. by rewrite launch_plan_unsupported.
    + destruct (emits_refresh_cache (λ e, ¬ is_spawn e)) with
        (h := h) (name := name)
        (requestedVersion := spec_version (parsePackageSpec packageSpec))
        (options := options) (cacheDir := cacheDir) (w := w) (o := Returned ()) (w' := w0)
        as (es0 & Ht0 & Hes0); try (intros; intros []); [done|].
      destruct (no_spawn_resolve_user_config h name manifest _ _ _ Hv)
        as (es1 & Ht1 & Hes1).
      rewrite (new_events_app w w1 (es0 ++ es1)) by (by rewrite Ht1, Ht0, app_assoc).
      by apply Forall_app.
Qed.

Lemma run_throws_before_spawn_witness :
  let h := example_host ∅ "1.0.0" in
  handleRun h "@acme/tool" {| update := None |} (initial h [] ConfigManager.Missing None)
  = (Thrown "Manifest not found in bundle: /home/user/.mpak/cache/acme-tool/manifest.json",
     initial h [] ConfigManager.Missing None).
Proof.
  intros h.
  by apply (proj1 (run_throws_before_spawn h "@acme/tool" {| update := None |}
                     (initial h [] ConfigManager.Missing None)
                     (initial h [] ConfigManager.Missing None) eq_refl I eq_refl)).
Defined.

(** X25. For a package name that [Object.prototype] has no member for, over
    a configuration file that conforms to the schema: at a terminal, the
    first required field without a value is asked for, and an answer that
    is not empty is the value of the field. The user is then asked whether
    to save it: unless the answer to that is [n] or [N], the value is
    stored in the configuration file, where the manager finds it from then
    on. The remaining fields are asked for next. *)
Theorem prompted_value_is_used (h : Host) (packageName : string)
    (userConfig : list (string * UserConfigField)) (w : World)
    (stored : option (gmap string string)) (cm : ConfigManager.t)
    (result : gmap string string) (key : string) (field : UserConfigField)
    (rest : list (string * UserConfigField)) (value answer : string)
    (lines : list string) :
  own_name packageName → schema_file (ConfigManager.disk (manager w)) →
  keys_in_range userConfig →
  ConfigManager.getPackageConfig (Date_toISOString h) (manager w) packageName
    = (inr stored, cm) →
  stdin_isTTY h = true →
  resolve_entries (from_option id ∅ stored) (process_env h) userConfig
    = (result, (key, field) :: rest) →
  stdin w = value :: answer :: lines →
  value ≠ "" →
  let cm' :=
    if declines answer then cm
    else (ConfigManager.setPackageConfigValue (Date_toISOString h) cm
            packageName key value).2 in
  let w' :=
    {| trace :=
         trace w ++ [Stderr ("=> Package requires configuration:" +:+ JS.nl)]
           ++ prompt_events key field
           ++ [Question ("=> Save " +:+ field_label key field
                           +:+ " for future runs? [Y/n]: ")]
           ++ (if declines answer then []
               else [Stderr ("=> Saved to ~/.mpak/config.json" +:+ JS.nl)]);
       stdin := lines;
       manager := cm';
       manifest_file := manifest_file w |} in
  gatherUserConfigValues h packageName userConfig w
  = prompt_missing h packageName rest (<[key := value]> result) w'
  ∧ (declines answer = true ↔ answer = "n" ∨ answer = "N")
  ∧ (declines answer = false →
     ∀ now', (ConfigManager.getPackageConfigValue now' cm' packageName key).1
             = inr (Some value)).
Proof.
  intros _ _ _ Hload Htty Hres Hstdin Hvalue. cbv zeta.
  destruct (missing_head _ _ _ _ _ _ _ Hres) as (Hd & Hreq & Hown).
  pose proof (ObjFacts.own_name_proto _ Hown) as Hkey.
  destruct (getPackageConfig_loaded _ _ _ _ _ Hload) as (c & Hc & Hstored).
  assert (loads (Date_toISOString h) cm c) as Hl.
  { unfold loads. by rewrite (loadConfig_cached _ _ _ Hc). }
  pose proof (setPackageConfigValue_loads _ _ _ packageName key value Hkey Hl) as Hset.
  split; [|split; [apply declines_spec|]].
  - unfold gatherUserConfigValues.
    rewrite (bind_Returned _ _ _ _ _ (with_manager_Returned _ _ _ _ Hload)).
    rewrite Hres. unfold isInteractive. rewrite Htty. cbn [negb].
    rewrite bind_ret, bind_emit. cbn [prompt_missing]. fold (field_label key field).
    erewrite (bind_Returned (promptForValue field key));
      [|by apply promptForValue_answer].
    cbn [truthy_string]. rewrite (bool_decide_eq_true_2 _ Hvalue). cbn [negb andb].
    rewrite (ObjFacts.set_ne _ _ _ Hkey).
    rewrite bind_bind. unfold bind at 1, question at 1. rewrite bind_emit.
    cbn [stdin trace manager manifest_file after managed].
    unfold declines.
    destruct (decide (JS.toLowerCase answer = "n")) as [Hn|Hn].
    + rewrite (bool_decide_eq_true_2 _ Hn).
      rewrite (bool_decide_eq_false_2 (JS.toLowerCase answer ≠ "n")) by (by intros ?).
      rewrite bind_ret. f_equal. f_equal. rewrite <- !app_assoc. by rewrite app_nil_r.
    + rewrite (bool_decide_eq_false_2 _ Hn).
      rewrite (bool_decide_eq_true_2 (JS.toLowerCase answer ≠ "n")) by done.
      rewrite bind_bind. unfold bind at 1, with_manager at 1. cbn [manager].
      rewrite Hset. cbn [fst snd]. rewrite bind_emit. f_equal.
      unfold after. cbn [trace stdin manager manifest_file]. f_equal.
      by rewrite <- !app_assoc.
  - intros Hdecl now'. rewrite Hdecl, Hset. cbn [snd]. unfold saved.
    erewrite getPackageConfigValue_cached by (done || reflexivity). cbn [fst]. f_equal.
    unfold with_value. rewrite stored_value_insert. cbn [fst snd].
    rewrite (decide_True (P := _ ∧ _)); [done|by split].
Qed.

Lemma prompted_value_is_used_witness :
  let h := at_terminal (example_host ∅ "1.0.0") in
  let w := initial h ["secret"; "y"] ConfigManager.Missing None in
  (gatherUserConfigValues h "@acme/tool" [("api_key", example_field true None)] w).1
    = Returned {[ "api_key" := "secret" ]}
  ∧ (ConfigManager.getPackageConfigValue "2024-06-01T00:00:00.000Z"
       (ConfigManager.setPackageConfigValue (Date_toISOString h)
          (ConfigManager.getPackageConfig (Date_toISOString h) (manager w)
             "@acme/tool").2
          "@acme/tool" "api_key" "secret").2
       "@acme/tool" "api_key").1 = inr (Some "secret").
Proof.
  intros h w.
  set (cm := (ConfigManager.getPackageConfig (Date_toISOString h) (manager w)
                "@acme/tool").2).
  assert (own_name "@acme/tool") as Hname by reflexivity.
  assert (keys_in_range [("api_key", example_field true None)]) as Hrange
    by (repeat constructor).
  assert (ConfigManager.getPackageConfig (Date_toISOString h) (manager w) "@acme/tool"
          = (inr None, cm)) as Hload by (vm_compute; reflexivity).
  assert (resolve_entries (from_option id ∅ None) (process_env h)
            [("api_key", example_field true None)]
          = (∅, [("api_key", example_field true None)])) as Hres
    by (vm_compute; reflexivity).
  assert ("secret" ≠ "") as Hvalue by discriminate.
  destruct (prompted_value_is_used h "@acme/tool" [("api_key", example_field true None)]
              w None cm ∅ "api_key" (example_field true None) [] "secret" "y" []
              Hname I Hrange Hload eq_refl Hres eq_refl Hvalue)
    as (Hrun & _ & Hsaved).
  split.
  - rewrite Hrun. vm_compute. reflexivity.
  - exact (Hsaved eq_refl "2024-06-01T00:00:00.000Z").
Defined.

(** X26. For a package name that [Object.prototype] has no member for, over
    a configuration file that conforms to the schema: at a terminal, an
    empty answer for the first required field without a value is fatal:
    [gatherUserConfigValues] writes that the field is required and exits
    with status 1, without offering to save anything and without asking for
    the remaining fields. *)
Theorem empty_answer_is_fatal (h : Host) (packageName : string)
    (userConfig : list (string * UserConfigField)) (w : World)
    (stored : option (gmap string string)) (cm : ConfigManager.t)
    (result : gmap string string) (key : string) (field : UserConfigField)
    (rest : list (string * UserConfigField)) (lines : list string) :
  own_name packageName → schema_file (ConfigManager.disk (manager w)) →
  keys_in_range userConfig →
  ConfigManager.getPackageConfig (Date_toISOString h) (manager w) packageName
    = (inr stored, cm) →
  stdin_isTTY h = true →
  resolve_entries (from_option id ∅ stored) (process_env h) userConfig
    = (result, (key, field) :: rest) →
  stdin w = "" :: lines →
  gatherUserConfigValues h packageName userConfig w
  = (Exited 1,
     {| trace :=
          trace w ++ [Stderr ("=> Package requires configuration:" +:+ JS.nl)]
            ++ prompt_events key field
            ++ [Stderr ("=> Error: " +:+ field_label key field +:+ " is required"
                          +:+ JS.nl)];
        stdin := lines;
        manager := cm;
        manifest_file := manifest_file w |}).
Proof.
  intros _ _ _ Hload Htty Hres Hstdin.
  destruct (missing_head _ _ _ _ _ _ _ Hres) as (Hd & Hreq & _).
  unfold gatherUserConfigValues.
  rewrite (bind_Returned _ _ _ _ _ (with_manager_Returned _ _ _ _ Hload)).
  rewrite Hres. unfold isInteractive. rewrite Htty. cbn [negb].
  rewrite bind_ret, bind_emit. cbn [prompt_missing]. fold (field_label key field).
  erewrite (bind_Returned (promptForValue field key));
    [|by apply promptForValue_answer].
  cbn [truthy_string]. rewrite bool_decide_eq_false_2 by (by intros H).
  rewrite Hreq. cbn [negb andb]. rewrite bind_emit. unfold exit, after.
  cbn [trace stdin manager manifest_file managed]. f_equal. f_equal.
  by rewrite <- !app_assoc.
Qed.

Lemma empty_answer_is_fatal_witness :
  let h := at_terminal (example_host ∅ "1.0.0") in
  (gatherUserConfigValues h "@acme/tool" [("api_key", example_field true None)]
     (initial h [""] ConfigManager.Missing None)).1 = Exited 1.
Proof.
  intros h.
  set (w := initial h [""] ConfigManager.Missing None).
  set (cm := (ConfigManager.getPackageConfig (Date_toISOString h) (manager w)
                "@acme/tool").2).
  assert (own_name "@acme/tool") as Hname by reflexivity.
  assert (keys_in_range [("api_key", example_field true None)]) as Hrange
    by (repeat constructor).
  assert (ConfigManager.getPackageConfig (Date_toISOString h) (manager w) "@acme/tool"
          = (inr None, cm)) as Hload by (vm_compute; reflexivity).
  assert (resolve_entries (from_option id ∅ None) (process_env h)
            [("api_key", example_field true None)]
          = (∅, [("api_key", example_field true None)])) as Hres
    by (vm_compute; reflexivity).
  rewrite (empty_answer_is_fatal h "@acme/tool" [("api_key", example_field true None)]
             w None cm ∅ "api_key" (example_field true None) [] []
             Hname I Hrange Hload eq_refl Hres eq_refl).
  reflexivity.
Defined.
